(** * Seurasaari raster notebook: band math over IEEE binary64

    The notebook [Raster/Seurasaari_trees.ipynb] reads Sentinel-2 bands into
    numpy arrays, rescales them, masks the sensor's no-data value, clamps
    out-of-range reflectances and computes the NDVI.  The arrays are numpy
    [float64] arrays, modelled here with the Standard Library's executable
    specification of IEEE 754 ([SpecFloat]) at precision 53 and exponent
    bound 1024. *)

From Stdlib Require Import ZArith QArith Qabs Qround Lia Bool List.
From Stdlib Require Import Floats.SpecFloat DecimalString.
From stdpp Require Import base option list sorting gmap sets strings.

Local Open Scope Z_scope.

(** ** numpy's float64 *)

Module F64.

Definition prec : Z := 53.
Definition emax : Z := 1024.

Definition f64 : Type := spec_float.

Definition nan : f64 := S754_nan.
Definition zero : f64 := S754_zero false.

Definition add : f64 -> f64 -> f64 := SFadd prec emax.
Definition sub : f64 -> f64 -> f64 := SFsub prec emax.
Definition div : f64 -> f64 -> f64 := SFdiv prec emax.
Definition eqb : f64 -> f64 -> bool := SFeqb.
Definition ltb : f64 -> f64 -> bool := SFltb.
Definition leb : f64 -> f64 -> bool := SFleb.

(** Conversion of an integer to float64 (numpy's cast of an integer
    array, Python's conversion of an int operand). *)
Definition of_Z (z : Z) : f64 := binary_normalize prec emax z 0 false.

Definition one : f64 := of_Z 1.

Definition is_nan (x : f64) : bool :=
  match x with S754_nan => true | _ => false end.

Definition is_inf (x : f64) : bool :=
  match x with S754_infinity _ => true | _ => false end.

Definition is_zero (x : f64) : bool :=
  match x with S754_zero _ => true | _ => false end.

Definition is_finite (x : f64) : bool :=
  match x with S754_zero _ | S754_finite _ _ _ => true | _ => false end.

Definition valid (x : f64) : bool := valid_binary prec emax x.

(** The rational value of a finite float. *)
Definition to_Q (x : f64) : option Q :=
  match x with
  | S754_zero _ => Some 0%Q
  | S754_finite s m e =>
      let v := match e with
               | Zneg p => Qmake (Zpos m) (2 ^ p)%positive
               | _ => inject_Z (Zpos m * 2 ^ e)
               end in
      Some (if s then Qopp v else v)
  | _ => None
  end.

End F64.

Import F64.

(** ** Two-dimensional arrays

    A band is a list of rows.  Rasters have positive height and width, and
    every row of a band has the same length. *)

Abbreviation array2 A := (list (list A)).

Definition map2d {A B} (f : A -> B) (a : array2 A) : array2 B :=
  map (map f) a.

Definition zip2d {A B C} (f : A -> B -> C) (a : array2 A) (b : array2 B)
  : array2 C :=
  zip_with (zip_with f) a b.

Definition at2 {A} (a : array2 A) (i j : nat) : option A :=
  match a !! i with
  | Some row => row !! j
  | None => None
  end.

Definition shape {A} (a : array2 A) : nat * nat :=
  (length a, match a with [] => O | row :: _ => length row end).

(** numpy's broadcasting of two 2-D operands: a dimension of size 1 is
    stretched to the size of the other operand. *)
Definition broadcast_dim (n m : nat) : option nat :=
  if decide (n = m) then Some n
  else if decide (n = 1%nat) then Some m
  else if decide (m = 1%nat) then Some n
  else None.

Definition stretch_to {A} (n : nat) (l : list A) : list A :=
  match l with
  | [x] => replicate n x
  | _ => l
  end.

Definition broadcast_to {A} (r c : nat) (a : array2 A) : array2 A :=
  stretch_to r (map (stretch_to c) a).

Definition broadcast2 {A B} (a : array2 A) (b : array2 B)
  : option (array2 A * array2 B) :=
  let '(ra, ca) := shape a in
  let '(rb, cb) := shape b in
  match broadcast_dim ra rb, broadcast_dim ca cb with
  | Some r, Some c => Some (broadcast_to r c a, broadcast_to r c b)
  | _, _ => None
  end.

(** ** Cell 15: rescaling and the no-data mask

<<
    red = red / 10000
    red[red == 0] = np.nan
>>
    The bands are read as unsigned integers; numpy's true division casts
    them to float64. *)

Definition astype_float64 (raw : array2 Z) : array2 f64 := map2d of_Z raw.

Definition true_divide_scalar (a : array2 f64) (s : f64) : array2 f64 :=
  map2d (fun x => div x s) a.

Definition zero_to_nan (x : f64) : f64 := if eqb x zero then nan else x.

Definition mask_zero (a : array2 f64) : array2 f64 := map2d zero_to_nan a.

Definition normalize (band : array2 f64) (scale_factor : f64) : array2 f64 :=
  mask_zero (true_divide_scalar band scale_factor).

Definition scale_10000 : f64 := of_Z 10000.

Definition cell15 (raw : array2 Z) : array2 f64 :=
  normalize (astype_float64 raw) scale_10000.

(** ** Cell 22: values above 1 are set to 1

<<
    red[red>1] =1
>>  *)

Definition clamp_sample (x : f64) : f64 := if ltb one x then one else x.

Definition cell22 (a : array2 f64) : array2 f64 := map2d clamp_sample a.

(** ** numpy's floating-point error handling

    [np.seterr] sets, for the whole process, how the four floating-point
    conditions are treated by every later ufunc call. *)

Inductive err_mode := Ignore | Warn | Raise | Call | Print | Log.

Inductive fp_error := FPDivide | FPOver | FPUnder | FPInvalid.

Record errstate := {
  es_divide : err_mode;
  es_over : err_mode;
  es_under : err_mode;
  es_invalid : err_mode
}.

Definition default_errstate : errstate :=
  {| es_divide := Warn; es_over := Warn; es_under := Ignore; es_invalid := Warn |}.

Definition mode_of (st : errstate) (e : fp_error) : err_mode :=
  match e with
  | FPDivide => es_divide st
  | FPOver => es_over st
  | FPUnder => es_under st
  | FPInvalid => es_invalid st
  end.

Inductive py_exn := FloatingPointError (e : fp_error) | ValueError.

(** What a condition that is neither ignored nor raised leaves behind: a
    RuntimeWarning, a printed line, or a call of the registered handler. *)
Record report := { rp_mode : err_mode; rp_error : fp_error }.

Record outcome (A : Type) := {
  result : py_exn + A;
  state : errstate;
  reports : list report
}.
Arguments result {A} _.
Arguments state {A} _.
Arguments reports {A} _.

Definition NB (A : Type) : Type := errstate -> outcome A.

Definition ret {A} (a : A) : NB A :=
  fun st => {| result := inr a; state := st; reports := [] |}.

Definition raise {A} (e : py_exn) : NB A :=
  fun st => {| result := inl e; state := st; reports := [] |}.

Definition bind {A B} (m : NB A) (k : A -> NB B) : NB B :=
  fun st =>
    let o := m st in
    match result o with
    | inl e => {| result := inl e; state := state o; reports := reports o |}
    | inr a =>
        let o' := k a (state o) in
        {| result := result o'; state := state o';
           reports := reports o ++ reports o' |}
    end.

Notation "'let*' x ':=' m 'in' k" := (bind m (fun x => k))
  (at level 10, x name, m at level 100, k at level 200).

(** [np.seterr(all=None, divide=None, over=None, under=None, invalid=None)]:
    a keyword that is given replaces the mode, [all] stands for the four of
    them, and the old settings are returned. *)
Definition pick (old : err_mode) (all specific : option err_mode) : err_mode :=
  match specific, all with
  | Some m, _ => m
  | None, Some m => m
  | None, None => old
  end.

Definition np_seterr (all divide over under invalid : option err_mode)
  : NB errstate :=
  fun st =>
    {| result := inr st;
       state := {| es_divide := pick (es_divide st) all divide;
                   es_over := pick (es_over st) all over;
                   es_under := pick (es_under st) all under;
                   es_invalid := pick (es_invalid st) all invalid |};
       reports := [] |}.

(** The conditions one elementwise operation signals (IEEE 754, default
    exception handling). *)
Record fp_flags := {
  fl_divide : bool;
  fl_over : bool;
  fl_under : bool;
  fl_invalid : bool
}.

Definition no_flags : fp_flags :=
  {| fl_divide := false; fl_over := false; fl_under := false; fl_invalid := false |}.

Definition join_flags (a b : fp_flags) : fp_flags :=
  {| fl_divide := fl_divide a || fl_divide b;
     fl_over := fl_over a || fl_over b;
     fl_under := fl_under a || fl_under b;
     fl_invalid := fl_invalid a || fl_invalid b |}.

Definition flag_of (f : fp_flags) (e : fp_error) : bool :=
  match e with
  | FPDivide => fl_divide f
  | FPOver => fl_over f
  | FPUnder => fl_under f
  | FPInvalid => fl_invalid f
  end.

(** Sum and difference: invalid for infinities that cancel, overflow when
    finite operands give an infinity.  A sum that falls in the subnormal
    range is exact, so it never signals underflow. *)
Definition addsub_flags (op : f64 -> f64 -> f64) (x y : f64) : fp_flags :=
  {| fl_divide := false;
     fl_over := is_finite x && is_finite y && is_inf (op x y);
     fl_under := false;
     fl_invalid := is_inf x && is_inf y && is_nan (op x y) |}.

(** Quotient: divide-by-zero for a finite non-zero dividend over a zero,
    invalid for 0/0 and inf/inf, overflow when finite operands give an
    infinity, underflow when the exact quotient is non-zero, below the
    smallest normal number, and not representable (IEEE 754 leaves the
    moment of the tininess test to the implementation; it is taken before
    rounding here). *)
Definition min_normal : Q := Qmake 1 (2 ^ 1022)%positive.

Definition div_underflows (x y : f64) : bool :=
  match to_Q x, to_Q y with
  | Some qx, Some qy =>
      if Qeq_bool qy 0 then false
      else
        let q := Qdiv qx qy in
        negb (Qeq_bool q 0)
        && negb (Qle_bool min_normal (Qabs q))
        && match to_Q (div x y) with
           | Some r => negb (Qeq_bool r q)
           | None => true
           end
  | _, _ => false
  end.

Definition div_flags (x y : f64) : fp_flags :=
  {| fl_divide := is_finite x && negb (is_zero x) && is_zero y;
     fl_over := is_finite x && is_finite y && negb (is_zero y) && is_inf (div x y);
     fl_under := div_underflows x y;
     fl_invalid := (is_zero x && is_zero y) || (is_inf x && is_inf y) |}.

(** After the loop over the elements, numpy looks at the accumulated flags
    in the order divide, over, under, invalid, and treats each one that is
    set as its mode says. *)
Definition handle_one (st : errstate) (f : fp_flags) (e : fp_error)
  : option py_exn * list report :=
  if flag_of f e then
    match mode_of st e with
    | Ignore => (None, [])
    | Raise => (Some (FloatingPointError e), [])
    | m => (None, [{| rp_mode := m; rp_error := e |}])
    end
  else (None, []).

Fixpoint handle_all (st : errstate) (f : fp_flags) (es : list fp_error)
  : option py_exn * list report :=
  match es with
  | [] => (None, [])
  | e :: es' =>
      match handle_one st f e with
      | (Some x, r) => (Some x, r)
      | (None, r) =>
          let '(x, r') := handle_all st f es' in (x, r ++ r')
      end
  end.

Definition check_fp {A} (f : fp_flags) (a : A) : NB A :=
  fun st =>
    let '(x, r) := handle_all st f [FPDivide; FPOver; FPUnder; FPInvalid] in
    {| result := match x with Some e => inl e | None => inr a end;
       state := st; reports := r |}.

Definition array_flags (fl : f64 -> f64 -> fp_flags) (a b : array2 f64)
  : fp_flags :=
  foldr join_flags no_flags (concat (zip2d fl a b)).

(** A binary ufunc on two arrays. *)
Definition ufunc2 (op : f64 -> f64 -> f64) (fl : f64 -> f64 -> fp_flags)
    (a b : array2 f64) : NB (array2 f64) :=
  match broadcast2 a b with
  | None => raise ValueError
  | Some (a', b') => check_fp (array_flags fl a' b') (zip2d op a' b')
  end.

Definition np_add : array2 f64 -> array2 f64 -> NB (array2 f64) :=
  ufunc2 add (addsub_flags add).
Definition np_subtract : array2 f64 -> array2 f64 -> NB (array2 f64) :=
  ufunc2 sub (addsub_flags sub).
Definition np_true_divide : array2 f64 -> array2 f64 -> NB (array2 f64) :=
  ufunc2 div div_flags.

(** ** The NDVI cells

<<
    np.seterr(divide="ignore", invalid="ignore")
>>
<<
    ndvi = (ss_nir - ss_red) / (ss_nir + ss_red)
>>  *)

Definition cell_seterr : NB errstate :=
  np_seterr None (Some Ignore) None None (Some Ignore).

Definition ndvi (ss_nir ss_red : array2 f64) : NB (array2 f64) :=
  let* d := np_subtract ss_nir ss_red in
  let* s := np_add ss_nir ss_red in
  np_true_divide d s.

(** The value of one pixel of the result. *)
Definition ndvi_pixel (nir red : f64) : f64 := div (sub nir red) (add nir red).

(** The notebook from the error setting to the index. *)
Definition notebook_ndvi (ss_nir ss_red : array2 f64) : NB (array2 f64) :=
  let* _ := cell_seterr in ndvi ss_nir ss_red.

(** ** Reflectance arrays

    What rescaling an unsigned band by a positive factor and masking its
    zeros can produce: binary64 values that are no-data (NaN) or finite and
    not below zero. *)

Definition reflectance_sample (x : f64) : bool :=
  valid x && (is_nan x || (is_finite x && negb (ltb x zero))).

Definition all2d {A} (p : A -> bool) (a : array2 A) : bool :=
  forallb (forallb p) a.

Definition reflectance_array (a : array2 f64) : bool := all2d reflectance_sample a.

Definition is_shape {A} (r c : nat) (a : array2 A) : bool :=
  (length a =? r)%nat && forallb (fun row => (length row =? c)%nat) a.

(** A float that is neither a zero nor a NaN and has the sign [s]. *)
Definition nonzero_of_sign (s : bool) (x : f64) : Prop :=
  match x with
  | S754_finite s' _ _ | S754_infinity s' => s' = s
  | _ => False
  end.

(** No condition is turned into an exception. *)
Definition no_raise (st : errstate) : Prop :=
  forall e, mode_of st e <> Raise.

(** A reflectance that has been masked and lies in the unit range:
    no-data, or above zero and at most one. *)
Definition masked_unit_sample (x : f64) : bool :=
  valid x && (is_nan x || (ltb zero x && leb x one)).

(** The float literals [0.5], [0.2] and [1.5]: the binary64 numbers
    nearest to 1/2, 2/10 and 3/2. *)
Definition half : f64 := div (of_Z 1) (of_Z 2).
Definition fifth : f64 := div (of_Z 2) (of_Z 10).
Definition three_halves : f64 := div (of_Z 3) (of_Z 2).

(** The suppression of the division conditions read as a scoped one: the
    error setting in force after the NDVI cells is the one in force before
    them, so a division elsewhere is treated as it was. *)
Definition suppression_is_scoped : Prop :=
  forall (st : errstate) (ss_nir ss_red a b : array2 f64),
    let st' := state (notebook_ndvi ss_nir ss_red st) in
    st' = st
    /\ reports (np_true_divide a b st') = reports (np_true_divide a b st).

(** ** The toolbox

    The notebook imports [seurasaari_toolbox as stb]; the module itself is
    not part of the sources at hand, only its calls are. *)

Module stb.

(** Modelled from the spec: [stb.create_forest_mask], defined in the
    toolbox module that is missing from the sources.  The spec's
    [forest_mask]: for each pixel, 1 if its code is in the forest codes,
    else 0; a no-data pixel of the categorical raster (if a no-data value
    is defined for that raster) gives 0, never 1.  [nodata] is the no-data
    value of the raster's metadata, if it has one. *)
Definition create_forest_mask (corine_array : array2 Z) (forestcodes : gset Z)
    (nodata : option Z) : array2 Z :=
  map2d (fun code =>
           if decide (nodata = Some code) then 0
           else if decide (code ∈ forestcodes) then 1 else 0)
        corine_array.

(** The nearest integer to [n / d], ties to the even one. *)
Definition round_half_even (n : Z) (d : positive) : Z :=
  let f := n / Zpos d in
  let r := n mod Zpos d in
  match 2 * r ?= Zpos d with
  | Lt => f
  | Gt => f + 1
  | Eq => if Z.even f then f else f + 1
  end.

(** Rounding to one decimal place: a number of tenths. *)
Definition round_1dp (q : Q) : Q :=
  Qmake (round_half_even (10 * Qnum q) (Qden q)) 10.

Definition total_count (zonal_record : gmap string Z) : Z :=
  map_fold (fun _ count acc => count + acc) 0 zonal_record.

(** Modelled from the spec: [stb.get_zonal_stats_percentage], defined in
    the toolbox module that is missing from the sources, for one zonal
    record.  The spec's [to_percentages]: the total is the sum of all
    counts; each entry becomes 100 * count / total rounded to one decimal
    place; a total of 0 gives the empty mapping. *)
Definition to_percentages (zonal_record : gmap string Z) : gmap string Q :=
  let total := total_count zonal_record in
  if decide (total = 0) then ∅
  else (fun count => round_1dp (100 * inject_Z count / inject_Z total)%Q)
         <$> zonal_record.

(** [zonal_stats] returns one record per polygon. *)
Definition get_zonal_stats_percentage (zstats : list (gmap string Z))
  : list (gmap string Q) :=
  map to_percentages zstats.

Inductive category_error := DuplicateCategoryError (code : Z).

Section CategoryMap.
(** The rows of the lookup table and the reading of one row as a code
    and a label; a row that cannot be read gives [None]. *)
Context {row : Type}.
Variable parse_row : row -> option (Z * string).

Record build_result := {
  skipped : list row;          (* one warning per unparsable row *)
  built : category_error + gmap Z string
}.

Fixpoint build_from (rows : list row) (acc : gmap Z string) : build_result :=
  match rows with
  | [] => {| skipped := []; built := inr acc |}
  | r :: rest =>
      match parse_row r with
      | None =>
          let res := build_from rest acc in
          {| skipped := r :: skipped res; built := built res |}
      | Some (code, label) =>
          match acc !! code with
          | Some _ => {| skipped := []; built := inl (DuplicateCategoryError code) |}
          | None => build_from rest (<[code := label]> acc)
          end
      end
  end.

(** Modelled from the spec: [stb.get_corine_dict], defined in the
    toolbox module that is missing from the sources, after the download
    of the table.  The spec's [build_category_map]: rows map a code to a
    label, a code that is already present is a
    [DuplicateCategoryError], a row that cannot be parsed is skipped
    with a warning. *)
Definition build_category_map (lookup_table : list row) : build_result :=
  build_from lookup_table ∅.

End CategoryMap.

(** The samples of a band that are not no-data. *)
Definition valid_samples (band : array2 f64) : list f64 :=
  List.filter (fun x => negb (is_nan x)) (concat band).

Definition f64_le (x y : f64) : Prop := leb x y = true.

#[global] Instance f64_le_dec : RelDecision f64_le :=
  fun x y => decide_rel (=) (leb x y) true.

(** The p-th percentile of the samples by the nearest-rank method: the
    sample of rank ceil(p/100 * n) in increasing order. *)
Definition percentile (samples : list f64) (p : Q) : f64 :=
  let sorted := merge_sort f64_le samples in
  let n := length sorted in
  let rank := Z.to_nat (Qceiling (p * inject_Z (Z.of_nat n) / 100)) in
  nth (Nat.min (rank - 1) (n - 1)) sorted nan.

(** The linear map that sends [lo] to 0 and [hi] to 1. *)
Definition remap (lo hi x : f64) : f64 := div (sub x lo) (sub hi lo).

(** Clamping into [0,1]; a NaN compares false and stays. *)
Definition clamp_unit (x : f64) : f64 :=
  if ltb x zero then zero else if ltb one x then one else x.

(** Modelled from the spec: [stb.stretch], defined in the toolbox module
    that is missing from the sources.  The spec's [stretch]: the low and
    high percentile values are computed over the samples that are not
    no-data and are remapped linearly to 0 and 1, the remapped samples
    are clamped into [0,1], no-data stays no-data, and a band whose two
    percentile values are equal is returned unchanged. *)
Definition stretch (band : array2 f64) (low_percentile high_percentile : Q)
  : array2 f64 :=
  let samples := valid_samples band in
  let lo := percentile samples low_percentile in
  let hi := percentile samples high_percentile in
  if eqb lo hi then band
  else map2d (fun x => clamp_unit (remap lo hi x)) band.

End stb.

(** A lookup table whose rows are two text cells, the code in decimal and
    the label; a row whose first cell is not a number cannot be parsed. *)
Definition parse_cells (r : string * string) : option (Z * string) :=
  match NilZero.int_of_string (fst r) with
  | Some code => Some (Z.of_int code, snd r)
  | None => None
  end.

Definition unparsable {row} (parse_row : row -> option (Z * string)) (r : row)
  : bool :=
  match parse_row r with None => true | Some _ => false end.

(** A reflectance in the unit range that is not no-data. *)
Definition unit_sample (x : f64) : bool :=
  valid x && is_finite x && leb zero x && leb x one.

(** ** Raw bands

    The bands are read with [s2open.read]; Sentinel-2 digital numbers are
    unsigned 16-bit integers. *)

Definition is_uint16 (v : Z) : bool := (0 <=? v) && (v <? 65536).

(** One sample through cell 15, and through cell 15 followed by cell 22. *)
Definition dn_to_reflectance (v : Z) : f64 :=
  zero_to_nan (div (of_Z v) scale_10000).

Definition dn_to_clamped (v : Z) : f64 := clamp_sample (dn_to_reflectance v).

(** A check of all the values [lo], ..., [lo + 2^k - 1]. *)
Fixpoint all_range (k : nat) (lo : Z) (P : Z -> bool) : bool :=
  match k with
  | O => P lo
  | S k' => all_range k' lo P && all_range k' (lo + 2 ^ Z.of_nat k') P
  end.

Definition positive_finite (x : f64) : bool :=
  match x with S754_finite false _ _ => true | _ => false end.

(** What holds of the reflectance of one digital number. *)
Definition dn_check (v : Z) : bool :=
  let r := dn_to_reflectance v in
  if v =? 0 then is_nan r
  else
    valid r && positive_finite r
    && (if v <? 10000 then ltb r one else true)
    && (if 10000 <? v then ltb one r else true)
    && (if v + 1 <? 65536 then ltb r (dn_to_reflectance (v + 1)) else true).

(** ** Minimum and maximum that ignore no-data

<<
    print(np.nanmin(red), "-", np.nanmax(red), "mean:", np.nanmean(red))
>>
    [np.nanmin] and [np.nanmax] reduce the flattened array with [np.fmin]
    and [np.fmax], which keep the first operand when it compares as wanted
    or when the second one is NaN.  An empty array has no minimum; an array
    of NaN only gives NaN and the warning "All-NaN slice encountered". *)

Definition pick_by (beats : f64 -> f64 -> bool) (a b : f64) : f64 :=
  if beats a b || is_nan b then a else b.

Definition np_fmax (a b : f64) : f64 := if leb b a || is_nan b then a else b.
Definition np_fmin (a b : f64) : f64 := if leb a b || is_nan b then a else b.

Inductive reduce_error := ZeroSizeArray.

Record nan_reduction := {
  red_value : f64;
  all_nan_warning : bool
}.

Definition nan_reduce (f : f64 -> f64 -> f64) (a : array2 f64)
  : reduce_error + nan_reduction :=
  match concat a with
  | [] => inl ZeroSizeArray
  | x :: l =>
      let r := fold_left f l x in
      inr {| red_value := r; all_nan_warning := is_nan r |}
  end.

Definition np_nanmax : array2 f64 -> reduce_error + nan_reduction :=
  nan_reduce np_fmax.
Definition np_nanmin : array2 f64 -> reduce_error + nan_reduction :=
  nan_reduce np_fmin.

(** ** The false colour stack

<<
    falsecolor_stack = np.dstack((nir, red, green))
>>
    Three bands of one shape are stacked along a third axis; bands of
    different shapes cannot be stacked. *)

Definition shape_eqb (s t : nat * nat) : bool :=
  (fst s =? fst t)%nat && (snd s =? snd t)%nat.

Definition np_dstack3 {A} (a b c : array2 A) : py_exn + list (list (list A)) :=
  if shape_eqb (shape a) (shape b) && shape_eqb (shape b) (shape c)
  then inr (zip_with (fun ra rbc =>
                        zip_with (fun x yz => [x; fst yz; snd yz]) ra rbc)
                     a (zip_with (zip_with pair) b c))
  else inl ValueError.

Definition at3 {A} (s : list (list (list A))) (i j k : nat) : option A :=
  match at2 s i j with
  | Some px => px !! k
  | None => None
  end.

(** Cell 22 as a whole: the three bands are clamped and stacked again. *)
Definition cell22_stack (nir red green : array2 f64)
  : py_exn + list (list (list f64)) :=
  np_dstack3 (cell22 nir) (cell22 red) (cell22 green).

(** ** Metadata of the files that are written

<<
    seurasaariS2_meta = s2open.meta.copy()
    seurasaariS2_meta.update({"height": seurasaariS2_array.shape[1],
                     "width": seurasaariS2_array.shape[2],
                     "transform": seurasaariS2_transform })
>>
<<
    ndvi_meta = seurasaariS2.meta.copy()
    ndvi_meta.update({"count" : 1,
                     "dtype" : np.dtype("f8")})
>>
    Dictionaries are objects on a heap: [copy] makes a new object, [update]
    changes its object in place. *)

Inductive meta_value :=
| MInt (n : Z)
| MText (s : string)
| MFloat (x : f64)
| MNone
| MTransform (a b c d e f : f64).

Abbreviation pydict := (gmap string meta_value).
Abbreviation heap := (gmap positive pydict).

Definition dict_copy (l : positive) (h : heap) : option (positive * heap) :=
  match h !! l with
  | Some d => let l' := fresh (dom h) in Some (l', <[l' := d]> h)
  | None => None
  end.

(** [d.update(other)]: the entries of [other] replace or extend those of
    [d]. *)
Definition dict_update (l : positive) (other : pydict) (h : heap) : heap :=
  match h !! l with
  | Some d => <[l := other ∪ d]> h
  | None => h
  end.

Definition cell_crop_meta (meta : positive) (array_shape : Z * Z * Z)
    (transform : meta_value) (h : heap) : option (positive * heap) :=
  match dict_copy meta h with
  | Some (l, h') =>
      let '(_, height, width) := array_shape in
      Some (l, dict_update l
                 (<["height" := MInt height]>
                    (<["width" := MInt width]>
                       (<["transform" := transform]> ∅))) h')
  | None => None
  end.

Definition cell_ndvi_meta (meta : positive) (h : heap)
  : option (positive * heap) :=
  match dict_copy meta h with
  | Some (l, h') =>
      Some (l, dict_update l
                 (<["count" := MInt 1]> (<["dtype" := MText "float64"]> ∅)) h')
  | None => None
  end.

(** ** From the forest mask to the shapes that mask the NDVI

<<
    results = ({"properties": {"raster_val": v}, "geometry": s}
               for i, (s, v) in enumerate(features.shapes(forestmask, ...)))
>>
<<
    shapes = [feature["geometry"] for feature in shapefile
              if feature["properties"]["raster_val"] == 1]
>>  *)

Section Shapes.
Context {geometry : Type}.

Record feature := {
  properties : gmap string Z;
  geometry_of : geometry
}.

Definition results (shapes : list (geometry * Z)) : list feature :=
  map (fun sv => {| properties := {["raster_val" := snd sv]};
                    geometry_of := fst sv |}) shapes.

Inductive key_error := KeyError (key : string).

Definition has_raster_val (ft : feature) : bool :=
  match properties ft !! "raster_val" with
  | Some _ => true
  | None => false
  end.

Definition is_forest (ft : feature) : bool :=
  match properties ft !! "raster_val" with
  | Some v => v =? 1
  | None => false
  end.

Fixpoint forest_shapes (shapefile : list feature) : key_error + list geometry :=
  match shapefile with
  | [] => inr []
  | ft :: rest =>
      match properties ft !! "raster_val" with
      | None => inl (KeyError "raster_val")
      | Some v =>
          match forest_shapes rest with
          | inl e => inl e
          | inr gs => inr (if v =? 1 then geometry_of ft :: gs else gs)
          end
      end
  end.

End Shapes.

(** ** The order of binary64 numbers as an order of integers

    A finite number m * 2^e is the integer m * 2^(e + 1074) times the
    smallest positive number; the infinities lie beyond every finite
    number. *)

Definition scaled (x : f64) : Z :=
  match x with
  | S754_zero _ => 0
  | S754_finite s m e => cond_Zopp s (Zpos m * 2 ^ (e + 1074))
  | S754_infinity s => cond_Zopp s (2 ^ 2100)
  | S754_nan => 0
  end.

(** ** The range of the index

    A sample of an NDVI band: no-data, or a finite number from -1 to 1.
    Its operands: no-data, or a reflectance from 0 to 1. *)

Definition unit_or_nodata (x : f64) : bool := is_nan x || unit_sample x.

Definition ndvi_sample (x : f64) : bool :=
  valid x && (is_nan x || (is_finite x && leb (of_Z (-1)) x && leb x one)).

(** A reflectance that is not no-data: a finite number that is not below
    zero. *)
Definition data_sample (x : f64) : bool :=
  valid x && is_finite x && negb (ltb x zero).

(** The position, counted from 0, that the nearest-rank method gives the
    [p]-th percentile among [n] samples in increasing order; it is the
    position [stb.percentile] reads. *)
Definition nearest_rank (n : nat) (p : Q) : nat :=
  Nat.min (Z.to_nat (Qceiling (p * inject_Z (Z.of_nat n) / 100)) - 1) (n - 1).

(** The order of the scaled values; on valid numbers that are not NaN it is
    the order of the numbers. *)
Definition scaled_le (x y : f64) : Prop := scaled x <= scaled y.

#[global] Instance scaled_le_dec : RelDecision scaled_le :=
  fun x y => Z_le_dec (scaled x) (scaled y).

(** The runs that merge sort keeps on its stack hold only elements with
    the property [P]. *)
Definition stack_good {A} (P : A -> Prop) (st : list (option (list A))) : Prop :=
  Forall (fun o => match o with Some l => Forall P l | None => True end) st.

(** * Properties *)

Example half_bits : half = S754_finite false 4503599627370496 (-53).
Proof. reflexivity. Qed.

Example fifth_bits : fifth = S754_finite false 7205759403792794 (-55).
Proof. reflexivity. Qed.

Example scale_10000_bits : scale_10000 = S754_finite false 5497558138880000 (-39).
Proof. reflexivity. Qed.

Example cell15_example :
  cell15 [[0; 5000]; [10000; 0]] = [[nan; half]; [one; nan]].
Proof. reflexivity. Qed.

Example cell22_example :
  cell22 [[half; three_halves]; [nan; one]] = [[half; one]; [nan; one]].
Proof. reflexivity. Qed.

(** ** Facts about binary64 rounding *)

Section Rounding.

Lemma digits2_pos_bounds (p : positive) :
  2 ^ (Zpos (digits2_pos p) - 1) <= Zpos p < 2 ^ Zpos (digits2_pos p).
Proof.
  induction p as [p IH | p IH | ]; cbn [digits2_pos].
  - rewrite Pos2Z.inj_succ.
    replace (Z.succ (Zpos (digits2_pos p)) - 1)
      with (Z.succ (Zpos (digits2_pos p) - 1)) by lia.
    rewrite !Z.pow_succ_r by lia. lia.
  - rewrite Pos2Z.inj_succ.
    replace (Z.succ (Zpos (digits2_pos p)) - 1)
      with (Z.succ (Zpos (digits2_pos p) - 1)) by lia.
    rewrite !Z.pow_succ_r by lia. lia.
  - cbn. lia.
Qed.

Lemma shr_1_m (r : shr_record) :
  0 <= shr_m r -> shr_m (shr_1 r) = shr_m r / 2.
Proof.
  destruct r as [m b c]; cbn [shr_m]; intros Hm.
  rewrite <- Z.div2_div.
  destruct m as [ | [q | q | ] | q]; try reflexivity; lia.
Qed.

Lemma shr_iter_m (n : positive) :
  forall r, 0 <= shr_m r ->
    shr_m (SpecFloat.iter_pos shr_1 n r) = shr_m r / 2 ^ Zpos n.
Proof.
  induction n as [n IH | n IH | ]; intros r Hr; cbn [SpecFloat.iter_pos].
  - assert (H1 : 0 <= shr_m (shr_1 r))
      by (rewrite shr_1_m by lia; apply Z.div_pos; lia).
    assert (H2 : 0 <= shr_m (SpecFloat.iter_pos shr_1 n (shr_1 r)))
      by (rewrite IH by lia; apply Z.div_pos; lia).
    rewrite IH, IH, shr_1_m by lia.
    rewrite !Z.div_div by lia.
    f_equal. replace (Zpos n~1) with (Zpos n + Zpos n + 1) by lia.
    rewrite !Z.pow_add_r by lia. change (2 ^ 1) with 2. ring.
  - assert (H2 : 0 <= shr_m (SpecFloat.iter_pos shr_1 n r))
      by (rewrite IH by lia; apply Z.div_pos; lia).
    rewrite IH, IH by lia.
    rewrite !Z.div_div by lia.
    f_equal. replace (Zpos n~0) with (Zpos n + Zpos n) by lia.
    rewrite !Z.pow_add_r by lia. ring.
  - rewrite shr_1_m by lia. reflexivity.
Qed.

Lemma shr_record_of_loc_m (m : Z) (l : location) :
  shr_m (shr_record_of_loc m l) = m.
Proof. destruct l as [ | [ | | ]]; reflexivity. Qed.

Lemma fexp_eq (e : Z) : fexp prec emax e = Z.max (e - 53) (-1074).
Proof. reflexivity. Qed.

(** Shifting a positive mantissa to its canonical exponent keeps it
    positive, as long as the exponent is not below the smallest one. *)
Lemma shr_fexp_pos (m e : Z) (l : location) :
  0 < m -> -1074 <= e ->
  0 < shr_m (fst (shr_fexp prec emax m e l))
  /\ e <= snd (shr_fexp prec emax m e l).
Proof.
  intros Hm He. unfold shr_fexp, shr.
  destruct m as [ | p | p]; try lia.
  cbn [Zdigits2]. rewrite fexp_eq.
  pose proof (digits2_pos_bounds p) as [Hlo _].
  destruct (Z.max (Zpos (digits2_pos p) + e - 53) (-1074) - e)
    as [ | q | q] eqn:E; cbn [fst snd];
    try (rewrite shr_record_of_loc_m; lia).
  rewrite shr_iter_m by (rewrite shr_record_of_loc_m; lia).
  rewrite shr_record_of_loc_m. split; [ | lia].
  apply Z.div_str_pos. split; [lia | ].
  eapply Z.le_trans; [ | exact Hlo].
  apply Z.pow_le_mono_r; lia.
Qed.

Lemma round_nearest_even_ge (m : Z) (l : location) :
  m <= round_nearest_even m l.
Proof.
  destruct l as [ | [ | | ]]; cbn [round_nearest_even];
    try destruct (Z.even m); lia.
Qed.

Lemma binary_round_aux_nonzero (s : bool) (m e : Z) (l : location) :
  0 < m -> -1074 <= e ->
  nonzero_of_sign s (binary_round_aux prec emax s m e l).
Proof.
  intros Hm He. unfold binary_round_aux.
  pose proof (shr_fexp_pos m e l Hm He) as [H1 H1'].
  destruct (shr_fexp prec emax m e l) as [r1 e1]; cbn [fst snd] in *.
  pose proof (round_nearest_even_ge (shr_m r1) (loc_of_shr_record r1)) as Hr.
  pose proof (shr_fexp_pos (round_nearest_even (shr_m r1) (loc_of_shr_record r1))
                e1 loc_Exact ltac:(lia) ltac:(lia)) as [H2 _].
  destruct (shr_fexp prec emax _ e1 loc_Exact) as [r2 e2]; cbn [fst snd] in *.
  destruct (shr_m r2) as [ | q | q]; try lia.
  destruct (e2 <=? emax - prec); reflexivity.
Qed.

Lemma shl_align_exp (m : positive) (e e' : Z) :
  snd (shl_align m e e') = Z.min e e'.
Proof.
  unfold shl_align. destruct (e' - e) eqn:E; cbn [snd]; lia.
Qed.

Lemma binary_round_nonzero (s : bool) (m : positive) (e : Z) :
  -1074 <= e -> nonzero_of_sign s (binary_round prec emax s m e).
Proof.
  intros He. unfold binary_round.
  pose proof (shl_align_exp m e (fexp prec emax (Zpos (digits2_pos m) + e))) as Hs.
  destruct (shl_align m e _) as [mz ez]; cbn [snd] in Hs.
  apply binary_round_aux_nonzero; [lia | ].
  rewrite Hs, fexp_eq. lia.
Qed.

Lemma valid_finite (s : bool) (m : positive) (e : Z) :
  valid (S754_finite s m e) = true ->
  -1074 <= e <= 971 /\ Zpos (digits2_pos m) <= 53
  /\ e = Z.max (Zpos (digits2_pos m) + e - 53) (-1074).
Proof.
  unfold valid, valid_binary, bounded, canonical_mantissa.
  rewrite fexp_eq. unfold emax, prec. intros H.
  apply andb_prop in H as [H1 H2].
  apply Z.eqb_eq in H1. apply Z.leb_le in H2. lia.
Qed.

(** The sum of two positive binary64 numbers is positive: it is neither a
    zero nor a NaN. *)
Lemma add_pos_pos (mx my : positive) (ex ey : Z) :
  -1074 <= ex -> -1074 <= ey ->
  nonzero_of_sign false
    (add (S754_finite false mx ex) (S754_finite false my ey)).
Proof.
  intros Hx Hy. unfold add, SFadd. cbn [cond_Zopp].
  cbn [Z.add binary_normalize].
  apply binary_round_nonzero. lia.
Qed.

End Rounding.

(** ** Arrays *)

Lemma is_shape_spec {T} (r c : nat) (a : array2 T) :
  is_shape r c a = true <->
  length a = r /\ Forall (fun row => length row = c) a.
Proof.
  unfold is_shape. rewrite andb_true_iff, Nat.eqb_eq, forallb_forall, Forall_forall.
  split; intros [H1 H2]; split; auto; intros row Hrow.
  - apply Nat.eqb_eq, H2, list_elem_of_In, Hrow.
  - apply Nat.eqb_eq, H2, list_elem_of_In, Hrow.
Qed.

Section Arrays.
Context {A B C : Type}.

Lemma all2d_at2 (p : A -> bool) (a : array2 A) (i j : nat) (x : A) :
  all2d p a = true -> at2 a i j = Some x -> p x = true.
Proof.
  unfold all2d, at2. intros Hall Hx.
  destruct (a !! i) as [row | ] eqn:Hrow; [ | discriminate].
  rewrite forallb_forall in Hall.
  specialize (Hall row (proj1 (list_elem_of_In _ _) (list_elem_of_lookup_2 _ _ _ Hrow))).
  rewrite forallb_forall in Hall.
  apply Hall, list_elem_of_In. eapply list_elem_of_lookup_2; eauto.
Qed.

Lemma at2_zip2d (f : A -> B -> C) (a : array2 A) (b : array2 B) (i j : nat) :
  at2 (zip2d f a b) i j =
  match at2 a i j, at2 b i j with
  | Some x, Some y => Some (f x y)
  | _, _ => None
  end.
Proof.
  unfold at2, zip2d. rewrite lookup_zip_with.
  destruct (a !! i) as [ra | ]; cbn; [ | reflexivity].
  destruct (b !! i) as [rb | ]; cbn.
  - rewrite lookup_zip_with.
    destruct (ra !! j); cbn; [ | reflexivity].
    destruct (rb !! j); reflexivity.
  - destruct (ra !! j); reflexivity.
Qed.

Lemma at2_map2d (f : A -> B) (a : array2 A) (i j : nat) :
  at2 (map2d f a) i j = option_map f (at2 a i j).
Proof.
  unfold at2, map2d. rewrite list_lookup_fmap.
  destruct (a !! i) as [ra | ]; cbn; [ | reflexivity].
  rewrite list_lookup_fmap. destruct (ra !! j); reflexivity.
Qed.

Lemma is_shape_zip2d (f : A -> B -> C) (r c : nat) (a : array2 A) (b : array2 B) :
  is_shape r c a = true -> is_shape r c b = true ->
  is_shape r c (zip2d f a b) = true.
Proof.
  rewrite !is_shape_spec. intros [Ha Ha'] [Hb Hb']. subst r.
  revert b Hb Hb'. induction a as [ | ra a IH]; intros [ | rb b] Hb Hb';
    try discriminate; cbn.
  - split; [reflexivity | constructor].
  - inversion Ha'; subst. inversion Hb'; subst.
    destruct (IH ltac:(assumption) b ltac:(cbn in Hb; lia) ltac:(assumption))
      as [IH1 IH2].
    split; [unfold zip2d in IH1; cbn; lia | ].
    constructor; [ | exact IH2].
    rewrite length_zip_with. lia.
Qed.

Lemma is_shape_map2d (f : A -> B) (r c : nat) (a : array2 A) :
  is_shape r c (map2d f a) = is_shape r c a.
Proof.
  unfold is_shape, map2d. rewrite length_map. f_equal.
  induction a as [ | ra a IH]; cbn; [reflexivity | ].
  rewrite length_map, IH. reflexivity.
Qed.

End Arrays.

Lemma broadcast_dim_same (n : nat) : broadcast_dim n n = Some n.
Proof. unfold broadcast_dim. destruct (decide (n = n)); congruence. Qed.

Lemma stretch_to_same {T} (n : nat) (l : list T) :
  length l = n -> stretch_to n l = l.
Proof.
  destruct l as [ | x [ | y l]]; cbn; intros <-; reflexivity.
Qed.

Lemma broadcast_to_same {T} (r c : nat) (a : array2 T) :
  is_shape r c a = true -> broadcast_to r c a = a.
Proof.
  rewrite is_shape_spec. intros [Hr Hc]. unfold broadcast_to.
  assert (Hmap : map (stretch_to c) a = a).
  { clear Hr. induction Hc as [ | row a Hrow _ IH]; cbn; [reflexivity | ].
    rewrite stretch_to_same, IH by assumption. reflexivity. }
  rewrite Hmap. apply stretch_to_same, Hr.
Qed.

Lemma shape_of_is_shape {T} (r c : nat) (a : array2 T) :
  is_shape r c a = true -> a <> [] -> shape a = (r, c).
Proof.
  rewrite is_shape_spec. intros [Hr Hc] Hne. unfold shape.
  destruct a as [ | row a]; [congruence | ].
  inversion Hc; subst. reflexivity.
Qed.

Lemma broadcast2_same {A B} (r c : nat) (a : array2 A) (b : array2 B) :
  is_shape r c a = true -> is_shape r c b = true ->
  broadcast2 a b = Some (a, b).
Proof.
  intros Ha Hb. unfold broadcast2.
  destruct a as [ | ra a].
  - apply is_shape_spec in Ha as [Ha _]. cbn in Ha. subst r.
    apply is_shape_spec in Hb as [Hb _].
    destruct b; [reflexivity | discriminate].
  - destruct b as [ | rb b].
    { apply is_shape_spec in Ha as [Ha _]. apply is_shape_spec in Hb as [Hb _].
      cbn in *. congruence. }
    rewrite (shape_of_is_shape r c) by (assumption || discriminate).
    rewrite (shape_of_is_shape r c) by (assumption || discriminate).
    rewrite !broadcast_dim_same.
    rewrite !broadcast_to_same by assumption. reflexivity.
Qed.

(** ** Error handling of the ufuncs *)

Lemma handle_all_no_raise (st : errstate) (f : fp_flags) (es : list fp_error) :
  no_raise st -> fst (handle_all st f es) = None.
Proof.
  intros Hst. induction es as [ | e es IH]; cbn [handle_all]; [reflexivity | ].
  unfold handle_one. specialize (Hst e).
  destruct (flag_of f e); [destruct (mode_of st e); try congruence | ];
    destruct (handle_all st f es); cbn in *; assumption.
Qed.

Lemma check_fp_no_raise {T} (st : errstate) (f : fp_flags) (a : T) :
  no_raise st ->
  result (check_fp f a st) = inr a /\ state (check_fp f a st) = st.
Proof.
  intros Hst. unfold check_fp.
  pose proof (handle_all_no_raise st f [FPDivide; FPOver; FPUnder; FPInvalid] Hst) as H.
  destruct (handle_all st f _) as [x rp]; cbn in *. subst x. split; reflexivity.
Qed.

Lemma ufunc2_same_shape (op : f64 -> f64 -> f64) (fl : f64 -> f64 -> fp_flags)
    (r c : nat) (a b : array2 f64) (st : errstate) :
  is_shape r c a = true -> is_shape r c b = true -> no_raise st ->
  result (ufunc2 op fl a b st) = inr (zip2d op a b)
  /\ state (ufunc2 op fl a b st) = st.
Proof.
  intros Ha Hb Hst. unfold ufunc2.
  rewrite (broadcast2_same r c) by assumption.
  apply check_fp_no_raise, Hst.
Qed.

Lemma ndvi_same_shape (r c : nat) (nir red : array2 f64) (st : errstate) :
  is_shape r c nir = true -> is_shape r c red = true -> no_raise st ->
  result (ndvi nir red st) = inr (zip2d ndvi_pixel nir red)
  /\ state (ndvi nir red st) = st.
Proof.
  intros Hn Hr Hst. unfold ndvi, bind, np_subtract, np_add, np_true_divide.
  destruct (ufunc2_same_shape sub (addsub_flags sub) r c nir red st Hn Hr Hst)
    as [E1 S1].
  rewrite E1, S1.
  destruct (ufunc2_same_shape add (addsub_flags add) r c nir red st Hn Hr Hst)
    as [E2 S2].
  rewrite E2, S2.
  destruct (ufunc2_same_shape div div_flags r c
              (zip2d sub nir red) (zip2d add nir red) st
              (is_shape_zip2d _ _ _ _ _ Hn Hr) (is_shape_zip2d _ _ _ _ _ Hn Hr) Hst)
    as [E3 S3].
  rewrite E3, S3. cbn [result state]. split; [ | reflexivity].
  f_equal. unfold zip2d, ndvi_pixel.
  clear. revert red. induction nir as [ | rn nir IH]; intros [ | rr red];
    cbn; try reflexivity.
  f_equal; [ | apply IH].
  clear. revert rr. induction rn as [ | x rn IH]; intros [ | y rr];
    cbn; try reflexivity.
  f_equal. apply IH.
Qed.

Lemma seterr_no_raise (st : errstate) :
  es_over st <> Raise -> es_under st <> Raise ->
  no_raise (state (cell_seterr st)).
Proof.
  intros Ho Hu [ | | | ]; cbn; congruence.
Qed.

(** ** The zero denominator *)

(** Outside the reflectance arrays the sum can vanish under a non-zero
    difference: with a negative operand the quotient is an infinity. *)
Example ndvi_pixel_negative_operand :
  ndvi_pixel half (SFopp half) = S754_infinity false.
Proof. reflexivity. Qed.

Lemma eqb_nonzero (s : bool) (x : f64) :
  nonzero_of_sign s x -> eqb x zero = false.
Proof.
  destruct x as [ | [ | ] | | [ | ] m e]; cbn; intros H; try contradiction;
    reflexivity.
Qed.

Lemma ndvi_pixel_zero_denominator (n d : f64) :
  reflectance_sample n = true -> reflectance_sample d = true ->
  eqb (add n d) zero = true \/ is_nan n = true \/ is_nan d = true ->
  ndvi_pixel n d = nan.
Proof.
  unfold reflectance_sample. intros Hn Hd H.
  apply andb_prop in Hn as [Vn Hn]. apply andb_prop in Hd as [Vd Hd].
  destruct n as [[ | ] | sn | | [ | ] mn en]; try discriminate;
    destruct d as [[ | ] | sd | | [ | ] md ed]; try discriminate;
    try reflexivity;
    try (destruct H as [H | [H | H]]; discriminate).
  - 
    destruct H as [H | [H | H]]; try discriminate.
    apply valid_finite in Vn as [Vn _]. apply valid_finite in Vd as [Vd _].
    rewrite (eqb_nonzero false) in H; [discriminate | ].
    apply add_pos_pos; lia.
Qed.

(** C1.  For two reflectance arrays of the same shape, the notebook's NDVI
    (error setting followed by [(nir - red) / (nir + red)]) raises nothing,
    and at every pixel where [nir + red == 0], or where one of the operands
    is no-data, the result is no-data (NaN), hence not an infinity.  The
    overflow and underflow modes are the ones in force before the notebook's
    [np.seterr]; numpy's defaults do not raise. *)
Theorem C1_ndvi_zero_denominator_nodata
    (r c : nat) (nir red : array2 f64) (st : errstate) :
  is_shape r c nir = true -> is_shape r c red = true ->
  reflectance_array nir = true -> reflectance_array red = true ->
  es_over st <> Raise -> es_under st <> Raise ->
  exists v,
    result (notebook_ndvi nir red st) = inr v
    /\ forall i j n d,
         at2 nir i j = Some n -> at2 red i j = Some d ->
         eqb (add n d) zero = true \/ is_nan n = true \/ is_nan d = true ->
         exists x, at2 v i j = Some x /\ is_nan x = true /\ is_inf x = false.
Proof.
  intros Hn Hr Rn Rr Ho Hu.
  pose proof (seterr_no_raise st Ho Hu) as Hst.
  destruct (ndvi_same_shape r c nir red _ Hn Hr Hst) as [E _].
  exists (zip2d ndvi_pixel nir red). split.
  - unfold notebook_ndvi, bind. cbn [cell_seterr np_seterr result state reports].
    cbn [cell_seterr np_seterr state] in E. rewrite E. reflexivity.
  - intros i j n d En Ed Hz. exists nan.
    rewrite at2_zip2d, En, Ed.
    rewrite ndvi_pixel_zero_denominator; auto.
    + exact (all2d_at2 _ nir i j n Rn En).
    + exact (all2d_at2 _ red i j d Rr Ed).
Qed.

Lemma C1_witness :
  exists v,
    result (notebook_ndvi [[half; zero]; [nan; one]] [[fifth; zero]; [fifth; zero]]
              default_errstate) = inr v
    /\ exists x, at2 v 0 1 = Some x /\ is_nan x = true /\ is_inf x = false.
Proof.
  destruct (C1_ndvi_zero_denominator_nodata 2 2
              [[half; zero]; [nan; one]] [[fifth; zero]; [fifth; zero]]
              default_errstate eq_refl eq_refl eq_refl eq_refl
              ltac:(discriminate) ltac:(discriminate)) as [v [Hv Hpix]].
  exists v. split; [exact Hv | ].
  apply (Hpix 0%nat 1%nat zero zero eq_refl eq_refl).
  left. reflexivity.
Defined.

(** ** Division by one *)

Section DivOne.

Lemma div_eucl_exact (a b : Z) : 0 < b -> Z.div_eucl (a * b) b = (a, 0).
Proof.
  intros Hb.
  pose proof (Z.div_mul a b ltac:(lia)) as Hq.
  pose proof (Z.mod_mul a b ltac:(lia)) as Hr.
  unfold Z.div, Z.modulo in Hq, Hr.
  destruct (Z.div_eucl (a * b) b) as [q r]. congruence.
Qed.

Lemma shr_fexp_canonical (m : positive) (e : Z) :
  e = Z.max (Zpos (digits2_pos m) + e - 53) (-1074) ->
  shr_fexp prec emax (Zpos m) e loc_Exact
  = ({| shr_m := Zpos m; shr_r := false; shr_s := false |}, e).
Proof.
  intros He. unfold shr_fexp. cbn [Zdigits2]. rewrite fexp_eq, <- He, Z.sub_diag.
  reflexivity.
Qed.

Lemma binary_round_aux_canonical (s : bool) (m : positive) (e : Z) :
  valid (S754_finite s m e) = true ->
  binary_round_aux prec emax s (Zpos m) e loc_Exact = S754_finite s m e.
Proof.
  intros Hv. apply valid_finite in Hv as (He & Hd & Hc).
  unfold binary_round_aux. rewrite (shr_fexp_canonical m e Hc).
  cbn [shr_m loc_of_shr_record round_nearest_even].
  rewrite (shr_fexp_canonical m e Hc). cbn [shr_m].
  replace (e <=? emax - prec) with true; [reflexivity | ].
  symmetry. apply Z.leb_le. unfold emax, prec. lia.
Qed.

Lemma binary_round_aux_double (s : bool) (m : positive) (e : Z) :
  valid (S754_finite s m e) = true -> -1074 < e ->
  binary_round_aux prec emax s (Zpos m~0) (e - 1) loc_Exact = S754_finite s m e.
Proof.
  intros Hv Hlt. pose proof Hv as Hv'.
  apply valid_finite in Hv as (He & Hd & Hc).
  unfold binary_round_aux.
  assert (H1 : shr_fexp prec emax (Zpos m~0) (e - 1) loc_Exact
               = ({| shr_m := Zpos m; shr_r := false; shr_s := false |}, e)).
  { unfold shr_fexp. cbn [Zdigits2 digits2_pos]. rewrite fexp_eq, Pos2Z.inj_succ.
    replace (Z.max (Z.succ (Zpos (digits2_pos m)) + (e - 1) - 53) (-1074) - (e - 1))
      with 1 by lia.
    cbn. f_equal. lia. }
  rewrite H1. cbn [shr_m loc_of_shr_record round_nearest_even].
  rewrite (shr_fexp_canonical m e Hc). cbn [shr_m].
  replace (e <=? emax - prec) with true; [reflexivity | ].
  symmetry. apply Z.leb_le. unfold emax, prec. lia.
Qed.

Lemma one_eq : one = S754_finite false 4503599627370496 (-52).
Proof. reflexivity. Qed.

Lemma div_one (s : bool) (m : positive) (e : Z) :
  valid (S754_finite s m e) = true ->
  div (S754_finite s m e) one = S754_finite s m e.
Proof.
  intros Hv. pose proof (valid_finite s m e Hv) as (He & Hd & Hc).
  rewrite one_eq. unfold div, SFdiv, SFdiv_core_binary.
  change (Zdigits2 4503599627370496) with 53. cbn [Zdigits2].
  rewrite fexp_eq, xorb_false_r.
  destruct (Z.eq_dec e (-1074)) as [Emin | Emin].
  - replace (Z.min (Z.max (Zpos (digits2_pos m) + e - (53 + -52) - 53) (-1074))
               (e - -52)) with e by lia.
    replace (e - -52 - e) with 52 by lia.
    rewrite Z.shiftl_mul_pow2 by lia.
    rewrite div_eucl_exact by lia.
    apply binary_round_aux_canonical, Hv.
  - replace (Z.min (Z.max (Zpos (digits2_pos m) + e - (53 + -52) - 53) (-1074))
               (e - -52)) with (e - 1) by lia.
    replace (e - -52 - (e - 1)) with 53 by lia.
    rewrite Z.shiftl_mul_pow2 by lia.
    replace (Zpos m * 2 ^ 53) with (Zpos m~0 * 4503599627370496) by lia.
    rewrite div_eucl_exact by lia.
    apply binary_round_aux_double; [exact Hv | lia].
Qed.

End DivOne.

(** ** Cell 15 *)

Lemma map2d_id {T} (f : T -> T) (p : T -> bool) (a : array2 T) :
  (forall x, p x = true -> f x = x) -> all2d p a = true -> map2d f a = a.
Proof.
  intros Hf. unfold all2d, map2d.
  induction a as [ | row a IH]; cbn; [reflexivity | ].
  intros H. apply andb_prop in H as [Hrow Ha].
  rewrite IH by assumption. f_equal.
  clear IH Ha. induction row as [ | x row IH]; cbn in *; [reflexivity | ].
  apply andb_prop in Hrow as [Hx Hrow].
  rewrite Hf, IH by assumption. reflexivity.
Qed.

Lemma map2d_map2d {T U V} (f : T -> U) (g : U -> V) (a : array2 T) :
  map2d g (map2d f a) = map2d (fun x => g (f x)) a.
Proof.
  unfold map2d. rewrite map_map. apply map_ext. intros row. apply map_map.
Qed.

Lemma normalize_at2 (a : array2 f64) (s : f64) (i j : nat) :
  at2 (normalize a s) i j
  = option_map (fun x => zero_to_nan (div x s)) (at2 a i j).
Proof.
  unfold normalize, mask_zero, true_divide_scalar.
  rewrite map2d_map2d. apply at2_map2d.
Qed.

Lemma div_zero_positive (s : f64) :
  ltb zero s = true -> is_zero (div (of_Z 0) s) = true.
Proof.
  destruct s as [ | [ | ] | | [ | ] m e]; cbn; intros H; try discriminate;
    reflexivity.
Qed.

Lemma zero_to_nan_zero (x : f64) : is_zero x = true -> zero_to_nan x = nan.
Proof. destruct x as [[ | ] | | | ]; cbn; intros H; try discriminate; reflexivity. Qed.

(** C2.  Normalization divides every sample of the raw band by the scale
    factor and then replaces every quotient that equals zero by NaN; for a
    positive scale factor, a pixel whose raw value is 0 is NaN in the
    output. *)
Theorem C2_normalize_zero_is_nodata (raw : array2 Z) (s : f64) :
  ltb zero s = true ->
  forall i j v,
    at2 raw i j = Some v ->
    at2 (normalize (astype_float64 raw) s) i j
    = Some (if eqb (div (of_Z v) s) zero then nan else div (of_Z v) s)
    /\ (v = 0 -> at2 (normalize (astype_float64 raw) s) i j = Some nan).
Proof.
  intros Hs i j v Hv.
  rewrite normalize_at2. unfold astype_float64. rewrite at2_map2d, Hv.
  cbn [option_map]. split; [reflexivity | ].
  intros ->. f_equal. apply zero_to_nan_zero, div_zero_positive, Hs.
Qed.

Lemma C2_witness :
  at2 (cell15 [[0; 1200]; [3; 0]]) 0 0
  = Some (if eqb (div (of_Z 0) scale_10000) zero then nan else div (of_Z 0) scale_10000)
  /\ (0 = 0 -> at2 (cell15 [[0; 1200]; [3; 0]]) 0 0 = Some nan).
Proof.
  exact (C2_normalize_zero_is_nodata [[0; 1200]; [3; 0]] scale_10000 eq_refl
           0%nat 0%nat 0 eq_refl).
Defined.

Lemma masked_unit_fixed (x : f64) :
  masked_unit_sample x = true -> zero_to_nan (div x one) = x.
Proof.
  unfold masked_unit_sample. intros H. apply andb_prop in H as [Hv H].
  destruct x as [[ | ] | [ | ] | | [ | ] m e]; try discriminate; try reflexivity.
  rewrite div_one by assumption. reflexivity.
Qed.

(** C5.  Normalizing again with scale factor 1 changes nothing: on an
    array whose samples are no-data or lie above 0 and at most 1, the
    result equals the input, NaN pixels included. *)
Theorem C5_normalize_scale_one_idempotent (a : array2 f64) :
  all2d masked_unit_sample a = true -> normalize a (of_Z 1) = a.
Proof.
  intros Ha. unfold normalize, mask_zero, true_divide_scalar.
  rewrite map2d_map2d.
  apply (map2d_id _ masked_unit_sample); [ | exact Ha].
  intros x Hx. apply masked_unit_fixed, Hx.
Qed.

Lemma C5_witness :
  normalize [[half; nan]; [one; fifth]] (of_Z 1) = [[half; nan]; [one; fifth]].
Proof.
  exact (C5_normalize_scale_one_idempotent [[half; nan]; [one; fifth]] eq_refl).
Defined.

(** ** Cell 22 *)

Lemma SFcompare_antisym (x y : f64) :
  SFcompare y x = option_map CompOpp (SFcompare x y).
Proof.
  destruct x as [sx | sx | | sx mx ex], y as [sy | sy | | sy my ey];
    cbn; try reflexivity;
    try (destruct sx; reflexivity); try (destruct sy; reflexivity);
    try (destruct sx, sy; reflexivity).
  destruct sx, sy; try reflexivity; f_equal;
    rewrite (Z.compare_antisym ex ey);
    destruct (ex ?= ey); cbn; try reflexivity;
    change (Pos.compare_cont Eq mx my) with (Pos.compare mx my);
    change (Pos.compare_cont Eq my mx) with (Pos.compare my mx);
    rewrite (Pos.compare_antisym mx my); destruct (mx ?= my)%positive; reflexivity.
Qed.

Lemma leb_not_ltb (x y : f64) : leb x y = true -> ltb y x = false.
Proof.
  unfold leb, ltb, SFleb, SFltb. rewrite (SFcompare_antisym x y).
  destruct (SFcompare x y) as [[ | | ] | ]; cbn; congruence.
Qed.

Lemma clamp_sample_cases (x : f64) :
  (clamp_sample x = x /\ ltb one x = false)
  \/ (clamp_sample x = one /\ ltb one x = true /\ is_nan x = false).
Proof.
  unfold clamp_sample. destruct (ltb one x) eqn:E; [right | left; auto].
  repeat split. destruct x; try reflexivity. discriminate.
Qed.

(** C10.  Setting every sample above 1 to 1 leaves a pixel that is NaN or
    at most 1 as it is; a pixel that changes held a finite value above 1
    and now holds 1; a pixel is no-data after the step exactly when it was
    before. *)
Theorem C10_clamp_preserves_nodata (a : array2 f64) :
  reflectance_array a = true ->
  forall i j x,
    at2 a i j = Some x ->
    exists y,
      at2 (cell22 a) i j = Some y
      /\ (is_nan x = true \/ leb x one = true -> y = x)
      /\ (y <> x -> is_finite x = true /\ ltb one x = true /\ y = one)
      /\ is_nan y = is_nan x.
Proof.
  intros Ha i j x Hx. exists (clamp_sample x).
  unfold cell22. rewrite at2_map2d, Hx. cbn [option_map].
  pose proof (all2d_at2 _ a i j x Ha Hx) as Rx.
  split; [reflexivity | ].
  destruct (clamp_sample_cases x) as [[E L] | (E & L & N)]; rewrite E.
  - split; [reflexivity | ]. split; [congruence | reflexivity].
  - split; [ | split].
    + intros [Hn | Hle]; [congruence | ].
      apply leb_not_ltb in Hle. congruence.
    + intros _. repeat split; [ | exact L].
      unfold reflectance_sample in Rx. apply andb_prop in Rx as [_ Rx].
      rewrite N in Rx. cbn in Rx. apply andb_prop in Rx as [Rx _]. exact Rx.
    + rewrite N. reflexivity.
Qed.

Lemma C10_witness :
  exists y,
    at2 (cell22 [[half; three_halves]; [nan; one]]) 0 1 = Some y
    /\ (is_nan three_halves = true \/ leb three_halves one = true -> y = three_halves)
    /\ (y <> three_halves ->
        is_finite three_halves = true /\ ltb one three_halves = true /\ y = one)
    /\ is_nan y = is_nan three_halves.
Proof.
  exact (C10_clamp_preserves_nodata [[half; three_halves]; [nan; one]] eq_refl
           0%nat 1%nat three_halves eq_refl).
Defined.

(** ** The NDVI formula *)

Lemma default_no_raise : no_raise default_errstate.
Proof. intros [ | | | ]; discriminate. Qed.

(** C3.  For two arrays of the same shape the NDVI is
    [(nir - red) / (nir + red)] pixel by pixel; for the one-pixel arrays
    [[0.5]] and [[0.2]] it is [[(0.5 - 0.2) / (0.5 + 0.2)]], a number that
    rounds to 0.4286 at four decimal places. *)
Theorem C3_ndvi_formula
    (r c : nat) (nir red : array2 f64) (st : errstate) :
  is_shape r c nir = true -> is_shape r c red = true -> no_raise st ->
  (exists v,
     result (ndvi nir red st) = inr v
     /\ is_shape r c v = true
     /\ forall i j n d,
          at2 nir i j = Some n -> at2 red i j = Some d ->
          at2 v i j = Some (div (sub n d) (add n d)))
  /\ (exists x q,
        result (ndvi [[half]] [[fifth]] st) = inr [[x]]
        /\ x = div (sub half fifth) (add half fifth)
        /\ to_Q x = Some q
        /\ (42855 # 100000 < q)%Q /\ (q < 42865 # 100000)%Q).
Proof.
  intros Hn Hr Hst. split.
  - destruct (ndvi_same_shape r c nir red st Hn Hr Hst) as [E _].
    exists (zip2d ndvi_pixel nir red). split; [exact E | ].
    split; [apply is_shape_zip2d; assumption | ].
    intros i j n d En Ed. rewrite at2_zip2d, En, Ed. reflexivity.
  - destruct (ndvi_same_shape 1 1 [[half]] [[fifth]] st eq_refl eq_refl Hst)
      as [E _].
    exists (ndvi_pixel half fifth), (7720456504063708 # 18014398509481984)%Q.
    split; [exact E | ]. split; [reflexivity | ].
    split; [reflexivity | ]. split; reflexivity.
Qed.

Lemma C3_witness :
  exists x q,
    result (ndvi [[half]] [[fifth]] default_errstate) = inr [[x]]
    /\ x = div (sub half fifth) (add half fifth)
    /\ to_Q x = Some q
    /\ (42855 # 100000 < q)%Q /\ (q < 42865 # 100000)%Q.
Proof.
  exact (proj2 (C3_ndvi_formula 1 1 [[half]] [[fifth]] default_errstate
                  eq_refl eq_refl ltac:(intros [ | | | ]; discriminate))).
Defined.

(** ** The error setting is process-wide *)

Lemma check_fp_state {T} (f : fp_flags) (a : T) (st : errstate) :
  state (check_fp f a st) = st.
Proof. unfold check_fp. destruct (handle_all st f _). reflexivity. Qed.

Lemma ufunc2_state (op : f64 -> f64 -> f64) (fl : f64 -> f64 -> fp_flags)
    (a b : array2 f64) (st : errstate) :
  state (ufunc2 op fl a b st) = st.
Proof.
  unfold ufunc2. destruct (broadcast2 a b) as [[a' b'] | ];
    [apply check_fp_state | reflexivity].
Qed.

Lemma ndvi_state (nir red : array2 f64) (st : errstate) :
  state (ndvi nir red st) = st.
Proof.
  unfold ndvi, bind, np_subtract, np_add, np_true_divide.
  pose proof (ufunc2_state sub (addsub_flags sub) nir red st) as H1.
  destruct (result (ufunc2 sub (addsub_flags sub) nir red st)) as [e | d];
    cbn [state]; [exact H1 | ].
  rewrite H1.
  pose proof (ufunc2_state add (addsub_flags add) nir red st) as H2.
  destruct (result (ufunc2 add (addsub_flags add) nir red st)) as [e | q];
    cbn [state]; [exact H2 | ].
  rewrite H2. apply ufunc2_state.
Qed.

Lemma notebook_ndvi_state (nir red : array2 f64) (st : errstate) :
  state (notebook_ndvi nir red st)
  = {| es_divide := Ignore; es_over := es_over st;
       es_under := es_under st; es_invalid := Ignore |}.
Proof.
  unfold notebook_ndvi, bind. cbn [cell_seterr np_seterr result state].
  apply ndvi_state.
Qed.

Lemma handle_one_ignored (st : errstate) (f : fp_flags) (e : fp_error) :
  mode_of st e = Ignore -> handle_one st f e = (None, []).
Proof. unfold handle_one. intros ->. destruct (flag_of f e); reflexivity. Qed.

Lemma handle_one_sound (st : errstate) (f : fp_flags) (e : fp_error) :
  (forall x, fst (handle_one st f e) = Some x -> x = FloatingPointError e)
  /\ (forall rp, In rp (snd (handle_one st f e)) -> rp_error rp = e).
Proof.
  unfold handle_one.
  destruct (flag_of f e); [destruct (mode_of st e) | ]; cbn; split;
    intros ? H; try discriminate; try contradiction;
    try (destruct H as [<- | []]; reflexivity);
    congruence.
Qed.

(** With divide and invalid ignored, a ufunc call neither raises nor
    reports one of these two conditions, whatever its operands. *)
Lemma check_fp_ignored {T} (f : fp_flags) (a : T) (st : errstate) :
  es_divide st = Ignore -> es_invalid st = Ignore ->
  (forall rp, In rp (reports (check_fp f a st)) ->
     rp_error rp <> FPDivide /\ rp_error rp <> FPInvalid)
  /\ result (check_fp f a st) <> inl (FloatingPointError FPDivide)
  /\ result (check_fp f a st) <> inl (FloatingPointError FPInvalid).
Proof.
  intros Hd Hi. unfold check_fp. cbn [handle_all].
  rewrite (handle_one_ignored st f FPDivide Hd).
  rewrite (handle_one_ignored st f FPInvalid Hi).
  destruct (handle_one_sound st f FPOver) as [Ox Or].
  destruct (handle_one_sound st f FPUnder) as [Ux Ur].
  destruct (handle_one st f FPOver) as [[xo | ] ro]; cbn [fst snd] in *.
  - rewrite (Ox xo eq_refl). cbn. repeat split; try congruence;
      apply Or in H; congruence.
  - destruct (handle_one st f FPUnder) as [[xu | ] ru]; cbn [fst snd] in *.
    + rewrite (Ux xu eq_refl). cbn. repeat split; try congruence;
        rewrite ?app_nil_r, ?in_app_iff in H; destruct H as [H | H];
        [apply Or in H | apply Ur in H | apply Or in H | apply Ur in H];
        congruence.
    + cbn. repeat split; try congruence;
        rewrite ?app_nil_r, ?in_app_iff in H; destruct H as [H | H];
        [apply Or in H | apply Ur in H | apply Or in H | apply Ur in H];
        congruence.
Qed.

Lemma ufunc2_ignored (op : f64 -> f64 -> f64) (fl : f64 -> f64 -> fp_flags)
    (a b : array2 f64) (st : errstate) :
  es_divide st = Ignore -> es_invalid st = Ignore ->
  (forall rp, In rp (reports (ufunc2 op fl a b st)) ->
     rp_error rp <> FPDivide /\ rp_error rp <> FPInvalid)
  /\ result (ufunc2 op fl a b st) <> inl (FloatingPointError FPDivide)
  /\ result (ufunc2 op fl a b st) <> inl (FloatingPointError FPInvalid).
Proof.
  intros Hd Hi. unfold ufunc2.
  destruct (broadcast2 a b) as [[a' b'] | ].
  - apply check_fp_ignored; assumption.
  - cbn. repeat split; first [congruence | contradiction].
Qed.

(** C4, as the notebook has it.  [np.seterr] changes the error setting of
    the whole process and nothing restores it: after the NDVI cells, divide
    and invalid are ignored and overflow and underflow are as they were,
    so every later ufunc call, inside or outside the NDVI computation,
    neither raises nor reports a division by zero or an invalid
    operation. *)
Theorem C4_seterr_is_process_wide
    (st : errstate) (ss_nir ss_red : array2 f64) :
  let st' := state (notebook_ndvi ss_nir ss_red st) in
  es_divide st' = Ignore /\ es_invalid st' = Ignore
  /\ es_over st' = es_over st /\ es_under st' = es_under st
  /\ forall (op : f64 -> f64 -> f64) (fl : f64 -> f64 -> fp_flags)
            (a b : array2 f64),
       (forall rp, In rp (reports (ufunc2 op fl a b st')) ->
          rp_error rp <> FPDivide /\ rp_error rp <> FPInvalid)
       /\ result (ufunc2 op fl a b st') <> inl (FloatingPointError FPDivide)
       /\ result (ufunc2 op fl a b st') <> inl (FloatingPointError FPInvalid).
Proof.
  cbn zeta. rewrite notebook_ndvi_state. cbn [es_divide es_invalid es_over es_under].
  split; [reflexivity | ]. split; [reflexivity | ].
  split; [reflexivity | ]. split; [reflexivity | ].
  intros op fl a b. apply ufunc2_ignored; reflexivity.
Qed.

(** C4, as stated, fails: from numpy's default setting, the division
    [1.0 / 0.0] of a later cell gives a divide-by-zero warning before the
    NDVI cells and none after them. *)
Lemma C4_counterexample : ~ suppression_is_scoped.
Proof.
  intros H.
  destruct (H default_errstate [[one]] [[one]] [[one]] [[zero]]) as [Hst _].
  discriminate Hst.
Qed.

Example division_warns_before_seterr :
  reports (np_true_divide [[one]] [[zero]] default_errstate)
  = [{| rp_mode := Warn; rp_error := FPDivide |}].
Proof. reflexivity. Qed.

Example division_silent_after_seterr :
  reports (np_true_divide [[one]] [[zero]]
             (state (notebook_ndvi [[one]] [[one]] default_errstate)))
  = [].
Proof. reflexivity. Qed.

(** ** The forest mask *)

(** C6.  The forest mask has the shape of the categorical band and holds
    only 0 and 1.  A pixel that holds the no-data value of the raster is
    always 0, also when that value is one of the forest codes; every other
    pixel is 1 exactly when its code is one of the forest codes, and 0
    otherwise.  So a pixel is 1 exactly when its code is a forest code and
    the pixel is not no-data.  The band [[1,2,3],[4,5,1]] with forest codes
    {2,4} gives [[0,1,0],[1,0,0]], whether the raster defines no no-data
    value or one that is not a forest code. *)
Theorem C6_forest_mask
    (r c : nat) (corine_array : array2 Z) (forestcodes : gset Z)
    (nodata : option Z) :
  is_shape r c corine_array = true ->
  is_shape r c (stb.create_forest_mask corine_array forestcodes nodata) = true
  /\ (forall i j code,
        at2 corine_array i j = Some code ->
        exists v,
          at2 (stb.create_forest_mask corine_array forestcodes nodata) i j
          = Some v
          /\ (v = 0 \/ v = 1)
          /\ (nodata = Some code -> v = 0)
          /\ (nodata <> Some code -> (v = 1 <-> code ∈ forestcodes))
          /\ (v = 1 <-> code ∈ forestcodes /\ nodata <> Some code))
  /\ (forall nd : option Z,
        nd <> Some 2 -> nd <> Some 4 ->
        stb.create_forest_mask [[1; 2; 3]; [4; 5; 1]] ({[2; 4]} : gset Z) nd
        = [[0; 1; 0]; [1; 0; 0]]).
Proof.
  intros Hs. unfold stb.create_forest_mask.
  split; [rewrite is_shape_map2d; exact Hs | ].
  split.
  - intros i j code Hc. rewrite at2_map2d, Hc. cbn [option_map].
    destruct (decide (nodata = Some code)) as [Hnd | Hnd].
    + exists 0. split; [reflexivity | ]. split; [left; reflexivity | ].
      split; [reflexivity | ]. split; [contradiction | ].
      split; [discriminate | tauto].
    + destruct (decide (code ∈ forestcodes)) as [Hin | Hout].
      * exists 1. split; [reflexivity | ]. split; [right; reflexivity | ].
        split; [contradiction | ]. split; tauto.
      * exists 0. split; [reflexivity | ]. split; [left; reflexivity | ].
        split; [reflexivity | ].
        split; [intros _ | ]; (split; [discriminate | tauto]).
  - intros nd H2 H4. cbn [map2d map].
    assert (E : forall code : Z,
               (code = 2 \/ code = 4 -> nd <> Some code) ->
               (if decide (nd = Some code) then 0
                else if decide (code ∈ ({[2; 4]} : gset Z)) then 1 else 0)
               = (if decide (code = 2 \/ code = 4) then 1 else 0)).
    { intros code Hcode.
      destruct (decide (code = 2 \/ code = 4)) as [Hf | Hf].
      - rewrite decide_False by (apply Hcode, Hf).
        rewrite decide_True by set_solver. reflexivity.
      - destruct (decide (nd = Some code)); [reflexivity | ].
        rewrite decide_False by set_solver. reflexivity. }
    rewrite !E by (intros [? | ?]; first [assumption | lia]).
    reflexivity.
Qed.

Lemma C6_witness :
  at2 (stb.create_forest_mask [[255; 2; 7]] ({[2; 255]} : gset Z) (Some 255)) 0 0
  = Some 0
  /\ at2 (stb.create_forest_mask [[255; 2; 7]] ({[2; 255]} : gset Z) (Some 255)) 0 1
     = Some 1
  /\ at2 (stb.create_forest_mask [[255; 2; 7]] ({[2; 255]} : gset Z) (Some 255)) 0 2
     = Some 0.
Proof.
  destruct (C6_forest_mask 1 3 [[255; 2; 7]] ({[2; 255]} : gset Z) (Some 255)
              eq_refl) as (_ & Hpix & _).
  destruct (Hpix 0%nat 0%nat 255 eq_refl) as (v0 & E0 & _ & N0 & _).
  destruct (Hpix 0%nat 1%nat 2 eq_refl) as (v1 & E1 & _ & _ & _ & F1).
  destruct (Hpix 0%nat 2%nat 7 eq_refl) as (v2 & E2 & [Z2 | O2] & _ & _ & F2).
  - assert (H2 : 2 ∈ ({[2; 255]} : gset Z)) by set_solver.
    assert (N2 : Some 255 <> Some 2) by discriminate.
    rewrite E0, E1, E2, (N0 eq_refl), Z2, (proj2 F1 (conj H2 N2)).
    repeat split; reflexivity.
  - exfalso. destruct (proj1 F2 O2) as [Hin _].
    rewrite elem_of_union, !elem_of_singleton in Hin. lia.
Defined.

(** ** Percentages *)

Lemma round_half_even_close (n : Z) (d : positive) :
  2 * Z.abs (stb.round_half_even n d * Zpos d - n) <= Zpos d.
Proof.
  unfold stb.round_half_even.
  pose proof (Z.div_mod n (Zpos d) ltac:(lia)) as Hdm.
  pose proof (Z.mod_pos_bound n (Zpos d) ltac:(lia)) as Hr.
  destruct (2 * (n mod Zpos d) ?= Zpos d) eqn:E.
  - apply Z.compare_eq in E. destruct (Z.even (n / Zpos d)); nia.
  - rewrite Z.compare_lt_iff in E. nia.
  - rewrite Z.compare_gt_iff in E. nia.
Qed.

Lemma round_1dp_close (q : Q) : (Qabs (stb.round_1dp q - q) <= 1 # 20)%Q.
Proof.
  destruct q as [n d]. unfold stb.round_1dp. cbn [Qnum Qden].
  pose proof (round_half_even_close (10 * n) d) as H.
  unfold Qle, Qabs, Qminus, Qplus, Qopp. cbn [Qnum Qden].
  rewrite Pos2Z.inj_mul. nia.
Qed.

Lemma total_count_empty : stb.total_count ∅ = 0.
Proof. reflexivity. Qed.

Lemma total_count_insert (k : string) (count : Z) (m : gmap string Z) :
  m !! k = None ->
  stb.total_count (<[k := count]> m) = count + stb.total_count m.
Proof.
  intros Hk. unfold stb.total_count.
  apply (map_fold_insert_L (fun _ x acc => x + acc)); [ | exact Hk].
  intros. lia.
Qed.

(** C7.  The total is the sum of the counts of the record.  When it is 0,
    the empty record included, the adapter returns the empty mapping; no
    division takes place.  Otherwise every entry becomes
    100 * count / total rounded to one decimal place: a number of tenths
    within 0.05 of the exact value.  For [{"forest":80,"water":20}] the
    result is [{"forest":80.0,"water":20.0}]. *)
Theorem C7_to_percentages (zonal_record : gmap string Z) :
  (stb.total_count zonal_record = 0 -> stb.to_percentages zonal_record = ∅)
  /\ (stb.total_count zonal_record <> 0 ->
      forall label,
        stb.to_percentages zonal_record !! label
        = (fun count =>
             stb.round_1dp (100 * inject_Z count
                            / inject_Z (stb.total_count zonal_record))%Q)
            <$> zonal_record !! label)
  /\ (forall q, (Qabs (stb.round_1dp q - q) <= 1 # 20)%Q
                /\ exists tenths, stb.round_1dp q = tenths # 10)
  /\ stb.total_count ∅ = 0
  /\ (forall k count m, m !! k = None ->
        stb.total_count (<[k := count]> m) = count + stb.total_count m)
  /\ stb.to_percentages ∅ = ∅
  /\ stb.to_percentages (<["forest" := 80]> (<["water" := 20]> ∅))
     = <["forest" := 800 # 10]> (<["water" := 200 # 10]> ∅).
Proof.
  split; [ | split; [ | split; [ | split; [ | split; [ | split]]]]].
  - intros H0. unfold stb.to_percentages. rewrite H0. reflexivity.
  - intros Hne label. unfold stb.to_percentages.
    destruct (decide (stb.total_count zonal_record = 0)) as [E | _];
      [contradiction | ].
    apply lookup_fmap.
  - intros q. split; [apply round_1dp_close | ].
    eexists. reflexivity.
  - apply total_count_empty.
  - apply total_count_insert.
  - reflexivity.
  - vm_compute. reflexivity.
Qed.

(** ** The category map *)

Section CategoryMapFacts.
Context {row : Type}.
Variable parse_row : row -> option (Z * string).

(** A code that is already in the map makes a later row with that code
    fail. *)
Lemma build_from_present (rows : list row) :
  forall (acc : gmap Z string) (j : nat) (r : row) (code : Z) (label : string),
    rows !! j = Some r -> parse_row r = Some (code, label) ->
    is_Some (acc !! code) ->
    exists c, stb.built (stb.build_from parse_row rows acc) = inl (stb.DuplicateCategoryError c).
Proof.
  induction rows as [ | r0 rows IH]; intros acc j r code label Hj Hp Hacc.
  - discriminate.
  - cbn [stb.build_from]. destruct j as [ | j]; cbn in Hj.
    + injection Hj as ->. rewrite Hp.
      destruct Hacc as [l Hl]. rewrite Hl. eexists. reflexivity.
    + destruct (parse_row r0) as [[c0 l0] | ] eqn:E0; cbn [stb.built].
      * destruct (acc !! c0) as [l | ] eqn:Hc0; [eexists; reflexivity | ].
        apply (IH _ j r code label Hj Hp).
        destruct (decide (c0 = code)) as [-> | Hne].
        -- rewrite lookup_insert_eq. eauto.
        -- rewrite lookup_insert_ne by assumption. exact Hacc.
      * apply (IH _ j r code label Hj Hp Hacc).
Qed.

Lemma build_from_duplicate (rows : list row) :
  forall (acc : gmap Z string) (i j : nat) (ri rj : row)
         (code : Z) (li lj : string),
    (i < j)%nat ->
    rows !! i = Some ri -> rows !! j = Some rj ->
    parse_row ri = Some (code, li) -> parse_row rj = Some (code, lj) ->
    exists c, stb.built (stb.build_from parse_row rows acc) = inl (stb.DuplicateCategoryError c).
Proof.
  induction rows as [ | r0 rows IH]; intros acc i j ri rj code li lj Hij Hi Hj Pi Pj.
  - discriminate.
  - cbn [stb.build_from]. destruct j as [ | j]; [lia | ]. cbn in Hj.
    destruct i as [ | i]; cbn in Hi.
    + injection Hi as ->. rewrite Pi.
      destruct (acc !! code) as [l | ] eqn:Hc; [eexists; reflexivity | ].
      apply (build_from_present rows _ j rj code lj Hj Pj).
      rewrite lookup_insert_eq. eauto.
    + destruct (parse_row r0) as [[c0 l0] | ] eqn:E0; cbn [stb.built].
      * destruct (acc !! c0) as [l | ] eqn:Hc0; [eexists; reflexivity | ].
        apply (IH _ i j ri rj code li lj); (lia || assumption).
      * apply (IH _ i j ri rj code li lj); (lia || assumption).
Qed.

(** An unparsable row changes neither the map nor the error. *)
Lemma build_from_skip (pre : list row) :
  forall (acc : gmap Z string) (r : row) (post : list row),
    parse_row r = None ->
    stb.built (stb.build_from parse_row (pre ++ r :: post) acc)
    = stb.built (stb.build_from parse_row (pre ++ post) acc).
Proof.
  induction pre as [ | r0 pre IH]; intros acc r post Hr; cbn [app stb.build_from].
  - rewrite Hr. reflexivity.
  - destruct (parse_row r0) as [[c0 l0] | ]; cbn [stb.built].
    + destruct (acc !! c0); [reflexivity | apply IH, Hr].
    + apply IH, Hr.
Qed.

(** When the map is built, the rows reported as skipped are the
    unparsable rows of the table. *)
Lemma build_from_skipped (rows : list row) :
  forall (acc m : gmap Z string),
    stb.built (stb.build_from parse_row rows acc) = inr m ->
    stb.skipped (stb.build_from parse_row rows acc) = List.filter (unparsable parse_row) rows.
Proof.
  induction rows as [ | r0 rows IH]; intros acc m Hm; cbn [stb.build_from List.filter].
  - reflexivity.
  - cbn [stb.build_from] in Hm. unfold unparsable at 1.
    destruct (parse_row r0) as [[c0 l0] | ]; cbn [stb.built stb.skipped] in *.
    + destruct (acc !! c0); [discriminate | ]. apply (IH _ m Hm).
    + f_equal. apply (IH _ m Hm).
Qed.

(** A table in which no code is repeated builds: every parsable row is in
    the map, and nothing else is added to it. *)
Lemma build_from_nodup (rows : list row) :
  forall (acc : gmap Z string),
    NoDup (omap parse_row rows).*1 ->
    (forall code, code ∈ (omap parse_row rows).*1 -> acc !! code = None) ->
    exists m,
      stb.built (stb.build_from parse_row rows acc) = inr m
      /\ forall code label,
           m !! code = Some label
           <-> acc !! code = Some label \/ (code, label) ∈ omap parse_row rows.
Proof.
  induction rows as [ | r0 rows IH]; intros acc Hnd Hfresh; cbn [stb.build_from].
  - exists acc. split; [reflexivity | ]. intros code label. cbn [omap list_omap].
    rewrite elem_of_nil. tauto.
  - cbn [omap list_omap] in *.
    destruct (parse_row r0) as [[c0 l0] | ] eqn:E0; cbn [stb.built].
    + cbn [fmap list_fmap] in Hnd, Hfresh. apply NoDup_cons in Hnd as [Hc0 Hnd].
      rewrite (Hfresh c0) by (apply elem_of_cons; left; reflexivity).
      destruct (IH (<[c0 := l0]> acc) Hnd) as (m & Em & Hm).
      { intros code Hcode. rewrite lookup_insert_ne by (intros ->; contradiction).
        apply Hfresh, elem_of_cons. right. exact Hcode. }
      exists m. split; [exact Em | ]. intros code label.
      rewrite Hm, elem_of_cons.
      destruct (decide (code = c0)) as [-> | Hne].
      * rewrite lookup_insert_eq.
        rewrite (Hfresh c0) by (apply elem_of_cons; left; reflexivity).
        split.
        -- intros [H | H]; [injection H as ->; right; left; reflexivity | tauto].
        -- intros [H | [H | H]]; [discriminate | | tauto].
           injection H as ->. left. reflexivity.
      * rewrite lookup_insert_ne by congruence.
        split; [tauto | ]. intros [H | [H | H]]; [tauto | congruence | tauto].
    + apply IH; assumption.
Qed.

End CategoryMapFacts.

(** C9.  A lookup table in which two rows carry the same code with
    different labels makes the construction of the category map fail with
    a DuplicateCategoryError.  A table in which no code is repeated builds:
    the map holds exactly the codes and labels of the rows that can be
    parsed, and the rows that cannot are the ones skipped and reported, in
    the order of the table.  A row that cannot be parsed is never fatal:
    the outcome, map or error, is the outcome of the table without that
    row.  A table with two rows keyed 7 and labelled differently fails;
    the same table with the second row keyed 8 builds the map of 7 and 8
    and reports the heading and the blank row. *)
Theorem C9_duplicate_code_raises
    {row : Type} (parse_row : row -> option (Z * string))
    (lookup_table : list row) :
  (forall i j ri rj code li lj,
      i <> j ->
      lookup_table !! i = Some ri -> lookup_table !! j = Some rj ->
      parse_row ri = Some (code, li) -> parse_row rj = Some (code, lj) ->
      li <> lj ->
      exists c,
        stb.built (stb.build_category_map parse_row lookup_table)
        = inl (stb.DuplicateCategoryError c))
  /\ (NoDup (omap parse_row lookup_table).*1 ->
      exists m,
        stb.built (stb.build_category_map parse_row lookup_table) = inr m
        /\ (forall code label,
              m !! code = Some label
              <-> (code, label) ∈ omap parse_row lookup_table)
        /\ stb.skipped (stb.build_category_map parse_row lookup_table)
           = List.filter (unparsable parse_row) lookup_table)
  /\ (forall pre r post,
        lookup_table = pre ++ r :: post -> parse_row r = None ->
        stb.built (stb.build_category_map parse_row lookup_table)
        = stb.built (stb.build_category_map parse_row (pre ++ post)))
  /\ (forall m,
        stb.built (stb.build_category_map parse_row lookup_table) = inr m ->
        stb.skipped (stb.build_category_map parse_row lookup_table)
        = List.filter (unparsable parse_row) lookup_table)
  /\ stb.built (stb.build_category_map parse_cells
                  [("Code", "Description"); ("7", "Mixed forest");
                   ("", ""); ("7", "Sea and ocean")])
     = inl (stb.DuplicateCategoryError 7)
  /\ stb.built (stb.build_category_map parse_cells
                  [("Code", "Description"); ("7", "Mixed forest");
                   ("", ""); ("8", "Sea and ocean")])
     = inr (<[8 := "Sea and ocean"]> (<[7 := "Mixed forest"]> ∅))
  /\ stb.skipped (stb.build_category_map parse_cells
                    [("Code", "Description"); ("7", "Mixed forest");
                     ("", ""); ("8", "Sea and ocean")])
     = [("Code", "Description"); ("", "")].
Proof.
  unfold stb.build_category_map.
  split; [ | split; [ | split; [ | split; [ | split; [ | split]]]]].
  - intros i j ri rj code li lj Hij Hi Hj Pi Pj _.
    destruct (Nat.lt_total i j) as [Hlt | [Heq | Hgt]]; [ | contradiction | ].
    + exact (build_from_duplicate parse_row lookup_table ∅ i j ri rj code li lj
               Hlt Hi Hj Pi Pj).
    + exact (build_from_duplicate parse_row lookup_table ∅ j i rj ri code lj li
               Hgt Hj Hi Pj Pi).
  - intros Hnd.
    destruct (build_from_nodup parse_row lookup_table ∅ Hnd) as (m & Em & Hm).
    { intros code _. apply lookup_empty. }
    exists m. split; [exact Em | ]. split.
    + intros code label. rewrite Hm, lookup_empty.
      split; [intros [H | H]; [discriminate | exact H] | tauto].
    + exact (build_from_skipped parse_row lookup_table ∅ m Em).
  - intros pre r post -> Hr. apply build_from_skip, Hr.
  - intros m Hm. exact (build_from_skipped parse_row lookup_table ∅ m Hm).
  - reflexivity.
  - reflexivity.
  - reflexivity.
Qed.

Lemma C9_witness :
  (exists c,
     stb.built (stb.build_category_map parse_cells
                  [("7", "Mixed forest"); ("x", "y"); ("7", "Sea and ocean")])
     = inl (stb.DuplicateCategoryError c))
  /\ (exists m,
        stb.built (stb.build_category_map parse_cells
                     [("7", "Mixed forest"); ("x", "y"); ("8", "Sea and ocean")])
        = inr m
        /\ (forall code label,
              m !! code = Some label
              <-> (code, label)
                  ∈ omap parse_cells
                      [("7", "Mixed forest"); ("x", "y"); ("8", "Sea and ocean")])
        /\ stb.skipped (stb.build_category_map parse_cells
                          [("7", "Mixed forest"); ("x", "y");
                           ("8", "Sea and ocean")])
           = List.filter (unparsable parse_cells)
               [("7", "Mixed forest"); ("x", "y"); ("8", "Sea and ocean")]).
Proof.
  split.
  - destruct (C9_duplicate_code_raises parse_cells
                [("7", "Mixed forest"); ("x", "y"); ("7", "Sea and ocean")])
      as (Hdup & _).
    exact (Hdup 0%nat 2%nat ("7", "Mixed forest") ("7", "Sea and ocean") 7
             "Mixed forest" "Sea and ocean"
             ltac:(discriminate) eq_refl eq_refl eq_refl eq_refl
             ltac:(discriminate)).
  - destruct (C9_duplicate_code_raises parse_cells
                [("7", "Mixed forest"); ("x", "y"); ("8", "Sea and ocean")])
      as (_ & Hok & _).
    apply Hok.
    change (NoDup [7; 8]).
    apply NoDup_cons. split; [ | apply NoDup_singleton].
    rewrite list_elem_of_singleton. discriminate.
Defined.

(** ** More on binary64 rounding: results that stay finite *)

Section Finite.

Lemma digits_le_of_lt (m k : Z) : 0 < m < 2 ^ k -> Zdigits2 m <= k.
Proof.
  intros [Hm Hk]. destruct m as [ | p | p]; try lia. cbn [Zdigits2].
  pose proof (digits2_pos_bounds p) as [Hlo _].
  destruct (Z.le_gt_cases (Zpos (digits2_pos p)) k) as [ | Hgt]; [assumption | ].
  assert (2 ^ k <= 2 ^ (Zpos (digits2_pos p) - 1))
    by (apply Z.pow_le_mono_r; lia).
  lia.
Qed.

Lemma shr_fexp_value (m e : Z) (l : location) :
  0 < m -> -1074 <= e ->
  snd (shr_fexp prec emax m e l) = Z.max e (fexp prec emax (Zdigits2 m + e))
  /\ shr_m (fst (shr_fexp prec emax m e l))
     = m / 2 ^ (snd (shr_fexp prec emax m e l) - e).
Proof.
  intros Hm He. unfold shr_fexp, shr. rewrite fexp_eq.
  destruct (Z.max (Zdigits2 m + e - 53) (-1074) - e) as [ | q | q] eqn:E;
    cbn [fst snd].
  - rewrite shr_record_of_loc_m, Z.sub_diag, Z.div_1_r. split; lia.
  - rewrite shr_iter_m by (rewrite shr_record_of_loc_m; lia).
    rewrite shr_record_of_loc_m. split; [lia | ]. do 2 f_equal. lia.
  - rewrite shr_record_of_loc_m, Z.sub_diag, Z.div_1_r. split; lia.
Qed.

Lemma round_nearest_even_le (m : Z) (l : location) :
  round_nearest_even m l <= m + 1.
Proof.
  destruct l as [ | [ | | ]]; cbn [round_nearest_even];
    try destruct (Z.even m); lia.
Qed.

(** Rounding a positive mantissa whose value lies below 2^B, with B at
    most 1023, gives a finite number. *)
Lemma binary_round_aux_finite (s : bool) (m e : Z) (l : location) (B : Z) :
  0 < m < 2 ^ (B - e) -> -1074 <= e <= 971 -> B <= 1023 ->
  exists m' e', binary_round_aux prec emax s m e l = S754_finite s m' e'.
Proof.
  intros [Hm Hlt] He HB. unfold binary_round_aux.
  pose proof (digits_le_of_lt m (B - e) (conj Hm Hlt)) as HD.
  assert (HD1 : 1 <= Zdigits2 m) by (destruct m; cbn; lia).
  pose proof (shr_fexp_pos m e l Hm ltac:(lia)) as [P1 _].
  pose proof (shr_fexp_value m e l Hm ltac:(lia)) as [E1 V1].
  destruct (shr_fexp prec emax m e l) as [r1 e1]; cbn [fst snd] in *.
  rewrite fexp_eq in E1.
  assert (Hb1 : shr_m r1 < 2 ^ (B - e1)).
  { rewrite V1. apply Z.div_lt_upper_bound; [apply Z.pow_pos_nonneg; lia | ].
    rewrite <- Z.pow_add_r by lia. replace (e1 - e + (B - e1)) with (B - e) by lia.
    exact Hlt. }
  pose proof (round_nearest_even_ge (shr_m r1) (loc_of_shr_record r1)) as G.
  pose proof (round_nearest_even_le (shr_m r1) (loc_of_shr_record r1)) as L.
  set (m1 := round_nearest_even (shr_m r1) (loc_of_shr_record r1)) in *.
  assert (Hb2 : m1 < 2 ^ (B + 1 - e1)).
  { replace (B + 1 - e1) with (Z.succ (B - e1)) by lia.
    rewrite Z.pow_succ_r by lia.
    assert (0 < 2 ^ (B - e1)) by (apply Z.pow_pos_nonneg; lia). lia. }
  pose proof (digits_le_of_lt m1 (B + 1 - e1) ltac:(lia)) as HD2.
  pose proof (shr_fexp_pos m1 e1 loc_Exact ltac:(lia) ltac:(lia)) as [P2 _].
  pose proof (shr_fexp_value m1 e1 loc_Exact ltac:(lia) ltac:(lia)) as [E2 _].
  destruct (shr_fexp prec emax m1 e1 loc_Exact) as [r2 e2]; cbn [fst snd] in *.
  rewrite fexp_eq in E2.
  destruct (shr_m r2) as [ | q | q]; try lia.
  replace (e2 <=? emax - prec) with true; [eauto | ].
  symmetry. apply Z.leb_le. unfold emax, prec. lia.
Qed.

Lemma iter_xO_value (m d : positive) :
  Zpos (Pos.iter xO m d) = Zpos m * 2 ^ Zpos d.
Proof.
  induction d as [ | d IH] using Pos.peano_ind.
  - cbn. lia.
  - rewrite Pos.iter_succ, Pos2Z.inj_xO, IH, Pos2Z.inj_succ, Z.pow_succ_r by lia.
    ring.
Qed.

Lemma shl_align_value (m : positive) (e e' : Z) :
  Zpos (fst (shl_align m e e')) = Zpos m * 2 ^ (e - Z.min e e').
Proof.
  unfold shl_align. destruct (e' - e) as [ | d | d] eqn:E; cbn [fst].
  - replace (e - Z.min e e') with 0 by lia. lia.
  - replace (e - Z.min e e') with 0 by lia. lia.
  - rewrite iter_xO_value. do 2 f_equal. lia.
Qed.

Lemma binary_round_finite (s : bool) (m : positive) (e B : Z) :
  Zpos m < 2 ^ (B - e) -> -1074 <= e -> B <= 1023 ->
  exists m' e', binary_round prec emax s m e = S754_finite s m' e'.
Proof.
  intros Hlt He HB. unfold binary_round.
  pose proof (digits_le_of_lt (Zpos m) (B - e) ltac:(lia)) as HD.
  cbn [Zdigits2] in HD.
  pose proof (shl_align_exp m e (fexp prec emax (Zpos (digits2_pos m) + e))) as Hs.
  pose proof (shl_align_value m e (fexp prec emax (Zpos (digits2_pos m) + e))) as Hv.
  destruct (shl_align m e _) as [mz ez]; cbn [fst snd] in *.
  rewrite fexp_eq in Hs, Hv.
  apply (binary_round_aux_finite s (Zpos mz) ez loc_Exact B); try lia.
  split; [lia | ]. rewrite Hv, <- Hs.
  replace (B - ez) with ((B - e) + (e - ez)) by lia.
  rewrite Z.pow_add_r by lia.
  apply Zmult_lt_compat_r; [apply Z.pow_pos_nonneg; lia | exact Hlt].
Qed.

End Finite.

(** ** Differences and quotients of reflectances in the unit range *)

Section UnitRange.

Lemma unit_sample_finite (s : bool) (m : positive) (e : Z) :
  unit_sample (S754_finite s m e) = true ->
  s = false /\ -1074 <= e /\ Zpos m < 2 ^ (1 - e)
  /\ e = Z.max (Zpos (digits2_pos m) + e - 53) (-1074).
Proof.
  unfold unit_sample. intros H.
  apply andb_prop in H as [H Hle]. apply andb_prop in H as [H Hge].
  apply andb_prop in H as [Hv _].
  apply valid_finite in Hv as (He & Hd & Hc).
  destruct s; [discriminate | ].
  split; [reflexivity | ]. split; [lia | ]. split; [ | exact Hc].
  pose proof (digits2_pos_bounds m) as [_ Hhi].
  assert (H53 : Zpos m < 2 ^ 53).
  { eapply Z.lt_le_trans; [exact Hhi | ]. apply Z.pow_le_mono_r; lia. }
  rewrite one_eq in Hle. unfold leb, SFleb, SFcompare in Hle.
  destruct (e ?= -52) eqn:E.
  - apply Z.compare_eq in E. subst e. exact H53.
  - rewrite Z.compare_lt_iff in E.
    eapply Z.lt_le_trans; [exact H53 | ]. apply Z.pow_le_mono_r; lia.
  - discriminate.
Qed.

Lemma aligned_bound (m : positive) (e ez : Z) :
  Zpos m < 2 ^ (1 - e) -> ez <= e -> e <= 1 ->
  Zpos m * 2 ^ (e - ez) < 2 ^ (1 - ez).
Proof.
  intros Hm Hez He.
  replace (1 - ez) with ((1 - e) + (e - ez)) by lia.
  rewrite Z.pow_add_r by lia.
  apply Zmult_lt_compat_r; [apply Z.pow_pos_nonneg; lia | exact Hm].
Qed.

Lemma sub_finite_finite (mx my : positive) (ex ey : Z) :
  sub (S754_finite false mx ex) (S754_finite false my ey)
  = binary_normalize prec emax
      (Zpos mx * 2 ^ (ex - Z.min ex ey) - Zpos my * 2 ^ (ey - Z.min ex ey))
      (Z.min ex ey) false.
Proof.
  unfold sub, SFsub. cbn [cond_Zopp].
  rewrite !shl_align_value.
  replace (Z.min ex (Z.min ex ey)) with (Z.min ex ey) by lia.
  replace (Z.min ey (Z.min ex ey)) with (Z.min ex ey) by lia.
  reflexivity.
Qed.

(** The difference of two reflectances in the unit range is finite. *)
Lemma sub_unit_finite (x y : f64) :
  unit_sample x = true -> unit_sample y = true -> is_finite (sub x y) = true.
Proof.
  intros Hx Hy.
  destruct x as [sx | sx | | sx mx ex]; try discriminate;
    destruct y as [sy | sy | | sy my ey]; try discriminate.
  - destruct sx, sy; reflexivity.
  - reflexivity.
  - reflexivity.
  - apply unit_sample_finite in Hx as (-> & Hex & Hmx & _).
    apply unit_sample_finite in Hy as (-> & Hey & Hmy & _).
    assert (Zpos mx < 2 ^ (1 - ex) -> ex <= 1).
    { intros _. destruct (Z.le_gt_cases ex 1); [assumption | ].
      rewrite Z.pow_neg_r in Hmx by lia. lia. }
    assert (Zpos my < 2 ^ (1 - ey) -> ey <= 1).
    { intros _. destruct (Z.le_gt_cases ey 1); [assumption | ].
      rewrite Z.pow_neg_r in Hmy by lia. lia. }
    rewrite sub_finite_finite.
    pose proof (aligned_bound mx ex (Z.min ex ey) Hmx ltac:(lia) ltac:(lia)) as Bx.
    pose proof (aligned_bound my ey (Z.min ex ey) Hmy ltac:(lia) ltac:(lia)) as By.
    assert (0 < Zpos mx * 2 ^ (ex - Z.min ex ey))
      by (apply Z.mul_pos_pos; [lia | apply Z.pow_pos_nonneg; lia]).
    assert (0 < Zpos my * 2 ^ (ey - Z.min ex ey))
      by (apply Z.mul_pos_pos; [lia | apply Z.pow_pos_nonneg; lia]).
    destruct (Zpos mx * 2 ^ (ex - Z.min ex ey) - Zpos my * 2 ^ (ey - Z.min ex ey))
      as [ | p | p] eqn:E; cbn [binary_normalize].
    + reflexivity.
    + destruct (binary_round_finite false p (Z.min ex ey) 1) as (m' & e' & ->);
        [lia | lia | lia | reflexivity].
    + destruct (binary_round_finite true p (Z.min ex ey) 1) as (m' & e' & ->);
        [lia | lia | lia | reflexivity].
Qed.

Lemma pow2_lt_inv (a b v : Z) : 0 <= b -> 2 ^ a <= v < 2 ^ b -> a < b.
Proof.
  intros Hb [H1 H2]. destruct (Z.lt_ge_cases a b) as [ | Hge]; [assumption | ].
  assert (2 ^ b <= 2 ^ a) by (apply Z.pow_le_mono_r; lia). lia.
Qed.

(** Two binary64 numbers in canonical form with the same value are the
    same pair of mantissa and exponent. *)
Lemma canonical_unique (mx my : positive) (ex ey : Z) :
  ex = Z.max (Zpos (digits2_pos mx) + ex - 53) (-1074) ->
  ey = Z.max (Zpos (digits2_pos my) + ey - 53) (-1074) ->
  Zpos mx * 2 ^ (ex - Z.min ex ey) = Zpos my * 2 ^ (ey - Z.min ex ey) ->
  ex = ey /\ mx = my.
Proof.
  intros Cx Cy Hv.
  pose proof (digits2_pos_bounds mx) as [Lx Ux].
  pose proof (digits2_pos_bounds my) as [Ly Uy].
  assert (Hex : ex = ey).
  { destruct (Z.lt_trichotomy ex ey) as [Hlt | [Heq | Hgt]]; [ | exact Heq | ].
    - replace (ex - Z.min ex ey) with 0 in Hv by lia.
      replace (ey - Z.min ex ey) with (ey - ex) in Hv by lia.
      rewrite Z.pow_0_r, Z.mul_1_r in Hv.
      assert (P : 0 < 2 ^ (ey - ex)) by (apply Z.pow_pos_nonneg; lia).
      assert (A : 2 ^ (Zpos (digits2_pos my) - 1 + (ey - ex)) <= Zpos mx).
      { rewrite Z.pow_add_r by lia. rewrite Hv. nia. }
      assert (B : Zpos mx < 2 ^ (Zpos (digits2_pos my) + (ey - ex))).
      { rewrite Z.pow_add_r by lia. rewrite Hv. nia. }
      pose proof (pow2_lt_inv (Zpos (digits2_pos mx) - 1)
                    (Zpos (digits2_pos my) + (ey - ex)) (Zpos mx)
                    ltac:(lia) (conj Lx B)).
      pose proof (pow2_lt_inv (Zpos (digits2_pos my) - 1 + (ey - ex))
                    (Zpos (digits2_pos mx)) (Zpos mx)
                    ltac:(lia) (conj A Ux)).
      lia.
    - replace (ey - Z.min ex ey) with 0 in Hv by lia.
      replace (ex - Z.min ex ey) with (ex - ey) in Hv by lia.
      rewrite Z.pow_0_r, Z.mul_1_r in Hv.
      assert (P : 0 < 2 ^ (ex - ey)) by (apply Z.pow_pos_nonneg; lia).
      assert (A : 2 ^ (Zpos (digits2_pos mx) - 1 + (ex - ey)) <= Zpos my).
      { rewrite Z.pow_add_r by lia. rewrite <- Hv. nia. }
      assert (B : Zpos my < 2 ^ (Zpos (digits2_pos mx) + (ex - ey))).
      { rewrite Z.pow_add_r by lia. rewrite <- Hv. nia. }
      pose proof (pow2_lt_inv (Zpos (digits2_pos my) - 1)
                    (Zpos (digits2_pos mx) + (ex - ey)) (Zpos my)
                    ltac:(lia) (conj Ly B)).
      pose proof (pow2_lt_inv (Zpos (digits2_pos mx) - 1 + (ex - ey))
                    (Zpos (digits2_pos my)) (Zpos my)
                    ltac:(lia) (conj A Uy)).
      lia. }
  split; [exact Hex | ]. subst ey.
  replace (ex - Z.min ex ex) with 0 in Hv by lia.
  rewrite Z.pow_0_r, !Z.mul_1_r in Hv. congruence.
Qed.

Lemma eqb_refl_finite (s : bool) (m : positive) (e : Z) :
  eqb (S754_finite s m e) (S754_finite s m e) = true.
Proof.
  unfold eqb, SFeqb, SFcompare.
  destruct s; rewrite Z.compare_refl;
    change (Pos.compare_cont Eq m m) with (Pos.compare m m);
    rewrite Pos.compare_refl; reflexivity.
Qed.

Lemma is_zero_nonzero (s : bool) (x : f64) :
  nonzero_of_sign s x -> is_zero x = false /\ is_nan x = false.
Proof. destruct x; cbn; intros H; try contradiction; auto. Qed.

End UnitRange.

(** ** Quotients *)

Section Quotient.

Lemma shr_fexp_nonneg (m e : Z) (l : location) :
  0 <= m -> 0 <= shr_m (fst (shr_fexp prec emax m e l)).
Proof.
  intros Hm. unfold shr_fexp, shr.
  destruct (fexp prec emax (Zdigits2 m + e) - e) as [ | q | q]; cbn [fst];
    try (rewrite shr_record_of_loc_m; exact Hm).
  rewrite shr_iter_m by (rewrite shr_record_of_loc_m; exact Hm).
  rewrite shr_record_of_loc_m. apply Z.div_pos; [exact Hm | ].
  apply Z.pow_pos_nonneg; lia.
Qed.

Lemma binary_round_aux_not_nan (s : bool) (m e : Z) (l : location) :
  0 <= m -> is_nan (binary_round_aux prec emax s m e l) = false.
Proof.
  intros Hm. unfold binary_round_aux.
  pose proof (shr_fexp_nonneg m e l Hm) as H1.
  destruct (shr_fexp prec emax m e l) as [r1 e1]; cbn [fst] in H1.
  pose proof (round_nearest_even_ge (shr_m r1) (loc_of_shr_record r1)) as G.
  pose proof (shr_fexp_nonneg
                (round_nearest_even (shr_m r1) (loc_of_shr_record r1)) e1
                loc_Exact ltac:(lia)) as H2.
  destruct (shr_fexp prec emax _ e1 loc_Exact) as [r2 e2]; cbn [fst] in H2.
  destruct (shr_m r2) as [ | q | q]; try lia; try reflexivity.
  destruct (e2 <=? emax - prec); reflexivity.
Qed.

Lemma div_eucl_quotient_nonneg (a : Z) (b : positive) :
  0 <= a -> 0 <= fst (Z.div_eucl a (Zpos b)).
Proof.
  intros Ha. pose proof (Z.div_pos a (Zpos b) Ha ltac:(lia)) as H.
  unfold Z.div in H. destruct (Z.div_eucl a (Zpos b)). exact H.
Qed.

(** A finite number divided by a finite number that is not zero is a
    number. *)
Lemma div_finite_not_nan (a d : f64) :
  is_finite a = true -> is_finite d = true -> is_zero d = false ->
  is_nan (div a d) = false.
Proof.
  intros Ha Hd Hz.
  destruct d as [sd | sd | | sd md ed]; try discriminate.
  destruct a as [sa | sa | | sa ma ea]; try discriminate; [reflexivity | ].
  unfold div, SFdiv, SFdiv_core_binary.
  set (s := Zpos (digits2_pos ma) + ea - (Zpos (digits2_pos md) + ed)).
  cbn [Zdigits2]. fold s.
  set (e' := Z.min (fexp prec emax s) (ea - ed)).
  set (m' := match ea - ed - e' with
             | 0 => Zpos ma
             | Zpos _ => Z.shiftl (Zpos ma) (ea - ed - e')
             | Zneg _ => 0
             end).
  assert (Hm' : 0 <= m').
  { unfold m'. destruct (ea - ed - e') eqn:E; try lia.
    apply Z.shiftl_nonneg. lia. }
  pose proof (div_eucl_quotient_nonneg m' md Hm') as Hq.
  destruct (Z.div_eucl m' (Zpos md)) as [q r]; cbn [fst] in Hq.
  apply binary_round_aux_not_nan, Hq.
Qed.

Lemma div_self (s : bool) (m : positive) (e : Z) :
  div (S754_finite s m e) (S754_finite s m e) = one.
Proof.
  unfold div, SFdiv, SFdiv_core_binary. cbn [Zdigits2].
  rewrite !Z.sub_diag.
  change (Z.min (fexp prec emax 0) 0) with (-53).
  change (0 - -53) with 53.
  rewrite Z.shiftl_mul_pow2 by lia.
  rewrite (Z.mul_comm (Zpos m)), div_eucl_exact by lia.
  rewrite xorb_nilpotent.
  replace (new_location (Zpos m) 0) with loc_Exact
    by (unfold new_location; destruct (Z.even (Zpos m)); reflexivity).
  reflexivity.
Qed.

Lemma finite_nonzero_cases (d : f64) :
  is_finite d = true -> is_zero d = false ->
  exists s m e, d = S754_finite s m e.
Proof. destruct d; try discriminate; eauto. Qed.

Lemma div_zero_finite (a d : f64) :
  is_zero a = true -> is_finite d = true -> is_zero d = false ->
  is_zero (div a d) = true.
Proof.
  intros Ha Hd Hz. destruct (finite_nonzero_cases d Hd Hz) as (s & m & e & ->).
  destruct a; try discriminate. reflexivity.
Qed.

End Quotient.

(** ** Comparisons *)

Lemma SFcompare_some (x y : f64) :
  is_nan x = false -> is_nan y = false -> exists c, SFcompare x y = Some c.
Proof.
  destruct x, y; cbn; intros; try discriminate; eauto.
Qed.

Lemma not_ltb_leb (x y : f64) :
  is_nan x = false -> is_nan y = false -> ltb x y = false -> leb y x = true.
Proof.
  intros Hx Hy. unfold ltb, leb, SFltb, SFleb.
  rewrite (SFcompare_antisym x y).
  destruct (SFcompare_some x y Hx Hy) as [c ->]. destruct c; cbn; congruence.
Qed.

Lemma clamp_unit_range (r : f64) :
  is_nan r = false ->
  leb zero (stb.clamp_unit r) = true /\ leb (stb.clamp_unit r) one = true.
Proof.
  intros Hr. unfold stb.clamp_unit.
  destruct (ltb r zero) eqn:A; [split; reflexivity | ].
  destruct (ltb one r) eqn:B; [split; reflexivity | ].
  split; apply not_ltb_leb; auto.
Qed.

Lemma clamp_unit_zero (r : f64) :
  is_zero r = true -> eqb (stb.clamp_unit r) zero = true.
Proof. destruct r as [[ | ] | | | ]; try discriminate; reflexivity. Qed.

Lemma eqb_sym (x y : f64) : eqb x y = eqb y x.
Proof.
  unfold eqb, SFeqb. rewrite (SFcompare_antisym y x).
  destruct (SFcompare y x) as [[ | | ] | ]; reflexivity.
Qed.

(** ** The contrast stretch *)

Lemma unit_sample_not_nan (x : f64) : unit_sample x = true -> is_nan x = false.
Proof. destruct x; try discriminate; reflexivity. Qed.

Lemma unit_sample_is_finite (x : f64) : unit_sample x = true -> is_finite x = true.
Proof. destruct x; try discriminate; reflexivity. Qed.

Lemma clamp_remap_nan (lo hi : f64) : stb.clamp_unit (stb.remap lo hi nan) = nan.
Proof. reflexivity. Qed.

Lemma percentile_in (samples : list f64) (p : Q) :
  samples <> [] -> In (stb.percentile samples p) samples.
Proof.
  intros Hne. unfold stb.percentile.
  pose proof (merge_sort_Permutation stb.f64_le samples) as Hperm.
  set (sorted := merge_sort stb.f64_le samples) in *.
  apply (Permutation_in _ Hperm). apply nth_In.
  assert (length sorted = length samples) by (apply Permutation_length, Hperm).
  destruct samples; [congruence | ]. cbn [length] in *. lia.
Qed.

Lemma in_concat_at2 {T} (a : array2 T) (x : T) :
  In x (concat a) -> exists i j, at2 a i j = Some x.
Proof.
  intros H. apply in_concat in H as (row & Hrow & Hx).
  apply list_elem_of_In, list_elem_of_lookup in Hrow as [i Hi].
  apply list_elem_of_In, list_elem_of_lookup in Hx as [j Hj].
  exists i, j. unfold at2. rewrite Hi. exact Hj.
Qed.

Lemma all2d_concat {T} (p : T -> bool) (a : array2 T) :
  all2d p a = forallb p (concat a).
Proof.
  unfold all2d. induction a as [ | row a IH]; cbn; [reflexivity | ].
  rewrite forallb_app, IH. reflexivity.
Qed.

(** ** Cell 15 and cell 22 on 16-bit digital numbers *)

Lemma all_range_spec (k : nat) :
  forall lo P, all_range k lo P = true ->
    forall v, lo <= v < lo + 2 ^ Z.of_nat k -> P v = true.
Proof.
  induction k as [ | k IH]; intros lo P H v Hv.
  - cbn in *. replace v with lo by lia. exact H.
  - cbn [all_range] in H. apply andb_prop in H as [H1 H2].
    rewrite Nat2Z.inj_succ, Z.pow_succ_r in Hv by lia.
    destruct (Z.lt_ge_cases v (lo + 2 ^ Z.of_nat k)).
    + apply (IH lo P H1). lia.
    + apply (IH _ P H2). lia.
Qed.

Lemma dn_check_all : all_range 16 0 dn_check = true.
Proof. vm_compute. reflexivity. Qed.

Lemma dn_check_uint16 (v : Z) : is_uint16 v = true -> dn_check v = true.
Proof.
  unfold is_uint16. intros H. apply andb_prop in H as [H1 H2].
  apply (all_range_spec 16 0 dn_check dn_check_all). cbn. lia.
Qed.

Lemma cell15_at2 (raw : array2 Z) (i j : nat) :
  at2 (cell15 raw) i j = option_map dn_to_reflectance (at2 raw i j).
Proof.
  unfold cell15. rewrite normalize_at2. unfold astype_float64.
  rewrite at2_map2d. destruct (at2 raw i j); reflexivity.
Qed.

Lemma dn_reflectance_cases (v : Z) :
  is_uint16 v = true ->
  (v = 0 /\ dn_to_reflectance v = nan)
  \/ (0 < v /\ valid (dn_to_reflectance v) = true
      /\ positive_finite (dn_to_reflectance v) = true
      /\ (v < 10000 -> ltb (dn_to_reflectance v) one = true)
      /\ (10000 < v -> ltb one (dn_to_reflectance v) = true)
      /\ (v + 1 < 65536 ->
          ltb (dn_to_reflectance v) (dn_to_reflectance (v + 1)) = true)).
Proof.
  intros Hu. pose proof (dn_check_uint16 v Hu) as H.
  unfold is_uint16 in Hu. apply andb_prop in Hu as [H0 H1].
  apply Z.leb_le in H0. apply Z.ltb_lt in H1.
  unfold dn_check in H. destruct (v =? 0) eqn:E.
  - apply Z.eqb_eq in E. left. split; [exact E | ].
    destruct (dn_to_reflectance v); try discriminate. reflexivity.
  - apply Z.eqb_neq in E. right. split; [lia | ].
    apply andb_prop in H as [H Hs]. apply andb_prop in H as [H Hgt].
    apply andb_prop in H as [H Hlt]. apply andb_prop in H as [Hv Hp].
    repeat split; try assumption.
    + intros L. apply Z.ltb_lt in L. rewrite L in Hlt. exact Hlt.
    + intros L. apply Z.ltb_lt in L. rewrite L in Hgt. exact Hgt.
    + intros L. apply Z.ltb_lt in L. rewrite L in Hs. exact Hs.
Qed.

Lemma dn_ten_thousand : dn_to_reflectance 10000 = one.
Proof. reflexivity. Qed.

Lemma positive_finite_reflectance (x : f64) :
  valid x = true -> positive_finite x = true -> reflectance_sample x = true.
Proof.
  intros Hv Hp. unfold reflectance_sample. rewrite Hv.
  destruct x as [ | | | [ | ] m e]; try discriminate. reflexivity.
Qed.

Lemma cell15_mask_exact (raw : array2 Z) :
  all2d is_uint16 raw = true ->
  reflectance_array (cell15 raw) = true
  /\ forall i j v,
       at2 raw i j = Some v ->
       exists x,
         at2 (cell15 raw) i j = Some x
         /\ (is_nan x = true <-> v = 0)
         /\ (v <> 0 -> is_finite x = true /\ ltb zero x = true).
Proof.
  intros Hraw. split.
  - unfold reflectance_array, cell15, normalize, mask_zero, true_divide_scalar,
      astype_float64. rewrite !map2d_map2d.
    unfold all2d, map2d in *. rewrite forallb_forall in Hraw.
    apply forallb_forall. intros row Hrow.
    apply in_map_iff in Hrow as (row0 & <- & Hrow0).
    specialize (Hraw row0 Hrow0). rewrite forallb_forall in Hraw.
    apply forallb_forall. intros x Hx.
    apply in_map_iff in Hx as (v & <- & Hv).
    specialize (Hraw v Hv).
    change (reflectance_sample (dn_to_reflectance v) = true).
    destruct (dn_reflectance_cases v Hraw) as [[_ ->] | (_ & Hval & Hp & _)];
      [reflexivity | ].
    apply positive_finite_reflectance; assumption.
  - intros i j v Hv. exists (dn_to_reflectance v).
    rewrite cell15_at2, Hv. split; [reflexivity | ].
    pose proof (all2d_at2 _ raw i j v Hraw Hv) as Hu.
    destruct (dn_reflectance_cases v Hu) as [[-> ->] | (Hpos & Hval & Hp & _)].
    + split; [split; auto | ]. congruence.
    + destruct (dn_to_reflectance v) as [ | | | [ | ] m e]; try discriminate.
      split; [split; [discriminate | lia] | ]. intros _. split; reflexivity.
Qed.

(** X1.  Cell 15 on a band of unsigned 16-bit digital numbers: the result
    is a reflectance array, a pixel is no-data (NaN) exactly when its
    digital number is 0, and every other pixel is a finite number above
    zero. *)
Theorem X1_normalization_masks_exactly_zeros (raw : array2 Z) :
  all2d is_uint16 raw = true ->
  reflectance_array (cell15 raw) = true
  /\ forall i j v,
       at2 raw i j = Some v ->
       exists x,
         at2 (cell15 raw) i j = Some x
         /\ (is_nan x = true <-> v = 0)
         /\ (v <> 0 -> is_finite x = true /\ ltb zero x = true).
Proof. exact (cell15_mask_exact raw). Qed.

Lemma X1_witness :
  reflectance_array (cell15 [[0; 5000]; [10000; 20000]]) = true
  /\ forall i j v,
       at2 [[0; 5000]; [10000; 20000]] i j = Some v ->
       exists x,
         at2 (cell15 [[0; 5000]; [10000; 20000]]) i j = Some x
         /\ (is_nan x = true <-> v = 0)
         /\ (v <> 0 -> is_finite x = true /\ ltb zero x = true).
Proof.
  exact (X1_normalization_masks_exactly_zeros [[0; 5000]; [10000; 20000]] eq_refl).
Defined.

Lemma ltb_positive_finite (m1 m2 : positive) (e1 e2 : Z) :
  ltb (S754_finite false m1 e1) (S754_finite false m2 e2) = true
  <-> e1 < e2 \/ (e1 = e2 /\ (m1 < m2)%positive).
Proof.
  unfold ltb, SFltb, SFcompare.
  change (Pos.compare_cont Eq m1 m2) with (Pos.compare m1 m2).
  destruct (Z.compare_spec e1 e2); [destruct (Pos.compare_spec m1 m2) | | ];
    split; intros H'; try discriminate; try reflexivity; try lia.
Qed.

Lemma ltb_trans_positive (x y z : f64) :
  positive_finite x = true -> positive_finite y = true ->
  positive_finite z = true ->
  ltb x y = true -> ltb y z = true -> ltb x z = true.
Proof.
  destruct x as [ | | | [ | ] mx ex]; try discriminate.
  destruct y as [ | | | [ | ] my ey]; try discriminate.
  destruct z as [ | | | [ | ] mz ez]; try discriminate.
  intros _ _ _. rewrite !ltb_positive_finite. lia.
Qed.

Lemma ltb_asym (x y : f64) : ltb x y = true -> ltb y x = false.
Proof.
  unfold ltb, SFltb. rewrite (SFcompare_antisym x y).
  destruct (SFcompare x y) as [[ | | ] | ]; cbn; congruence.
Qed.

Lemma ltb_leb (x y : f64) : ltb x y = true -> leb x y = true.
Proof.
  unfold ltb, leb, SFltb, SFleb.
  destruct (SFcompare x y) as [[ | | ] | ]; congruence.
Qed.

Lemma ltb_irrefl (x : f64) : ltb x x = false.
Proof.
  destruct (ltb x x) eqn:E; [ | reflexivity].
  pose proof (ltb_asym x x E). congruence.
Qed.

(** The reflectance is strictly increasing in the digital number. *)
Lemma dn_monotone (n : nat) :
  forall v,
    0 < v -> v + 1 + Z.of_nat n < 65536 ->
    ltb (dn_to_reflectance v) (dn_to_reflectance (v + 1 + Z.of_nat n)) = true.
Proof.
  assert (Hu : forall u, 0 <= u < 65536 -> is_uint16 u = true).
  { intros u Hu. unfold is_uint16. apply andb_true_intro.
    split; [apply Z.leb_le | apply Z.ltb_lt]; lia. }
  induction n as [ | n IH]; intros v Hv Hw.
  - rewrite Z.add_0_r.
    destruct (dn_reflectance_cases v (Hu v ltac:(lia)))
      as [[E _] | (_ & _ & _ & _ & _ & Hs)]; [lia | ].
    apply Hs. lia.
  - rewrite Nat2Z.inj_succ in *.
    replace (v + 1 + Z.succ (Z.of_nat n)) with ((v + 1 + Z.of_nat n) + 1) by lia.
    destruct (dn_reflectance_cases v (Hu v ltac:(lia)))
      as [[E _] | (_ & _ & Pv & _)]; [lia | ].
    destruct (dn_reflectance_cases (v + 1 + Z.of_nat n)
                (Hu (v + 1 + Z.of_nat n) ltac:(lia)))
      as [[E _] | (_ & _ & Pm & _ & _ & Hs)]; [lia | ].
    destruct (dn_reflectance_cases (v + 1 + Z.of_nat n + 1)
                (Hu (v + 1 + Z.of_nat n + 1) ltac:(lia)))
      as [[E _] | (_ & _ & Pw & _)]; [lia | ].
    apply (ltb_trans_positive _ (dn_to_reflectance (v + 1 + Z.of_nat n)));
      try assumption.
    + apply IH; lia.
    + apply Hs. lia.
Qed.

Lemma dn_lt (v w : Z) :
  is_uint16 v = true -> is_uint16 w = true -> 0 < v -> v < w ->
  ltb (dn_to_reflectance v) (dn_to_reflectance w) = true.
Proof.
  intros Hv Hw H0 Hlt. unfold is_uint16 in Hw.
  apply andb_prop in Hw as [_ Hw]. apply Z.ltb_lt in Hw.
  replace w with (v + 1 + Z.of_nat (Z.to_nat (w - v - 1))) by lia.
  apply dn_monotone; lia.
Qed.

(** X2.  Cell 15 keeps the order of the digital numbers: for two non-zero
    unsigned 16-bit samples of a band, the reflectance of the first is below
    the reflectance of the second exactly when its digital number is, and the
    two reflectances are equal only for equal digital numbers (the division
    by 10000 merges no two values). *)
Theorem X2_normalization_keeps_order (raw : array2 Z) :
  all2d is_uint16 raw = true ->
  forall i j i' j' v w,
    at2 raw i j = Some v -> at2 raw i' j' = Some w ->
    v <> 0 -> w <> 0 ->
    exists x y,
      at2 (cell15 raw) i j = Some x /\ at2 (cell15 raw) i' j' = Some y
      /\ (ltb x y = true <-> v < w)
      /\ (x = y <-> v = w).
Proof.
  intros Hraw i j i' j' v w Hv Hw Nv Nw.
  pose proof (all2d_at2 _ raw i j v Hraw Hv) as Uv.
  pose proof (all2d_at2 _ raw i' j' w Hraw Hw) as Uw.
  assert (Pv : 0 < v).
  { unfold is_uint16 in Uv. apply andb_prop in Uv as [Uv _].
    apply Z.leb_le in Uv. lia. }
  assert (Pw : 0 < w).
  { unfold is_uint16 in Uw. apply andb_prop in Uw as [Uw _].
    apply Z.leb_le in Uw. lia. }
  exists (dn_to_reflectance v), (dn_to_reflectance w).
  rewrite !cell15_at2, Hv, Hw. split; [reflexivity | ]. split; [reflexivity | ].
  assert (Hlt : forall a b, is_uint16 a = true -> is_uint16 b = true ->
                  0 < a -> 0 < b ->
                  ltb (dn_to_reflectance a) (dn_to_reflectance b) = true -> a < b).
  { intros a b Ua Ub Pa Pb L.
    destruct (Z.lt_trichotomy a b) as [ | [-> | Hgt]]; [assumption | | ].
    - rewrite ltb_irrefl in L. discriminate.
    - pose proof (dn_lt b a Ub Ua Pb Hgt) as L'.
      apply ltb_asym in L'. congruence. }
  split; [split | split].
  - apply Hlt; assumption.
  - apply dn_lt; assumption.
  - intros E. destruct (Z.lt_trichotomy v w) as [L | [ | L]]; [ | assumption | ].
    + pose proof (dn_lt v w Uv Uw Pv L) as L'. rewrite E, ltb_irrefl in L'.
      discriminate.
    + pose proof (dn_lt w v Uw Uv Pw L) as L'. rewrite E, ltb_irrefl in L'.
      discriminate.
  - intros ->. reflexivity.
Qed.

Lemma dn_clamped_cases (v : Z) :
  is_uint16 v = true ->
  masked_unit_sample (dn_to_clamped v) = true
  /\ (is_nan (dn_to_clamped v) = true <-> v = 0)
  /\ (dn_to_clamped v = one <-> 10000 <= v)
  /\ (v <= 10000 -> dn_to_clamped v = dn_to_reflectance v).
Proof.
  intros Hu. unfold dn_to_clamped, clamp_sample.
  destruct (dn_reflectance_cases v Hu) as [[-> ->] | (Hpos & Hval & Hp & Hlt & Hgt & _)].
  - cbn. repeat split; try reflexivity; try discriminate; lia.
  - destruct (Z.lt_trichotomy v 10000) as [L | [-> | L]].
    + specialize (Hlt L). rewrite (ltb_asym _ _ Hlt).
      assert (Hne : dn_to_reflectance v <> one).
      { intros E. rewrite E, ltb_irrefl in Hlt. discriminate. }
      split; [ | split; [ | split]].
      * unfold masked_unit_sample. rewrite Hval, (ltb_leb _ _ Hlt).
        destruct (dn_to_reflectance v) as [ | | | [ | ] m e]; try discriminate.
        reflexivity.
      * destruct (dn_to_reflectance v); try discriminate.
        split; [discriminate | lia].
      * split; [contradiction | lia].
      * reflexivity.
    + rewrite dn_ten_thousand. cbn. repeat split; try reflexivity;
        try discriminate; lia.
    + rewrite (Hgt L). repeat split; try reflexivity; try discriminate; lia.
Qed.

Lemma cell22_cell15_at2 (raw : array2 Z) (i j : nat) :
  at2 (cell22 (cell15 raw)) i j = option_map dn_to_clamped (at2 raw i j).
Proof.
  unfold cell22. rewrite at2_map2d, cell15_at2.
  destruct (at2 raw i j); reflexivity.
Qed.

Lemma cell22_after_cell15 (raw : array2 Z) :
  all2d is_uint16 raw = true ->
  all2d masked_unit_sample (cell22 (cell15 raw)) = true
  /\ forall i j v,
       at2 raw i j = Some v ->
       exists x y,
         at2 (cell15 raw) i j = Some x
         /\ at2 (cell22 (cell15 raw)) i j = Some y
         /\ (is_nan y = true <-> v = 0)
         /\ (y = one <-> 10000 <= v)
         /\ (v <= 10000 -> y = x).
Proof.
  intros Hraw. split.
  - unfold cell22, cell15, normalize, mask_zero, true_divide_scalar,
      astype_float64. rewrite !map2d_map2d.
    unfold all2d, map2d in *. rewrite forallb_forall in Hraw.
    apply forallb_forall. intros row Hrow.
    apply in_map_iff in Hrow as (row0 & <- & Hrow0).
    specialize (Hraw row0 Hrow0). rewrite forallb_forall in Hraw.
    apply forallb_forall. intros x Hx.
    apply in_map_iff in Hx as (v & <- & Hv).
    exact (proj1 (dn_clamped_cases v (Hraw v Hv))).
  - intros i j v Hv.
    pose proof (all2d_at2 _ raw i j v Hraw Hv) as Hu.
    exists (dn_to_reflectance v), (dn_to_clamped v).
    rewrite cell22_cell15_at2, cell15_at2, Hv.
    split; [reflexivity | ]. split; [reflexivity | ].
    exact (proj2 (dn_clamped_cases v Hu)).
Qed.

Lemma X2_witness :
  exists x y,
    at2 (cell15 [[0; 5000]; [10000; 20000]]) 0 1 = Some x
    /\ at2 (cell15 [[0; 5000]; [10000; 20000]]) 1 0 = Some y
    /\ (ltb x y = true <-> 5000 < 10000)
    /\ (x = y <-> 5000 = 10000).
Proof.
  exact (X2_normalization_keeps_order [[0; 5000]; [10000; 20000]] eq_refl
           0%nat 1%nat 1%nat 0%nat 5000 10000 eq_refl eq_refl
           ltac:(lia) ltac:(lia)).
Defined.

(** X3.  Cell 22 after cell 15 on a band of unsigned 16-bit digital
    numbers: every sample is no-data or above zero and at most one; a pixel
    is no-data exactly when its digital number is 0, it is 1.0 exactly when
    its digital number is at least 10000, and up to 10000 the clamp leaves
    the reflectance as it was. *)
Theorem X3_clamp_after_normalization (raw : array2 Z) :
  all2d is_uint16 raw = true ->
  all2d masked_unit_sample (cell22 (cell15 raw)) = true
  /\ forall i j v,
       at2 raw i j = Some v ->
       exists x y,
         at2 (cell15 raw) i j = Some x
         /\ at2 (cell22 (cell15 raw)) i j = Some y
         /\ (is_nan y = true <-> v = 0)
         /\ (y = one <-> 10000 <= v)
         /\ (v <= 10000 -> y = x).
Proof. exact (cell22_after_cell15 raw). Qed.

Lemma X3_witness :
  all2d masked_unit_sample (cell22 (cell15 [[0; 5000]; [10000; 20000]])) = true
  /\ forall i j v,
       at2 [[0; 5000]; [10000; 20000]] i j = Some v ->
       exists x y,
         at2 (cell15 [[0; 5000]; [10000; 20000]]) i j = Some x
         /\ at2 (cell22 (cell15 [[0; 5000]; [10000; 20000]])) i j = Some y
         /\ (is_nan y = true <-> v = 0)
         /\ (y = one <-> 10000 <= v)
         /\ (v <= 10000 -> y = x).
Proof.
  exact (X3_clamp_after_normalization [[0; 5000]; [10000; 20000]] eq_refl).
Defined.

(** ** Symmetries of the NDVI *)

Lemma add_comm (x y : f64) : add x y = add y x.
Proof.
  destruct x as [[ | ] | [ | ] | | sx mx ex], y as [[ | ] | [ | ] | | sy my ey];
    try reflexivity.
  unfold add, SFadd. rewrite (Z.min_comm ey ex), Z.add_comm. reflexivity.
Qed.

Lemma binary_round_aux_opp (s : bool) (m e : Z) (l : location) :
  binary_round_aux prec emax (negb s) m e l
  = SFopp (binary_round_aux prec emax s m e l).
Proof.
  unfold binary_round_aux.
  destruct (shr_fexp prec emax m e l) as [r1 e1].
  destruct (shr_fexp prec emax _ e1 loc_Exact) as [r2 e2].
  destruct (shr_m r2); try reflexivity.
  destruct (e2 <=? emax - prec); reflexivity.
Qed.

Lemma binary_round_opp (s : bool) (m : positive) (e : Z) :
  binary_round prec emax (negb s) m e = SFopp (binary_round prec emax s m e).
Proof.
  unfold binary_round. destruct (shl_align m e _) as [mz ez].
  apply binary_round_aux_opp.
Qed.

Lemma SFopp_involutive (x : f64) : SFopp (SFopp x) = x.
Proof. destruct x as [[ | ] | [ | ] | | [ | ] ? ?]; reflexivity. Qed.

Lemma binary_normalize_opp (m e : Z) :
  m <> 0 ->
  binary_normalize prec emax (- m) e false
  = SFopp (binary_normalize prec emax m e false).
Proof.
  destruct m as [ | p | p]; intros H; [congruence | | ].
  - change (binary_round prec emax (negb false) p e
            = SFopp (binary_round prec emax false p e)).
    apply binary_round_opp.
  - change (binary_round prec emax false p e
            = SFopp (binary_round prec emax (negb false) p e)).
    rewrite binary_round_opp, SFopp_involutive. reflexivity.
Qed.

Lemma sub_antisym (x y : f64) :
  is_zero (sub x y) = false -> sub y x = SFopp (sub x y).
Proof.
  destruct x as [[ | ] | [ | ] | | sx mx ex], y as [[ | ] | [ | ] | | sy my ey];
    try reflexivity; try discriminate;
    try (cbn; rewrite negb_involutive; reflexivity).
  unfold sub, SFsub. rewrite (Z.min_comm ey ex). intros H.
  set (X := cond_Zopp sx (Zpos (fst (shl_align mx ex (Z.min ex ey))))) in *.
  set (Y := cond_Zopp sy (Zpos (fst (shl_align my ey (Z.min ex ey))))) in *.
  replace (Y - X) with (- (X - Y)) by lia.
  apply binary_normalize_opp. intros E. rewrite E in H. discriminate.
Qed.

Lemma div_opp_l (a b : f64) : div (SFopp a) b = SFopp (div a b).
Proof.
  destruct a as [[ | ] | [ | ] | | sa ma ea], b as [[ | ] | [ | ] | | sb mb eb];
    try reflexivity; try (destruct sa; reflexivity); try (destruct sb; reflexivity);
    try (destruct sa, sb; reflexivity).
  unfold div, SFdiv. cbn [SFopp].
  destruct (SFdiv_core_binary prec emax (Zpos ma) ea (Zpos mb) eb) as [[mz ez] lz].
  replace (xorb (negb sa) sb) with (negb (xorb sa sb)) by (destruct sa, sb; reflexivity).
  apply binary_round_aux_opp.
Qed.

Lemma ndvi_pixel_swap (n r : f64) :
  is_zero (sub n r) = false -> ndvi_pixel r n = SFopp (ndvi_pixel n r).
Proof.
  intros H. unfold ndvi_pixel.
  rewrite (sub_antisym n r H), (add_comm r n). apply div_opp_l.
Qed.

Lemma ndvi_pixel_same (x : f64) :
  valid x = true -> positive_finite x = true -> ndvi_pixel x x = zero.
Proof.
  intros Hv Hp. destruct x as [ | | | [ | ] m e]; try discriminate.
  apply valid_finite in Hv as (He & _).
  unfold ndvi_pixel. rewrite sub_finite_finite, Z.sub_diag.
  cbn [binary_normalize].
  pose proof (add_pos_pos m m e e ltac:(lia) ltac:(lia)) as H.
  destruct (add (S754_finite false m e) (S754_finite false m e))
    as [ | [ | ] | | [ | ] ? ?]; cbn in H; try contradiction; try discriminate;
    reflexivity.
Qed.

Lemma masked_unit_cases (x : f64) :
  masked_unit_sample x = true ->
  x = nan \/ (unit_sample x = true /\ positive_finite x = true /\ valid x = true).
Proof.
  unfold masked_unit_sample, unit_sample. intros H.
  apply andb_prop in H as [Hv H]. rewrite Hv.
  destruct x as [[ | ] | [ | ] | | [ | ] m e]; try discriminate; auto.
Qed.

Lemma add_finite_finite (mx my : positive) (ex ey : Z) :
  add (S754_finite false mx ex) (S754_finite false my ey)
  = binary_normalize prec emax
      (Zpos mx * 2 ^ (ex - Z.min ex ey) + Zpos my * 2 ^ (ey - Z.min ex ey))
      (Z.min ex ey) false.
Proof.
  unfold add, SFadd. cbn [cond_Zopp].
  rewrite !shl_align_value.
  replace (Z.min ex (Z.min ex ey)) with (Z.min ex ey) by lia.
  replace (Z.min ey (Z.min ex ey)) with (Z.min ex ey) by lia.
  reflexivity.
Qed.

(** The sum of two positive reflectances in the unit range is a positive
    finite number. *)
Lemma add_unit_positive (x y : f64) :
  unit_sample x = true -> positive_finite x = true ->
  unit_sample y = true -> positive_finite y = true ->
  positive_finite (add x y) = true.
Proof.
  intros Ux Px Uy Py.
  destruct x as [ | | | [ | ] mx ex]; try discriminate.
  destruct y as [ | | | [ | ] my ey]; try discriminate.
  apply unit_sample_finite in Ux as (_ & Hex & Hmx & _).
  apply unit_sample_finite in Uy as (_ & Hey & Hmy & _).
  assert (ex <= 1).
  { destruct (Z.le_gt_cases ex 1); [assumption | ].
    rewrite Z.pow_neg_r in Hmx by lia. lia. }
  assert (ey <= 1).
  { destruct (Z.le_gt_cases ey 1); [assumption | ].
    rewrite Z.pow_neg_r in Hmy by lia. lia. }
  rewrite add_finite_finite.
  pose proof (aligned_bound mx ex (Z.min ex ey) Hmx ltac:(lia) ltac:(lia)) as Bx.
  pose proof (aligned_bound my ey (Z.min ex ey) Hmy ltac:(lia) ltac:(lia)) as By.
  assert (0 < Zpos mx * 2 ^ (ex - Z.min ex ey))
    by (apply Z.mul_pos_pos; [lia | apply Z.pow_pos_nonneg; lia]).
  assert (0 < Zpos my * 2 ^ (ey - Z.min ex ey))
    by (apply Z.mul_pos_pos; [lia | apply Z.pow_pos_nonneg; lia]).
  destruct (Zpos mx * 2 ^ (ex - Z.min ex ey) + Zpos my * 2 ^ (ey - Z.min ex ey))
    as [ | p | p] eqn:E; try lia. cbn [binary_normalize].
  destruct (binary_round_finite false p (Z.min ex ey) 2) as (m' & e' & ->);
    [ | lia | lia | reflexivity].
  replace (2 - Z.min ex ey) with (Z.succ (1 - Z.min ex ey)) by lia.
  rewrite Z.pow_succ_r by lia. lia.
Qed.

Lemma ndvi_pixel_nan_iff (n d : f64) :
  masked_unit_sample n = true -> masked_unit_sample d = true ->
  is_nan (ndvi_pixel n d) = is_nan n || is_nan d.
Proof.
  intros Hn Hd.
  destruct (masked_unit_cases n Hn) as [-> | (Un & Pn & _)]; [reflexivity | ].
  destruct (masked_unit_cases d Hd) as [-> | (Ud & Pd & _)].
  { destruct n; reflexivity. }
  rewrite (unit_sample_not_nan n Un), (unit_sample_not_nan d Ud).
  unfold ndvi_pixel. apply div_finite_not_nan.
  - apply sub_unit_finite; assumption.
  - pose proof (add_unit_positive n d Un Pn Ud Pd) as P.
    destruct (add n d) as [ | | | [ | ] ? ?]; try discriminate. reflexivity.
  - pose proof (add_unit_positive n d Un Pn Ud Pd) as P.
    destruct (add n d) as [ | | | [ | ] ? ?]; try discriminate. reflexivity.
Qed.

(** X4.  Exchanging the two bands negates the index: for two arrays of one
    shape and an error setting that raises nothing, both
    [(nir - red) / (nir + red)] and [(red - nir) / (red + nir)] are computed,
    and at every pixel where [nir - red] is not zero the second is no-data
    (NaN) exactly when the first is, and otherwise the second is the first
    with the opposite sign: the same magnitude, for finite numbers, zeros
    and infinities alike.  Nothing is said about the sign of a NaN. *)
Theorem X4_ndvi_swapped_bands_negate (r c : nat) (nir red : array2 f64) (st : errstate) :
  is_shape r c nir = true -> is_shape r c red = true -> no_raise st ->
  exists v w,
    result (ndvi nir red st) = inr v /\ result (ndvi red nir st) = inr w
    /\ forall i j n d x,
         at2 nir i j = Some n -> at2 red i j = Some d ->
         at2 v i j = Some x ->
         is_zero (sub n d) = false ->
         exists y,
           at2 w i j = Some y
           /\ is_nan y = is_nan x
           /\ (is_nan x = false -> y = SFopp x).
Proof.
  intros Hn Hr Hst.
  destruct (ndvi_same_shape r c nir red st Hn Hr Hst) as [E1 _].
  destruct (ndvi_same_shape r c red nir st Hr Hn Hst) as [E2 _].
  exists (zip2d ndvi_pixel nir red), (zip2d ndvi_pixel red nir).
  split; [exact E1 | ]. split; [exact E2 | ].
  intros i j n d x En Ed Ex Hz.
  rewrite at2_zip2d, En, Ed in Ex. injection Ex as <-.
  exists (ndvi_pixel d n). rewrite at2_zip2d, En, Ed.
  split; [reflexivity | ].
  rewrite (ndvi_pixel_swap n d Hz).
  split; [destruct (ndvi_pixel n d); reflexivity | intros _; reflexivity].
Qed.

(** X5.  The index of a band with itself: for a masked band with values in
    the unit range and an error setting that raises nothing, the NDVI is
    computed and is [0.0] at every pixel that has data and no-data (NaN) at
    every pixel that has none. *)
Theorem X5_ndvi_of_equal_bands_is_zero (r c : nat) (band : array2 f64) (st : errstate) :
  is_shape r c band = true -> all2d masked_unit_sample band = true ->
  no_raise st ->
  exists v,
    result (ndvi band band st) = inr v
    /\ forall i j x,
         at2 band i j = Some x ->
         at2 v i j = Some (if is_nan x then nan else zero).
Proof.
  intros Hs Hm Hst.
  destruct (ndvi_same_shape r c band band st Hs Hs Hst) as [E _].
  exists (zip2d ndvi_pixel band band). split; [exact E | ].
  intros i j x Hx. rewrite at2_zip2d, Hx. f_equal.
  destruct (masked_unit_cases x (all2d_at2 _ band i j x Hm Hx))
    as [-> | (_ & Px & Vx)]; [reflexivity | ].
  rewrite (ndvi_pixel_same x Vx Px).
  destruct x; try discriminate; reflexivity.
Qed.

(** X6.  For two masked bands of one shape with values in the unit range
    and an error setting that raises nothing, a pixel of the NDVI is no-data
    (NaN) exactly when the pixel is no-data in one of the two bands: the
    division itself makes no new no-data. *)
Theorem X6_ndvi_nodata_exactly_from_inputs
    (r c : nat) (nir red : array2 f64) (st : errstate) :
  is_shape r c nir = true -> is_shape r c red = true ->
  all2d masked_unit_sample nir = true -> all2d masked_unit_sample red = true ->
  no_raise st ->
  exists v,
    result (ndvi nir red st) = inr v
    /\ forall i j n d,
         at2 nir i j = Some n -> at2 red i j = Some d ->
         exists x, at2 v i j = Some x /\ is_nan x = is_nan n || is_nan d.
Proof.
  intros Hn Hr Mn Mr Hst.
  destruct (ndvi_same_shape r c nir red st Hn Hr Hst) as [E _].
  exists (zip2d ndvi_pixel nir red). split; [exact E | ].
  intros i j n d En Ed. exists (ndvi_pixel n d).
  rewrite at2_zip2d, En, Ed. split; [reflexivity | ].
  apply ndvi_pixel_nan_iff.
  - exact (all2d_at2 _ nir i j n Mn En).
  - exact (all2d_at2 _ red i j d Mr Ed).
Qed.

Lemma X4_witness :
  exists v w,
    result (ndvi [[half; fifth]; [one; nan]] [[fifth; half]; [half; one]]
              default_errstate) = inr v
    /\ result (ndvi [[fifth; half]; [half; one]] [[half; fifth]; [one; nan]]
                 default_errstate) = inr w
    /\ forall i j n d x,
         at2 [[half; fifth]; [one; nan]] i j = Some n ->
         at2 [[fifth; half]; [half; one]] i j = Some d ->
         at2 v i j = Some x ->
         is_zero (sub n d) = false ->
         exists y,
           at2 w i j = Some y
           /\ is_nan y = is_nan x
           /\ (is_nan x = false -> y = SFopp x).
Proof.
  exact (X4_ndvi_swapped_bands_negate 2 2
           [[half; fifth]; [one; nan]] [[fifth; half]; [half; one]]
           default_errstate eq_refl eq_refl
           ltac:(intros [ | | | ]; discriminate)).
Defined.

Lemma X5_witness :
  exists v,
    result (ndvi [[half; nan]] [[half; nan]] default_errstate) = inr v
    /\ forall i j x,
         at2 [[half; nan]] i j = Some x ->
         at2 v i j = Some (if is_nan x then nan else zero).
Proof.
  exact (X5_ndvi_of_equal_bands_is_zero 1 2 [[half; nan]] default_errstate
           eq_refl eq_refl ltac:(intros [ | | | ]; discriminate)).
Defined.

Lemma X6_witness :
  exists v,
    result (ndvi [[half; nan]] [[fifth; one]] default_errstate) = inr v
    /\ forall i j n d,
         at2 [[half; nan]] i j = Some n -> at2 [[fifth; one]] i j = Some d ->
         exists x, at2 v i j = Some x /\ is_nan x = is_nan n || is_nan d.
Proof.
  exact (X6_ndvi_nodata_exactly_from_inputs 1 2 [[half; nan]] [[fifth; one]]
           default_errstate eq_refl eq_refl eq_refl eq_refl
           ltac:(intros [ | | | ]; discriminate)).
Defined.

(** ** Shapes and the error setting *)

Lemma ufunc2_no_raise (op : f64 -> f64 -> f64) (fl : f64 -> f64 -> fp_flags)
    (a b : array2 f64) (st : errstate) :
  no_raise st ->
  result (ufunc2 op fl a b st)
  = match broadcast2 a b with
    | Some (a', b') => inr (zip2d op a' b')
    | None => inl ValueError
    end.
Proof.
  intros Hst. unfold ufunc2.
  destruct (broadcast2 a b) as [[a' b'] | ]; [ | reflexivity].
  apply check_fp_no_raise, Hst.
Qed.

(** Under a setting that raises nothing, the outcome of the NDVI does not
    depend on the setting. *)
Lemma ndvi_result_no_raise (nir red : array2 f64) (st st' : errstate) :
  no_raise st -> no_raise st' ->
  result (ndvi nir red st) = result (ndvi nir red st').
Proof.
  intros H H'. unfold ndvi, bind, np_subtract, np_add, np_true_divide.
  rewrite !ufunc2_state.
  rewrite (ufunc2_no_raise sub _ nir red st H), (ufunc2_no_raise sub _ nir red st' H').
  destruct (broadcast2 nir red) as [[a' b'] | ]; [ | reflexivity].
  rewrite (ufunc2_no_raise add _ nir red st H), (ufunc2_no_raise add _ nir red st' H').
  destruct (broadcast2 nir red) as [[a'' b''] | ]; [ | reflexivity].
  cbn [result]. rewrite ?ufunc2_state.
  rewrite (ufunc2_no_raise div _ _ _ st H), (ufunc2_no_raise div _ _ _ st' H').
  reflexivity.
Qed.

(** X7.  [np.seterr(divide="ignore", invalid="ignore")] changes no value:
    under an error setting that raises nothing, the NDVI computed after the
    call is the NDVI computed without it, for arrays of any shapes (the call
    only silences warnings). *)
Theorem X7_seterr_changes_no_value (nir red : array2 f64) (st : errstate) :
  no_raise st ->
  result (notebook_ndvi nir red st) = result (ndvi nir red st).
Proof.
  intros Hst.
  assert (E : result (notebook_ndvi nir red st)
              = result (ndvi nir red (state (cell_seterr st)))).
  { unfold notebook_ndvi, bind. cbn [cell_seterr np_seterr result state].
    destruct (result (ndvi nir red _)); reflexivity. }
  rewrite E. apply ndvi_result_no_raise; [ | exact Hst].
  apply seterr_no_raise; [exact (Hst FPOver) | exact (Hst FPUnder)].
Qed.

Lemma broadcast_dim_none (n m : nat) :
  n <> m -> n <> 1%nat -> m <> 1%nat -> broadcast_dim n m = None.
Proof.
  intros H1 H2 H3. unfold broadcast_dim.
  destruct (decide (n = m)); [contradiction | ].
  destruct (decide (n = 1%nat)); [contradiction | ].
  destruct (decide (m = 1%nat)); [contradiction | reflexivity].
Qed.

Lemma broadcast2_incompatible {T U} (r1 c1 r2 c2 : nat)
    (a : array2 T) (b : array2 U) :
  is_shape r1 c1 a = true -> is_shape r2 c2 b = true ->
  a <> [] -> b <> [] ->
  (r1 <> r2 /\ r1 <> 1%nat /\ r2 <> 1%nat)
  \/ (c1 <> c2 /\ c1 <> 1%nat /\ c2 <> 1%nat) ->
  broadcast2 a b = None.
Proof.
  intros Ha Hb Na Nb H. unfold broadcast2.
  rewrite (shape_of_is_shape r1 c1 a Ha Na), (shape_of_is_shape r2 c2 b Hb Nb).
  destruct H as [(H1 & H2 & H3) | (H1 & H2 & H3)].
  - rewrite (broadcast_dim_none r1 r2) by assumption. reflexivity.
  - rewrite (broadcast_dim_none c1 c2) by assumption.
    destruct (broadcast_dim r1 r2); reflexivity.
Qed.

(** X8.  Bands whose shapes cannot be broadcast (a dimension differs and is
    1 in neither) make the NDVI expression raise [ValueError] at the
    subtraction: nothing is computed, no warning is given and the error
    setting is as before. *)
Theorem X8_ndvi_shape_mismatch_raises
    (r1 c1 r2 c2 : nat) (nir red : array2 f64) (st : errstate) :
  is_shape r1 c1 nir = true -> is_shape r2 c2 red = true ->
  nir <> [] -> red <> [] ->
  (r1 <> r2 /\ r1 <> 1%nat /\ r2 <> 1%nat)
  \/ (c1 <> c2 /\ c1 <> 1%nat /\ c2 <> 1%nat) ->
  result (ndvi nir red st) = inl ValueError
  /\ reports (ndvi nir red st) = []
  /\ state (ndvi nir red st) = st.
Proof.
  intros Hn Hr Nn Nr H.
  pose proof (broadcast2_incompatible r1 c1 r2 c2 nir red Hn Hr Nn Nr H) as E.
  unfold ndvi, bind, np_subtract, ufunc2. rewrite E. cbn. auto.
Qed.

Lemma zip_with_replicate {T U V} (f : T -> U -> V) (l : list T) (y : U) :
  zip_with f l (replicate (length l) y) = map (fun x => f x y) l.
Proof.
  induction l as [ | x l IH]; cbn; [reflexivity | ]. rewrite IH. reflexivity.
Qed.

Lemma zip2d_replicate {T U V} (f : T -> U -> V) (r c : nat)
    (a : array2 T) (y : U) :
  is_shape r c a = true ->
  zip2d f a (replicate r (replicate c y)) = map2d (fun x => f x y) a.
Proof.
  rewrite is_shape_spec. intros [Hr Hc]. subst r. unfold zip2d, map2d.
  induction Hc as [ | row a Hrow _ IH]; cbn; [reflexivity | ].
  rewrite IH. f_equal. subst c. apply zip_with_replicate.
Qed.

Lemma broadcast2_scalar {T U} (r c : nat) (a : array2 T) (y : U) :
  is_shape r c a = true -> a <> [] ->
  broadcast2 a [[y]] = Some (a, replicate r (replicate c y)).
Proof.
  intros Ha Na. unfold broadcast2.
  rewrite (shape_of_is_shape r c a Ha Na). cbn [shape length].
  assert (Hd : forall n, broadcast_dim n 1 = Some n).
  { intros n. unfold broadcast_dim.
    destruct (decide (n = 1%nat)) as [-> | ]; [reflexivity | ].
    destruct (decide (n = 1%nat)); [contradiction | ].
    destruct (decide (1%nat = 1%nat)); [reflexivity | contradiction]. }
  rewrite !Hd, (broadcast_to_same r c a Ha). reflexivity.
Qed.

(** X9.  A one-pixel red band is broadcast: the NDVI of a non-empty array
    and [[[x]]] is the array of [(n - x) / (n + x)] over the samples [n] of
    the first, whatever its shape. *)
Theorem X9_ndvi_broadcasts_one_pixel
    (r c : nat) (nir : array2 f64) (x : f64) (st : errstate) :
  is_shape r c nir = true -> nir <> [] -> no_raise st ->
  result (ndvi nir [[x]] st) = inr (map2d (fun n => ndvi_pixel n x) nir).
Proof.
  intros Hn Nn Hst. unfold ndvi, bind, np_subtract, np_add, np_true_divide.
  rewrite !ufunc2_state.
  rewrite (ufunc2_no_raise sub _ nir [[x]] st Hst).
  rewrite (ufunc2_no_raise add _ nir [[x]] st Hst).
  rewrite (broadcast2_scalar r c nir x Hn Nn). cbn [result].
  rewrite ?ufunc2_state.
  rewrite (ufunc2_no_raise div _ _ _ st Hst).
  rewrite !(zip2d_replicate _ r c nir x Hn).
  rewrite (broadcast2_same r c) by (rewrite is_shape_map2d; exact Hn).
  f_equal. unfold zip2d, map2d, ndvi_pixel.
  clear. induction nir as [ | row nir IH]; cbn; [reflexivity | ].
  rewrite IH. f_equal.
  clear. induction row as [ | n row IH]; cbn; [reflexivity | ].
  rewrite IH. reflexivity.
Qed.

Lemma X7_witness :
  result (notebook_ndvi [[half; zero]] [[fifth; zero]] default_errstate)
  = result (ndvi [[half; zero]] [[fifth; zero]] default_errstate).
Proof.
  exact (X7_seterr_changes_no_value [[half; zero]] [[fifth; zero]]
           default_errstate ltac:(intros [ | | | ]; discriminate)).
Defined.

Lemma X8_witness :
  result (ndvi [[half; fifth]] [[half; fifth; one]] default_errstate)
  = inl ValueError
  /\ reports (ndvi [[half; fifth]] [[half; fifth; one]] default_errstate) = []
  /\ state (ndvi [[half; fifth]] [[half; fifth; one]] default_errstate)
     = default_errstate.
Proof.
  exact (X8_ndvi_shape_mismatch_raises 1 2 1 3
           [[half; fifth]] [[half; fifth; one]] default_errstate
           eq_refl eq_refl ltac:(discriminate) ltac:(discriminate)
           ltac:(right; lia)).
Defined.

Lemma X9_witness :
  result (ndvi [[half; one]] [[fifth]] default_errstate)
  = inr (map2d (fun n => ndvi_pixel n fifth) [[half; one]]).
Proof.
  exact (X9_ndvi_broadcasts_one_pixel 1 2 [[half; one]] fifth default_errstate
           eq_refl ltac:(discriminate) ltac:(intros [ | | | ]; discriminate)).
Defined.

(** ** Comparison through scaled values *)

Lemma scaled_finite_bounds (s : bool) (m : positive) (e : Z) :
  valid (S754_finite s m e) = true ->
  0 < Zpos m * 2 ^ (e + 1074) < 2 ^ 2100
  /\ Zpos m < 2 ^ 53 /\ (-1074 < e -> 2 ^ 52 <= Zpos m).
Proof.
  intros Hv. apply valid_finite in Hv as (He & Hd & Hc).
  pose proof (digits2_pos_bounds m) as [Lo Hi].
  assert (H53 : Zpos m < 2 ^ 53).
  { eapply Z.lt_le_trans; [exact Hi | ]. apply Z.pow_le_mono_r; lia. }
  assert (P : 0 < 2 ^ (e + 1074)) by (apply Z.pow_pos_nonneg; lia).
  split; [split; [lia | ] | split; [exact H53 | ]].
  - assert (2 ^ (e + 1074) <= 2 ^ 2045) by (apply Z.pow_le_mono_r; lia).
    replace (2 ^ 2100) with (2 ^ 53 * 2 ^ 2047) by (rewrite <- Z.pow_add_r; lia).
    assert (2 ^ 2045 < 2 ^ 2047) by (apply Z.pow_lt_mono_r; lia).
    nia.
  - intros Hn. replace (Zpos (digits2_pos m)) with 53 in Lo by lia. exact Lo.
Qed.

Lemma scaled_lt_exp (m1 m2 : positive) (e1 e2 : Z) :
  valid (S754_finite false m1 e1) = true ->
  valid (S754_finite false m2 e2) = true ->
  e1 < e2 ->
  Zpos m1 * 2 ^ (e1 + 1074) < Zpos m2 * 2 ^ (e2 + 1074).
Proof.
  intros V1 V2 Hlt.
  pose proof (valid_finite _ _ _ V1) as (He1 & _).
  pose proof (valid_finite _ _ _ V2) as (He2 & _).
  apply scaled_finite_bounds in V1 as (_ & H1 & _).
  apply scaled_finite_bounds in V2 as (_ & _ & H2).
  specialize (H2 ltac:(lia)).
  assert (P : 0 < 2 ^ (e1 + 1074)) by (apply Z.pow_pos_nonneg; lia).
  replace (e2 + 1074) with ((e2 - e1 - 1) + (1 + (e1 + 1074))) by lia.
  rewrite (Z.pow_add_r 2 (e2 - e1 - 1)) by lia.
  rewrite (Z.pow_add_r 2 1) by lia. change (2 ^ 1) with 2.
  set (p := 2 ^ (e1 + 1074)) in *.
  assert (1 <= 2 ^ (e2 - e1 - 1)) by (apply (Z.pow_le_mono_r 2 0); lia).
  set (q := 2 ^ (e2 - e1 - 1)) in *.
  change (2 ^ 53) with (2 * 2 ^ 52) in H1.
  set (t := 2 ^ 52) in *.
  assert (Zpos m1 * p < 2 * t * p) by nia.
  assert (t * p <= Zpos m2 * p) by nia.
  assert (Zpos m2 * p <= Zpos m2 * p * q) by nia.
  nia.
Qed.

Lemma compare_scaled_pos (m1 m2 : positive) (e1 e2 : Z) :
  valid (S754_finite false m1 e1) = true ->
  valid (S754_finite false m2 e2) = true ->
  match e1 ?= e2 with
  | Eq => Pos.compare_cont Eq m1 m2
  | Lt => Lt
  | Gt => Gt
  end
  = (Zpos m1 * 2 ^ (e1 + 1074) ?= Zpos m2 * 2 ^ (e2 + 1074)).
Proof.
  intros V1 V2. symmetry.
  destruct (Z.compare_spec e1 e2) as [-> | Hlt | Hgt].
  - pose proof (valid_finite _ _ _ V2) as (He2 & _).
    assert (P : 0 < 2 ^ (e2 + 1074)) by (apply Z.pow_pos_nonneg; lia).
    change (Pos.compare_cont Eq m1 m2) with (Pos.compare m1 m2).
    destruct (Pos.compare_spec m1 m2) as [-> | H | H].
    + apply Z.compare_refl.
    + apply Z.compare_lt_iff. nia.
    + apply Z.compare_gt_iff. nia.
  - apply Z.compare_lt_iff. apply scaled_lt_exp; assumption.
  - apply Z.compare_gt_iff. apply scaled_lt_exp; assumption.
Qed.

(** On valid numbers the comparison of floats is the comparison of their
    scaled values. *)
Lemma SFcompare_scaled (x y : f64) :
  valid x = true -> valid y = true ->
  is_nan x = false -> is_nan y = false ->
  SFcompare x y = Some (scaled x ?= scaled y).
Proof.
  intros Vx Vy Nx Ny.
  destruct x as [sx | sx | | sx mx ex]; try discriminate;
    destruct y as [sy | sy | | sy my ey]; try discriminate.
  - reflexivity.
  - destruct sy; reflexivity.
  - destruct (scaled_finite_bounds sy my ey Vy) as ([P _] & _).
    cbn [SFcompare scaled]. destruct sy; cbn [cond_Zopp]; f_equal; symmetry.
    + apply Z.compare_gt_iff. lia.
    + apply Z.compare_lt_iff. lia.
  - destruct sx; reflexivity.
  - destruct sx, sy; reflexivity.
  - destruct (scaled_finite_bounds sy my ey Vy) as ([P Q] & _).
    cbn [SFcompare scaled]. destruct sx, sy; cbn [cond_Zopp]; f_equal; symmetry;
      first [apply Z.compare_gt_iff; lia | apply Z.compare_lt_iff; lia].
  - destruct (scaled_finite_bounds sx mx ex Vx) as ([P _] & _).
    cbn [SFcompare scaled]. destruct sx; cbn [cond_Zopp]; f_equal; symmetry.
    + apply Z.compare_lt_iff. lia.
    + apply Z.compare_gt_iff. lia.
  - destruct (scaled_finite_bounds sx mx ex Vx) as ([P Q] & _).
    cbn [SFcompare scaled]. destruct sx, sy; cbn [cond_Zopp]; f_equal; symmetry;
      first [apply Z.compare_gt_iff; lia | apply Z.compare_lt_iff; lia].
  - destruct (scaled_finite_bounds sx mx ex Vx) as ([Px _] & _).
    destruct (scaled_finite_bounds sy my ey Vy) as ([Py _] & _).
    cbn [SFcompare scaled].
    destruct sx, sy; cbn [cond_Zopp]; f_equal.
    + assert (Vx' : valid (S754_finite false mx ex) = true) by exact Vx.
      assert (Vy' : valid (S754_finite false my ey) = true) by exact Vy.
      rewrite Z.compare_opp, (Z.compare_antisym (Zpos mx * _)).
      rewrite <- (compare_scaled_pos mx my ex ey Vx' Vy').
      destruct (ex ?= ey); reflexivity.
    + symmetry. apply Z.compare_lt_iff. lia.
    + symmetry. apply Z.compare_gt_iff. lia.
    + apply compare_scaled_pos; assumption.
Qed.

Lemma leb_scaled (x y : f64) :
  valid x = true -> valid y = true ->
  is_nan x = false -> is_nan y = false ->
  leb x y = true <-> scaled x <= scaled y.
Proof.
  intros Vx Vy Nx Ny. unfold leb, SFleb.
  rewrite (SFcompare_scaled x y Vx Vy Nx Ny).
  destruct (Z.compare_spec (scaled x) (scaled y)); split; intros;
    try reflexivity; try discriminate; lia.
Qed.

Lemma ltb_scaled (x y : f64) :
  valid x = true -> valid y = true ->
  is_nan x = false -> is_nan y = false ->
  ltb x y = true <-> scaled x < scaled y.
Proof.
  intros Vx Vy Nx Ny. unfold ltb, SFltb.
  rewrite (SFcompare_scaled x y Vx Vy Nx Ny).
  destruct (Z.compare_spec (scaled x) (scaled y)); split; intros;
    try reflexivity; try discriminate; lia.
Qed.

(** ** Reductions that ignore NaN *)

Section NanReduce.
(** [beats a b]: the accumulated value [a] is kept against [b]. *)
Variable beats : f64 -> f64 -> bool.
Hypothesis beats_not_nan :
  forall a b, beats a b = true -> is_nan a = false /\ is_nan b = false.
Hypothesis beats_refl :
  forall a, valid a = true -> is_nan a = false -> beats a a = true.
Hypothesis beats_total :
  forall a b, valid a = true -> valid b = true ->
    is_nan a = false -> is_nan b = false ->
    beats a b = false -> beats b a = true.
Hypothesis beats_trans :
  forall a b c, valid a = true -> valid b = true -> valid c = true ->
    beats a b = true -> beats b c = true -> beats a c = true.

Lemma pick_by_cases (a b : f64) :
  (pick_by beats a b = a \/ pick_by beats a b = b)
  /\ is_nan (pick_by beats a b) = is_nan a && is_nan b.
Proof.
  unfold pick_by. destruct (beats a b) eqn:E; cbn [orb].
  - destruct (beats_not_nan a b E) as [-> _]. auto.
  - destruct (is_nan b) eqn:Nb; [rewrite andb_true_r | rewrite andb_false_r];
      auto.
Qed.

Lemma pick_by_beats (a b y : f64) :
  valid a = true -> valid b = true ->
  y = a \/ y = b -> is_nan y = false ->
  beats (pick_by beats a b) y = true.
Proof.
  intros Va Vb Hy Ny. unfold pick_by.
  destruct (beats a b) eqn:E; cbn [orb].
  - destruct (beats_not_nan a b E) as [Na Nb].
    destruct Hy as [-> | ->]; [apply beats_refl; assumption | exact E].
  - destruct (is_nan b) eqn:Nb.
    + destruct Hy as [-> | ->]; [apply beats_refl; assumption | congruence].
    + destruct Hy as [-> | ->]; [ | apply beats_refl; assumption].
      apply beats_total; assumption.
Qed.

Lemma fold_pick_by (l : list f64) :
  forall x,
    valid x = true -> forallb valid l = true ->
    let r := fold_left (pick_by beats) l x in
    In r (x :: l)
    /\ (is_nan r = true <-> forall y, In y (x :: l) -> is_nan y = true)
    /\ (forall y, In y (x :: l) -> is_nan y = false -> beats r y = true).
Proof.
  induction l as [ | b l IH]; intros x Vx Vl; cbn [fold_left].
  - cbn zeta. split; [left; reflexivity | ]. split.
    + split; [intros H y [<- | []]; exact H | intros H; apply H; left; reflexivity].
    + intros y [<- | []] Ny. apply beats_refl; assumption.
  - cbn [forallb] in Vl. apply andb_prop in Vl as [Vb Vl].
    destruct (pick_by_cases x b) as [Hc Hn].
    assert (Vp : valid (pick_by beats x b) = true) by (destruct Hc as [-> | ->]; assumption).
    destruct (IH (pick_by beats x b) Vp Vl) as (I1 & I2 & I3). cbn zeta in *.
    set (r := fold_left (pick_by beats) l (pick_by beats x b)) in *.
    assert (Vr : valid r = true).
    { destruct I1 as [<- | I1]; [exact Vp | ].
      rewrite forallb_forall in Vl. apply Vl, I1. }
    split; [ | split].
    + destruct I1 as [E | I1]; [ | right; right; exact I1].
      destruct Hc as [Hc | Hc]; rewrite Hc in E; [left | right; left]; exact E.
    + rewrite I2. split.
      * intros H y [<- | [<- | Hy]].
        -- specialize (H _ (or_introl eq_refl)). rewrite Hn in H.
           apply andb_prop in H as [H _]. exact H.
        -- specialize (H _ (or_introl eq_refl)). rewrite Hn in H.
           apply andb_prop in H as [_ H]. exact H.
        -- apply H. right. exact Hy.
      * intros H y [<- | Hy].
        -- rewrite Hn, (H x), (H b); [reflexivity | right; left | left]; reflexivity.
        -- apply H. right. right. exact Hy.
    + intros y Hy Ny.
      assert (Hxb : forall y, y = x \/ y = b -> is_nan y = false -> beats r y = true).
      { intros z Hz Nz.
        pose proof (pick_by_beats x b z Vx Vb Hz Nz) as B.
        destruct (beats_not_nan _ _ B) as [Np _].
        apply (beats_trans r (pick_by beats x b) z); try assumption.
        - destruct Hz as [-> | ->]; assumption.
        - apply I3; [left; reflexivity | exact Np]. }
      destruct Hy as [<- | [<- | Hy]]; [apply Hxb; auto | apply Hxb; auto | ].
      apply I3; [right; exact Hy | exact Ny].
Qed.

End NanReduce.

Lemma leb_not_nan (a b : f64) :
  leb a b = true -> is_nan a = false /\ is_nan b = false.
Proof. destruct a, b; cbn; intros H; try discriminate; auto. Qed.

Lemma leb_refl_valid (a : f64) :
  valid a = true -> is_nan a = false -> leb a a = true.
Proof. intros V N. apply leb_scaled; auto. lia. Qed.

Lemma leb_total_valid (a b : f64) :
  valid a = true -> valid b = true -> is_nan a = false -> is_nan b = false ->
  leb a b = false -> leb b a = true.
Proof.
  intros Va Vb Na Nb H. apply leb_scaled; auto.
  destruct (Z.le_gt_cases (scaled a) (scaled b)) as [L | L]; [ | lia].
  apply (leb_scaled a b Va Vb Na Nb) in L. congruence.
Qed.

Lemma leb_trans_valid (a b c : f64) :
  valid a = true -> valid b = true -> valid c = true ->
  leb a b = true -> leb b c = true -> leb a c = true.
Proof.
  intros Va Vb Vc H1 H2.
  destruct (leb_not_nan _ _ H1) as [Na Nb].
  destruct (leb_not_nan _ _ H2) as [_ Nc].
  apply leb_scaled; auto.
  apply (leb_scaled a b) in H1; auto. apply (leb_scaled b c) in H2; auto. lia.
Qed.

Lemma np_fmax_pick : np_fmax = pick_by (fun a b => leb b a).
Proof. reflexivity. Qed.

Lemma np_fmin_pick : np_fmin = pick_by (fun a b => leb a b).
Proof. reflexivity. Qed.

Lemma fold_fmax (l : list f64) (x : f64) :
  valid x = true -> forallb valid l = true ->
  In (fold_left np_fmax l x) (x :: l)
  /\ (is_nan (fold_left np_fmax l x) = true
      <-> forall y, In y (x :: l) -> is_nan y = true)
  /\ (forall y, In y (x :: l) -> is_nan y = false ->
        leb y (fold_left np_fmax l x) = true).
Proof.
  rewrite np_fmax_pick.
  apply (fold_pick_by (fun a b => leb b a)).
  - intros a b H. destruct (leb_not_nan _ _ H). auto.
  - intros a. apply leb_refl_valid.
  - intros a b Va Vb Na Nb. apply leb_total_valid; assumption.
  - intros a b c Va Vb Vc H1 H2. apply (leb_trans_valid c b a); assumption.
Qed.

Lemma fold_fmin (l : list f64) (x : f64) :
  valid x = true -> forallb valid l = true ->
  In (fold_left np_fmin l x) (x :: l)
  /\ (is_nan (fold_left np_fmin l x) = true
      <-> forall y, In y (x :: l) -> is_nan y = true)
  /\ (forall y, In y (x :: l) -> is_nan y = false ->
        leb (fold_left np_fmin l x) y = true).
Proof.
  rewrite np_fmin_pick.
  apply (fold_pick_by (fun a b => leb a b)).
  - intros a b H. apply (leb_not_nan _ _ H).
  - intros a. apply leb_refl_valid.
  - intros a b Va Vb Na Nb. apply leb_total_valid; assumption.
  - intros a b c Va Vb Vc H1 H2. apply (leb_trans_valid a b c); assumption.
Qed.

Lemma nanmin_nanmax_spec (a : array2 f64) :
  all2d valid a = true ->
  (concat a = [] ->
   np_nanmin a = inl ZeroSizeArray /\ np_nanmax a = inl ZeroSizeArray)
  /\ (concat a <> [] ->
      exists lo hi,
        np_nanmin a = inr lo /\ np_nanmax a = inr hi
        /\ (all_nan_warning lo = true
            <-> forall x, In x (concat a) -> is_nan x = true)
        /\ (all_nan_warning hi = true
            <-> forall x, In x (concat a) -> is_nan x = true)
        /\ In (red_value lo) (concat a) /\ In (red_value hi) (concat a)
        /\ forall x, In x (concat a) -> is_nan x = false ->
             leb (red_value lo) x = true /\ leb x (red_value hi) = true).
Proof.
  intros Hv. rewrite all2d_concat in Hv.
  unfold np_nanmin, np_nanmax, nan_reduce. split.
  - intros ->. split; reflexivity.
  - intros Hne. destruct (concat a) as [ | x l]; [congruence | ].
    cbn [forallb] in Hv. apply andb_prop in Hv as [Vx Vl].
    destruct (fold_fmin l x Vx Vl) as (A1 & A2 & A3).
    destruct (fold_fmax l x Vx Vl) as (B1 & B2 & B3).
    eexists. eexists. split; [reflexivity | ]. split; [reflexivity | ].
    cbn [red_value all_nan_warning].
    split; [exact A2 | ]. split; [exact B2 | ].
    split; [exact A1 | ]. split; [exact B1 | ].
    intros y Hy Ny. split; [apply A3 | apply B3]; assumption.
Qed.

(** X10.  [np.nanmin] and [np.nanmax] of an array of binary64 numbers.  An
    array without samples has neither (the reduction raises).  Otherwise
    both return a sample of the array; the all-NaN warning is given exactly
    when every sample is NaN; and the minimum is below or equal to, the
    maximum above or equal to, every sample that is not NaN. *)
Theorem X10_nanmin_nanmax_bound_the_data (a : array2 f64) :
  all2d valid a = true ->
  (concat a = [] ->
   np_nanmin a = inl ZeroSizeArray /\ np_nanmax a = inl ZeroSizeArray)
  /\ (concat a <> [] ->
      exists lo hi,
        np_nanmin a = inr lo /\ np_nanmax a = inr hi
        /\ (all_nan_warning lo = true
            <-> forall x, In x (concat a) -> is_nan x = true)
        /\ (all_nan_warning hi = true
            <-> forall x, In x (concat a) -> is_nan x = true)
        /\ In (red_value lo) (concat a) /\ In (red_value hi) (concat a)
        /\ forall x, In x (concat a) -> is_nan x = false ->
             leb (red_value lo) x = true /\ leb x (red_value hi) = true).
Proof. exact (nanmin_nanmax_spec a). Qed.

Lemma X10_witness :
  exists lo hi,
    np_nanmin [[half; nan]; [fifth; one]] = inr lo
    /\ np_nanmax [[half; nan]; [fifth; one]] = inr hi
    /\ (all_nan_warning lo = true
        <-> forall x, In x [half; nan; fifth; one] -> is_nan x = true)
    /\ (all_nan_warning hi = true
        <-> forall x, In x [half; nan; fifth; one] -> is_nan x = true)
    /\ In (red_value lo) [half; nan; fifth; one]
    /\ In (red_value hi) [half; nan; fifth; one]
    /\ forall x, In x [half; nan; fifth; one] -> is_nan x = false ->
         leb (red_value lo) x = true /\ leb x (red_value hi) = true.
Proof.
  exact (proj2 (X10_nanmin_nanmax_bound_the_data [[half; nan]; [fifth; one]]
                  eq_refl) ltac:(discriminate)).
Defined.

(** ** The printed minimum and maximum of a band *)

Lemma all2d_impl {T} (p q : T -> bool) (a : array2 T) :
  (forall x, p x = true -> q x = true) -> all2d p a = true -> all2d q a = true.
Proof.
  intros H. rewrite !all2d_concat, !forallb_forall. auto.
Qed.

Lemma masked_unit_valid (x : f64) : masked_unit_sample x = true -> valid x = true.
Proof. unfold masked_unit_sample. intros H. apply andb_prop in H as [H _]. exact H. Qed.

Lemma reflectance_valid (x : f64) : reflectance_sample x = true -> valid x = true.
Proof. unfold reflectance_sample. intros H. apply andb_prop in H as [H _]. exact H. Qed.

Lemma at2_in_concat {T} (a : array2 T) (i j : nat) (x : T) :
  at2 a i j = Some x -> In x (concat a).
Proof.
  unfold at2. destruct (a !! i) as [row | ] eqn:Hrow; [ | discriminate].
  intros Hx. apply in_concat. exists row. split.
  - apply list_elem_of_In. eapply list_elem_of_lookup_2; eauto.
  - apply list_elem_of_In. eapply list_elem_of_lookup_2; eauto.
Qed.

(** X11.  The range printed for a band.  For a band of unsigned 16-bit
    digital numbers with at least one non-zero sample, [np.nanmin] and
    [np.nanmax] of the normalized band (cell 15) and [np.nanmax] of the
    clamped band (cell 22) return without the all-NaN warning; the minimum
    is above zero, the maximum after clamping is at most one, and the
    maximum before clamping is the reflectance of a sample with the largest
    digital number. *)
Theorem X11_printed_range_of_a_band (raw : array2 Z) (i0 j0 : nat) (v0 : Z) :
  all2d is_uint16 raw = true ->
  at2 raw i0 j0 = Some v0 -> v0 <> 0 ->
  exists lo hi hi',
    np_nanmin (cell15 raw) = inr lo
    /\ np_nanmax (cell15 raw) = inr hi
    /\ np_nanmax (cell22 (cell15 raw)) = inr hi'
    /\ all_nan_warning lo = false /\ all_nan_warning hi = false
    /\ all_nan_warning hi' = false
    /\ ltb zero (red_value lo) = true
    /\ leb (red_value hi') one = true
    /\ exists i j v,
         at2 raw i j = Some v
         /\ red_value hi = dn_to_reflectance v
         /\ forall i' j' w, at2 raw i' j' = Some w -> w <= v.
Proof.
  intros Hraw H0 N0.
  destruct (cell15_mask_exact raw Hraw) as [R15 P15].
  destruct (cell22_after_cell15 raw Hraw) as [M22 P22].
  assert (V15 : all2d valid (cell15 raw) = true)
    by (exact (all2d_impl _ _ _ reflectance_valid R15)).
  assert (V22 : all2d valid (cell22 (cell15 raw)) = true)
    by (exact (all2d_impl _ _ _ masked_unit_valid M22)).
  destruct (P15 i0 j0 v0 H0) as (x0 & Hx0 & Nx0 & _).
  destruct (P22 i0 j0 v0 H0) as (_ & y0 & _ & Hy0 & Ny0 & _).
  assert (Nx : is_nan x0 = false).
  { destruct (is_nan x0) eqn:E; [ | reflexivity].
    exfalso. apply N0, Nx0. reflexivity. }
  assert (Ny : is_nan y0 = false).
  { destruct (is_nan y0) eqn:E; [ | reflexivity].
    exfalso. apply N0, Ny0. reflexivity. }
  pose proof (at2_in_concat _ _ _ _ Hx0) as Ix0.
  pose proof (at2_in_concat _ _ _ _ Hy0) as Iy0.
  destruct (nanmin_nanmax_spec (cell15 raw) V15) as [_ A].
  destruct (A ltac:(intros E; rewrite E in Ix0; contradiction))
    as (lo & hi & Elo & Ehi & Wlo & Whi & Ilo & Ihi & B).
  destruct (nanmin_nanmax_spec (cell22 (cell15 raw)) V22) as [_ A'].
  destruct (A' ltac:(intros E; rewrite E in Iy0; contradiction))
    as (lo' & hi' & _ & Ehi' & _ & Whi' & _ & Ihi' & B').
  destruct (B x0 Ix0 Nx) as [Blo Bhi].
  destruct (B' y0 Iy0 Ny) as [_ Bhi'].
  destruct (leb_not_nan _ _ Blo) as [Nlo _].
  destruct (leb_not_nan _ _ Bhi) as [_ Nhi].
  destruct (leb_not_nan _ _ Bhi') as [_ Nhi'].
  exists lo, hi, hi'.
  split; [exact Elo | ]. split; [exact Ehi | ]. split; [exact Ehi' | ].
  assert (W : forall r : nan_reduction,
             (all_nan_warning r = true <->
              forall x, In x (concat (cell15 raw)) -> is_nan x = true) ->
             all_nan_warning r = false).
  { intros r Hr. destruct (all_nan_warning r) eqn:E; [ | reflexivity].
    rewrite (proj1 Hr eq_refl x0 Ix0) in Nx. discriminate. }
  split; [apply W, Wlo | ]. split; [apply W, Whi | ].
  split.
  { destruct (all_nan_warning hi') eqn:E; [ | reflexivity].
    rewrite (proj1 Whi' eq_refl y0 Iy0) in Ny. discriminate. }
  split.
  { destruct (in_concat_at2 _ _ Ilo) as (i & j & Hl).
    rewrite cell15_at2 in Hl.
    destruct (at2 raw i j) as [v | ] eqn:Hv; [ | discriminate].
    injection Hl as Hl. destruct (P15 i j v Hv) as (x & Hx & Hnan & Hpos).
    rewrite cell15_at2, Hv in Hx. injection Hx as <-. rewrite Hl in *.
    apply Hpos. intros ->. rewrite (proj2 Hnan eq_refl) in Nlo. discriminate. }
  split.
  { destruct (in_concat_at2 _ _ Ihi') as (i & j & Hh).
    pose proof (all2d_at2 _ _ i j _ M22 Hh) as Hm.
    unfold masked_unit_sample in Hm.
    rewrite Nhi' in Hm. cbn [orb] in Hm.
    apply andb_prop in Hm as [_ Hm]. apply andb_prop in Hm as [_ Hm]. exact Hm. }
  destruct (in_concat_at2 _ _ Ihi) as (i & j & Hh).
  rewrite cell15_at2 in Hh.
  destruct (at2 raw i j) as [v | ] eqn:Hv; [ | discriminate].
  injection Hh as Hh. exists i, j, v.
  split; [exact Hv | ]. split; [symmetry; exact Hh | ].
  intros i' j' w Hw.
  pose proof (all2d_at2 _ raw i j v Hraw Hv) as Uv.
  pose proof (all2d_at2 _ raw i' j' w Hraw Hw) as Uw.
  assert (Pv : 0 < v).
  { destruct (dn_reflectance_cases v Uv) as [[_ E] | [P _]]; [ | exact P].
    rewrite E in Hh. rewrite <- Hh in Nhi. discriminate. }
  destruct (Z.le_gt_cases w v) as [ | Hgt]; [assumption | exfalso].
  pose proof (dn_lt v w Uv Uw Pv Hgt) as L.
  assert (Iw : In (dn_to_reflectance w) (concat (cell15 raw))).
  { apply (at2_in_concat _ i' j'). rewrite cell15_at2, Hw. reflexivity. }
  assert (Nw : is_nan (dn_to_reflectance w) = false).
  { destruct (dn_reflectance_cases w Uw) as [[E _] | (_ & _ & P & _)]; [lia | ].
    destruct (dn_to_reflectance w); try discriminate; reflexivity. }
  destruct (B _ Iw Nw) as [_ Bw]. rewrite <- Hh in Bw.
  apply leb_not_ltb in Bw. congruence.
Qed.

Lemma X11_witness :
  exists lo hi hi',
    np_nanmin (cell15 [[0; 5000]; [10000; 20000]]) = inr lo
    /\ np_nanmax (cell15 [[0; 5000]; [10000; 20000]]) = inr hi
    /\ np_nanmax (cell22 (cell15 [[0; 5000]; [10000; 20000]])) = inr hi'
    /\ all_nan_warning lo = false /\ all_nan_warning hi = false
    /\ all_nan_warning hi' = false
    /\ ltb zero (red_value lo) = true
    /\ leb (red_value hi') one = true
    /\ exists i j v,
         at2 [[0; 5000]; [10000; 20000]] i j = Some v
         /\ red_value hi = dn_to_reflectance v
         /\ forall i' j' w,
              at2 [[0; 5000]; [10000; 20000]] i' j' = Some w -> w <= v.
Proof.
  exact (X11_printed_range_of_a_band [[0; 5000]; [10000; 20000]] 0 1 5000
           eq_refl eq_refl ltac:(lia)).
Defined.

(** ** The false colour stack *)

Lemma shape_eqb_refl (s : nat * nat) : shape_eqb s s = true.
Proof. unfold shape_eqb. rewrite !Nat.eqb_refl. reflexivity. Qed.

Lemma dstack3_same_shape {T} (r c : nat) (a b d : array2 T) :
  is_shape r c a = true -> is_shape r c b = true -> is_shape r c d = true ->
  exists s,
    np_dstack3 a b d = inr s
    /\ is_shape r c s = true
    /\ forall i j x y z,
         at2 a i j = Some x -> at2 b i j = Some y -> at2 d i j = Some z ->
         at2 s i j = Some [x; y; z].
Proof.
  intros Ha Hb Hd. unfold np_dstack3.
  assert (E : shape a = shape b /\ shape b = shape d).
  { destruct a as [ | ra a], b as [ | rb b], d as [ | rd d];
      try (apply is_shape_spec in Ha as [Ha _]; apply is_shape_spec in Hb as [Hb _];
           apply is_shape_spec in Hd as [Hd _]; cbn in *; congruence);
      [split; reflexivity | ].
    rewrite (shape_of_is_shape r c (ra :: a)), (shape_of_is_shape r c (rb :: b)),
      (shape_of_is_shape r c (rd :: d)) by (assumption || discriminate).
    split; reflexivity. }
  destruct E as [-> ->]. rewrite !shape_eqb_refl. cbn [andb].
  eexists. split; [reflexivity | ]. split.
  - apply (is_shape_zip2d _ r c a (zip_with (zip_with pair) b d) Ha).
    apply (is_shape_zip2d pair r c b d Hb Hd).
  - intros i j x y z Hx Hy Hz.
    change (at2 (zip2d (fun x yz => [x; fst yz; snd yz]) a (zip2d pair b d)) i j
            = Some [x; y; z]).
    rewrite !at2_zip2d, Hx, Hy, Hz. reflexivity.
Qed.

Lemma dstack3_mismatch {T} (a b d : array2 T) :
  shape a <> shape b \/ shape b <> shape d ->
  np_dstack3 a b d = inl ValueError.
Proof.
  intros H. unfold np_dstack3.
  assert (Hs : forall s t : nat * nat, s <> t -> shape_eqb s t = false).
  { intros [s1 s2] [t1 t2] Hne. unfold shape_eqb. cbn [fst snd].
    destruct (Nat.eqb_spec s1 t1) as [-> | ]; [ | reflexivity].
    destruct (Nat.eqb_spec s2 t2) as [-> | ]; [congruence | reflexivity]. }
  destruct H as [H | H]; rewrite (Hs _ _ H); [reflexivity | ].
  rewrite andb_false_r. reflexivity.
Qed.

(** X12.  The false colour stack of cell 22.  For three bands of unsigned
    16-bit digital numbers of one shape, normalized by cell 15, clamping and
    stacking raises nothing; the stack has the rows and columns of the bands,
    its pixel holds the clamped reflectances of near infrared, red and green
    in this order, and every channel is no-data or above zero and at most
    one. *)
Theorem X12_false_colour_stack (r c : nat) (nir red green : array2 Z) :
  is_shape r c nir = true -> is_shape r c red = true ->
  is_shape r c green = true ->
  all2d is_uint16 nir = true -> all2d is_uint16 red = true ->
  all2d is_uint16 green = true ->
  exists s,
    cell22_stack (cell15 nir) (cell15 red) (cell15 green) = inr s
    /\ is_shape r c s = true
    /\ forall i j vn vr vg,
         at2 nir i j = Some vn -> at2 red i j = Some vr ->
         at2 green i j = Some vg ->
         at2 s i j = Some [dn_to_clamped vn; dn_to_clamped vr; dn_to_clamped vg]
         /\ forall k x, at3 s i j k = Some x -> masked_unit_sample x = true.
Proof.
  intros Sn Sr Sg Un Ur Ug. unfold cell22_stack.
  assert (S' : forall a : array2 Z, is_shape r c a = true ->
                 is_shape r c (cell22 (cell15 a)) = true).
  { intros a Ha. unfold cell22, cell15, normalize, mask_zero,
      true_divide_scalar, astype_float64. rewrite !is_shape_map2d. exact Ha. }
  destruct (dstack3_same_shape r c _ _ _ (S' nir Sn) (S' red Sr) (S' green Sg))
    as (s & Es & Hs & Hpix).
  exists s. split; [exact Es | ]. split; [exact Hs | ].
  intros i j vn vr vg Hn Hr Hg.
  assert (E : at2 s i j
              = Some [dn_to_clamped vn; dn_to_clamped vr; dn_to_clamped vg]).
  { apply Hpix; rewrite cell22_cell15_at2; [rewrite Hn | rewrite Hr | rewrite Hg];
      reflexivity. }
  split; [exact E | ].
  intros k x Hx. unfold at3 in Hx. rewrite E in Hx.
  pose proof (all2d_at2 _ nir i j vn Un Hn) as Pn.
  pose proof (all2d_at2 _ red i j vr Ur Hr) as Pr.
  pose proof (all2d_at2 _ green i j vg Ug Hg) as Pg.
  destruct k as [ | [ | [ | k]]]; cbn in Hx; try discriminate;
    injection Hx as <-; apply dn_clamped_cases; assumption.
Qed.

(** ** Metadata *)

Lemma dict_copy_spec (l : positive) (d : pydict) (h : heap) :
  h !! l = Some d ->
  exists l',
    dict_copy l h = Some (l', <[l' := d]> h) /\ h !! l' = None /\ l' <> l.
Proof.
  intros Hl. unfold dict_copy. rewrite Hl.
  set (l' := fresh (dom h)).
  assert (Hf : h !! l' = None).
  { apply not_elem_of_dom. apply is_fresh. }
  exists l'. split; [reflexivity | ]. split; [exact Hf | ]. congruence.
Qed.

(** Copying a dictionary and updating the copy: the new object has the
    entries of the update and otherwise those of the original, and no
    object that existed before is changed. *)
Lemma copy_update_spec (l : positive) (d other : pydict) (h : heap) :
  h !! l = Some d ->
  exists l',
    match dict_copy l h with
    | Some (l0, h0) => Some (l0, dict_update l0 other h0)
    | None => None
    end = Some (l', <[l' := other ∪ d]> h)
    /\ h !! l' = None /\ l' <> l
    /\ (forall l0, l0 <> l' -> (<[l' := other ∪ d]> h) !! l0 = h !! l0)
    /\ (forall k v, other !! k = Some v -> (other ∪ d) !! k = Some v)
    /\ (forall k, other !! k = None -> (other ∪ d) !! k = d !! k).
Proof.
  intros Hl. destruct (dict_copy_spec l d h Hl) as (l' & E & Hf & Hne).
  exists l'. rewrite E. unfold dict_update. rewrite lookup_insert_eq.
  rewrite insert_insert_eq.
  split; [reflexivity | ]. split; [exact Hf | ]. split; [exact Hne | ].
  split; [ | split].
  - intros l0 H0. apply lookup_insert_ne. congruence.
  - intros k v Hk. apply lookup_union_Some_l. exact Hk.
  - intros k Hk. apply lookup_union_r. exact Hk.
Qed.

Lemma X12_witness :
  exists s,
    cell22_stack (cell15 [[0; 5000]]) (cell15 [[10000; 20000]])
                 (cell15 [[1; 65535]]) = inr s
    /\ is_shape 1 2 s = true
    /\ forall i j vn vr vg,
         at2 [[0; 5000]] i j = Some vn -> at2 [[10000; 20000]] i j = Some vr ->
         at2 [[1; 65535]] i j = Some vg ->
         at2 s i j = Some [dn_to_clamped vn; dn_to_clamped vr; dn_to_clamped vg]
         /\ forall k x, at3 s i j k = Some x -> masked_unit_sample x = true.
Proof.
  exact (X12_false_colour_stack 1 2 [[0; 5000]] [[10000; 20000]] [[1; 65535]]
           eq_refl eq_refl eq_refl eq_refl eq_refl eq_refl).
Defined.

(** ** Metadata of the files that are written *)

(** X13.  The metadata of the cropped image.  [s2open.meta.copy()] followed
    by [update] makes a dictionary that is a new object: it is not the
    source dictionary, which with every other object is left as it was; its
    ["height"], ["width"] and ["transform"] are the second and third
    dimension of the cropped array and the new transform, and every other
    key has the entry of the source dictionary (or none, as there). *)
Theorem X13_crop_metadata (meta : positive) (d : pydict) (h : heap)
    (count height width : Z) (transform : meta_value) :
  h !! meta = Some d ->
  exists l h' d',
    cell_crop_meta meta (count, height, width) transform h = Some (l, h')
    /\ l <> meta /\ h !! l = None
    /\ (forall l0, l0 <> l -> h' !! l0 = h !! l0)
    /\ h' !! l = Some d'
    /\ d' !! "height" = Some (MInt height)
    /\ d' !! "width" = Some (MInt width)
    /\ d' !! "transform" = Some transform
    /\ forall k, k <> "height" -> k <> "width" -> k <> "transform" ->
         d' !! k = d !! k.
Proof.
  intros Hl. unfold cell_crop_meta.
  set (other := <["height" := MInt height]>
                  (<["width" := MInt width]> (<["transform" := transform]> ∅))).
  destruct (copy_update_spec meta d other h Hl)
    as (l & E & Hf & Hne & Hframe & Hnew & Hold).
  destruct (dict_copy meta h) as [[l0 h0] | ]; [ | discriminate].
  injection E as -> E. exists l. eexists. exists (other ∪ d).
  split; [rewrite E; reflexivity | ].
  split; [exact Hne | ]. split; [exact Hf | ]. split; [exact Hframe | ].
  split; [apply lookup_insert_eq | ].
  split; [apply Hnew; reflexivity | ].
  split; [apply Hnew; reflexivity | ].
  split; [apply Hnew; reflexivity | ].
  intros k K1 K2 K3. apply Hold. unfold other.
  rewrite !lookup_insert_ne by congruence. apply lookup_empty.
Qed.

Lemma X13_witness :
  exists l h' d',
    cell_crop_meta 1%positive (4, 120, 80) MNone
      {[1%positive := {["height" := MInt 10980; "driver" := MText "JP2OpenJPEG"]}]}
    = Some (l, h')
    /\ l <> 1%positive
    /\ ({[1%positive := {["height" := MInt 10980; "driver" := MText "JP2OpenJPEG"]}]}
          : heap) !! l = None
    /\ (forall l0, l0 <> l ->
          h' !! l0
          = ({[1%positive := {["height" := MInt 10980;
                               "driver" := MText "JP2OpenJPEG"]}]} : heap) !! l0)
    /\ h' !! l = Some d'
    /\ d' !! "height" = Some (MInt 120)
    /\ d' !! "width" = Some (MInt 80)
    /\ d' !! "transform" = Some MNone
    /\ forall k, k <> "height" -> k <> "width" -> k <> "transform" ->
         d' !! k
         = ({["height" := MInt 10980; "driver" := MText "JP2OpenJPEG"]} : pydict) !! k.
Proof.
  exact (X13_crop_metadata 1%positive
           {["height" := MInt 10980; "driver" := MText "JP2OpenJPEG"]}
           {[1%positive := {["height" := MInt 10980; "driver" := MText "JP2OpenJPEG"]}]}
           4 120 80 MNone ltac:(apply lookup_singleton_eq)).
Defined.

(** X14.  The metadata of the NDVI file.  [seurasaariS2.meta.copy()]
    followed by [update] makes a new dictionary object and leaves the
    source dictionary and every other object as they were; its ["count"] is
    1 and its ["dtype"] is float64, and every other key (driver, size,
    transform, reference system, ...) has the entry of the source. *)
Theorem X14_ndvi_metadata (meta : positive) (d : pydict) (h : heap) :
  h !! meta = Some d ->
  exists l h' d',
    cell_ndvi_meta meta h = Some (l, h')
    /\ l <> meta /\ h !! l = None
    /\ (forall l0, l0 <> l -> h' !! l0 = h !! l0)
    /\ h' !! l = Some d'
    /\ d' !! "count" = Some (MInt 1)
    /\ d' !! "dtype" = Some (MText "float64")
    /\ forall k, k <> "count" -> k <> "dtype" -> d' !! k = d !! k.
Proof.
  intros Hl. unfold cell_ndvi_meta.
  set (other := <["count" := MInt 1]> (<["dtype" := MText "float64"]> ∅)).
  destruct (copy_update_spec meta d other h Hl)
    as (l & E & Hf & Hne & Hframe & Hnew & Hold).
  destruct (dict_copy meta h) as [[l0 h0] | ]; [ | discriminate].
  injection E as -> E. exists l. eexists. exists (other ∪ d).
  split; [rewrite E; reflexivity | ].
  split; [exact Hne | ]. split; [exact Hf | ]. split; [exact Hframe | ].
  split; [apply lookup_insert_eq | ].
  split; [apply Hnew; reflexivity | ].
  split; [apply Hnew; reflexivity | ].
  intros k K1 K2. apply Hold. unfold other.
  rewrite !lookup_insert_ne by congruence. apply lookup_empty.
Qed.

Lemma X14_witness :
  exists l h' d',
    cell_ndvi_meta 1%positive
      {[1%positive := {["count" := MInt 4; "dtype" := MText "uint16"]}]}
    = Some (l, h')
    /\ l <> 1%positive
    /\ ({[1%positive := {["count" := MInt 4; "dtype" := MText "uint16"]}]}
          : heap) !! l = None
    /\ (forall l0, l0 <> l ->
          h' !! l0
          = ({[1%positive := {["count" := MInt 4; "dtype" := MText "uint16"]}]}
               : heap) !! l0)
    /\ h' !! l = Some d'
    /\ d' !! "count" = Some (MInt 1)
    /\ d' !! "dtype" = Some (MText "float64")
    /\ forall k, k <> "count" -> k <> "dtype" ->
         d' !! k = ({["count" := MInt 4; "dtype" := MText "uint16"]} : pydict) !! k.
Proof.
  exact (X14_ndvi_metadata 1%positive
           {["count" := MInt 4; "dtype" := MText "uint16"]}
           {[1%positive := {["count" := MInt 4; "dtype" := MText "uint16"]}]}
           ltac:(apply lookup_singleton_eq)).
Defined.

(** ** The shapes that mask the NDVI *)

(** X15.  The selection of the forest polygons.  A single feature without
    the field ["raster_val"] makes the whole comprehension fail with
    [KeyError], whatever the other features hold; otherwise the result is
    the geometries of exactly the features whose field is 1, in the order
    of the file. *)
Theorem X15_forest_shapes_selection {geometry : Type}
    (shapefile : list (@feature geometry)) :
  forest_shapes shapefile
  = if forallb has_raster_val shapefile
    then inr (map geometry_of (List.filter is_forest shapefile))
    else inl (KeyError "raster_val").
Proof.
  induction shapefile as [ | ft rest IH];
    cbn [forest_shapes List.filter map forallb]; [reflexivity | ].
  unfold has_raster_val at 1, is_forest at 1.
  destruct (properties ft !! "raster_val") as [v | ]; [ | reflexivity].
  rewrite IH. cbn [andb].
  destruct (forallb has_raster_val rest); [ | reflexivity].
  destruct (v =? 1); reflexivity.
Qed.

(** X16.  From the records that are written to the shapes that are read.
    If the features of the file that is read carry the properties of the
    records the notebook made from the polygons of the mask (the geometries
    may have been reprojected), the selection raises no [KeyError] and
    returns the geometries of the features at the positions of the polygons
    of value 1, in their order. *)
Theorem X16_forest_shapes_of_results {geometry : Type}
    (shapes : list (geometry * Z)) (shapefile : list (@feature geometry)) :
  map properties shapefile = map properties (results shapes) ->
  forest_shapes shapefile
  = inr (map fst (List.filter (fun gv : geometry * Z => snd gv =? 1)
                    (zip (map geometry_of shapefile) (map snd shapes)))).
Proof.
  revert shapefile.
  induction shapes as [ | [s v] shapes IH]; intros [ | ft shapefile] H;
    cbn [results map] in H; try discriminate H; [reflexivity | ].
  injection H as Hp H. cbn [properties] in Hp.
  cbn [forest_shapes map zip_with List.filter fst snd].
  rewrite Hp, lookup_singleton_eq, (IH shapefile H).
  destruct (v =? 1); reflexivity.
Qed.

Lemma X16_witness :
  forest_shapes
    [ {| properties := {["raster_val" := 1]}; geometry_of := 11%nat |};
      {| properties := {["raster_val" := 0]}; geometry_of := 21%nat |};
      {| properties := {["raster_val" := 1]}; geometry_of := 31%nat |} ]
  = inr (map fst (List.filter (fun gv : nat * Z => snd gv =? 1)
                    (zip [11%nat; 21%nat; 31%nat] [1; 0; 1]))).
Proof.
  exact (X16_forest_shapes_of_results
           [(10%nat, 1); (20%nat, 0); (30%nat, 1)]
           [ {| properties := {["raster_val" := 1]}; geometry_of := 11%nat |};
             {| properties := {["raster_val" := 0]}; geometry_of := 21%nat |};
             {| properties := {["raster_val" := 1]}; geometry_of := 31%nat |} ]
           eq_refl).
Defined.

(** ** Rounding is monotone around the numbers that can be represented *)

Lemma digits_bounds (m : Z) :
  0 < m -> 2 ^ (Zdigits2 m - 1) <= m < 2 ^ Zdigits2 m.
Proof. destruct m; try lia. intros _. apply digits2_pos_bounds. Qed.

Lemma digits_pos (m : Z) : 0 < m -> 1 <= Zdigits2 m.
Proof. destruct m; cbn; lia. Qed.

Lemma digits_unique (m k : Z) :
  2 ^ (k - 1) <= m < 2 ^ k -> 0 < m -> Zdigits2 m = k.
Proof.
  intros [Hlo Hhi] Hm.
  pose proof (digits_bounds m Hm) as [Dlo Dhi].
  pose proof (digits_pos m Hm) as D1.
  assert (Hk : 0 < k).
  { destruct (Z.lt_trichotomy k 0) as [N | [-> | P]]; [ | | exact P].
    - rewrite Z.pow_neg_r in Hhi by lia. lia.
    - change (2 ^ 0) with 1 in Hhi. lia. }
  pose proof (pow2_lt_inv (k - 1) (Zdigits2 m) m ltac:(lia) (conj Hlo Dhi)).
  pose proof (pow2_lt_inv (Zdigits2 m - 1) k m ltac:(lia) (conj Dlo Hhi)).
  lia.
Qed.

Lemma digits_shift (m k : Z) :
  0 < m -> 0 <= k -> Zdigits2 (m * 2 ^ k) = Zdigits2 m + k.
Proof.
  intros Hm Hk. pose proof (digits_bounds m Hm) as [Dlo Dhi].
  pose proof (digits_pos m Hm) as D1.
  assert (P : 0 < 2 ^ k) by (apply Z.pow_pos_nonneg; lia).
  apply digits_unique; [ | nia].
  replace (Zdigits2 m + k - 1) with (Zdigits2 m - 1 + k) by lia.
  rewrite !Z.pow_add_r by lia. split; nia.
Qed.

Lemma shr_1_double (q : Z) :
  0 <= q ->
  shr_1 {| shr_m := 2 * q; shr_r := false; shr_s := false |}
  = {| shr_m := q; shr_r := false; shr_s := false |}.
Proof. destruct q; intros; try lia; reflexivity. Qed.

Lemma shr_iter_exact (n : positive) :
  forall q, 0 <= q ->
    SpecFloat.iter_pos shr_1 n
      {| shr_m := q * 2 ^ Zpos n; shr_r := false; shr_s := false |}
    = {| shr_m := q; shr_r := false; shr_s := false |}.
Proof.
  induction n as [n IH | n IH | ]; intros q Hq; cbn [SpecFloat.iter_pos].
  - assert (P : 0 < 2 ^ Zpos n) by (apply Z.pow_pos_nonneg; lia).
    replace (q * 2 ^ Zpos n~1) with (2 * ((q * 2 ^ Zpos n) * 2 ^ Zpos n)).
    + rewrite shr_1_double by nia. rewrite IH by nia. apply IH. exact Hq.
    + replace (Zpos n~1) with (Zpos n + Zpos n + 1) by lia.
      rewrite !Z.pow_add_r by lia. change (2 ^ 1) with 2. ring.
  - assert (P : 0 < 2 ^ Zpos n) by (apply Z.pow_pos_nonneg; lia).
    replace (q * 2 ^ Zpos n~0) with ((q * 2 ^ Zpos n) * 2 ^ Zpos n).
    + rewrite IH by nia. apply IH. exact Hq.
    + replace (Zpos n~0) with (Zpos n + Zpos n) by lia.
      rewrite !Z.pow_add_r by lia. ring.
  - change (2 ^ 1) with 2. rewrite (Z.mul_comm q 2). apply shr_1_double. exact Hq.
Qed.

(** Shifting an exact mantissa that is a multiple of the step leaves it
    exact. *)
Lemma shr_fexp_exact (q e k : Z) :
  0 < q -> 0 <= k ->
  fexp prec emax (Zdigits2 (q * 2 ^ k) + e) = e + k ->
  shr_fexp prec emax (q * 2 ^ k) e loc_Exact
  = ({| shr_m := q; shr_r := false; shr_s := false |}, e + k).
Proof.
  intros Hq Hk E. unfold shr_fexp, shr. rewrite E.
  replace (e + k - e) with k by lia. cbn [shr_record_of_loc].
  destruct k as [ | p | p]; try lia.
  - change (2 ^ 0) with 1. rewrite Z.mul_1_r, Z.add_0_r. reflexivity.
  - rewrite shr_iter_exact by lia. reflexivity.
Qed.

Lemma valid_finite_intro (s : bool) (m : positive) (e : Z) :
  e = Z.max (Zpos (digits2_pos m) + e - 53) (-1074) -> e <= 971 ->
  valid (S754_finite s m e) = true.
Proof.
  intros Hc He. unfold valid, valid_binary, bounded, canonical_mantissa.
  rewrite fexp_eq. apply andb_true_intro. split.
  - apply Z.eqb_eq. lia.
  - apply Z.leb_le. unfold emax, prec. lia.
Qed.

(** The result of rounding, on the grid of the numbers with the exponent
    [e1] of the binade of the input: the mantissa [m1] cut to the grid, or
    its successor; exact inputs on the grid are kept.  The input lies below
    the largest binade, or in it and its successor on the grid is still a
    number, or it is such a number itself. *)
Lemma binary_round_aux_grid (s : bool) (mx ex : Z) (l : location) :
  0 < mx -> -1074 <= ex ->
  ex <= fexp prec emax (Zdigits2 mx + ex) ->
  (fexp prec emax (Zdigits2 mx + ex) <= 970
   \/ (fexp prec emax (Zdigits2 mx + ex) = 971
       /\ (mx / 2 ^ (fexp prec emax (Zdigits2 mx + ex) - ex) + 1 < 2 ^ 53
           \/ (l = loc_Exact
               /\ mx = mx / 2 ^ (fexp prec emax (Zdigits2 mx + ex) - ex)
                       * 2 ^ (fexp prec emax (Zdigits2 mx + ex) - ex))))) ->
  exists m e r,
    binary_round_aux prec emax s mx ex l = S754_finite s m e
    /\ valid (S754_finite s m e) = true
    /\ Zpos m * 2 ^ (e + 1074)
       = r * 2 ^ (fexp prec emax (Zdigits2 mx + ex) + 1074)
    /\ mx / 2 ^ (fexp prec emax (Zdigits2 mx + ex) - ex) <= r
       <= mx / 2 ^ (fexp prec emax (Zdigits2 mx + ex) - ex) + 1
    /\ (l = loc_Exact ->
        mx = mx / 2 ^ (fexp prec emax (Zdigits2 mx + ex) - ex)
             * 2 ^ (fexp prec emax (Zdigits2 mx + ex) - ex) ->
        r = mx / 2 ^ (fexp prec emax (Zdigits2 mx + ex) - ex))
    /\ 0 < mx / 2 ^ (fexp prec emax (Zdigits2 mx + ex) - ex)
    /\ (fexp prec emax (Zdigits2 mx + ex) = -1074
        \/ 2 ^ 52 <= mx / 2 ^ (fexp prec emax (Zdigits2 mx + ex) - ex)).
Proof.
  intros Hm He Hn Hb.
  pose proof (digits_bounds mx Hm) as [Dlo Dhi].
  pose proof (digits_pos mx Hm) as D1.
  set (dg := Zdigits2 mx) in *.
  set (e1 := fexp prec emax (dg + ex)) in *.
  assert (Ee1 : e1 = Z.max (dg + ex - 53) (-1074)) by (unfold e1; apply fexp_eq).
  set (k := e1 - ex) in *.
  assert (Hk : 0 <= k) by (unfold k; lia).
  assert (Pk : 0 < 2 ^ k) by (apply Z.pow_pos_nonneg; lia).
  set (m1 := mx / 2 ^ k) in *.
  assert (M1hi : m1 < 2 ^ 53).
  { unfold m1. apply Z.div_lt_upper_bound; [exact Pk | ].
    rewrite <- Z.pow_add_r by lia.
    eapply Z.lt_le_trans; [exact Dhi | ]. apply Z.pow_le_mono_r; lia. }
  assert (M1lo : e1 = -1074 \/ 2 ^ 52 <= m1).
  { destruct (Z.eq_dec e1 (-1074)) as [ | Hne]; [left; assumption | right].
    unfold m1. apply Z.div_le_lower_bound; [exact Pk | ].
    rewrite Z.mul_comm, <- Z.pow_add_r by lia.
    eapply Z.le_trans; [ | exact Dlo]. apply Z.pow_le_mono_r; lia. }
  assert (M1pos : 0 < m1).
  { destruct M1lo as [E | L].
    - assert (k = 0) by (unfold k; lia).
      unfold m1. replace k with 0 by lia. change (2 ^ 0) with 1.
      rewrite Z.div_1_r. exact Hm.
    - assert (0 < 2 ^ 52) by (apply Z.pow_pos_nonneg; lia). lia. }
  unfold binary_round_aux.
  assert (X1 : l = loc_Exact -> mx = m1 * 2 ^ k ->
               loc_of_shr_record (fst (shr_fexp prec emax mx ex l)) = loc_Exact).
  { intros -> Hx. rewrite Hx at 1. rewrite shr_fexp_exact; [reflexivity | lia | lia | ].
    rewrite <- Hx. fold dg. fold e1. unfold k. lia. }
  pose proof (shr_fexp_value mx ex l Hm He) as [E1 V1].
  destruct (shr_fexp prec emax mx ex l) as [r1 e1']; cbn [fst snd] in *.
  fold dg in E1. fold e1 in E1.
  assert (Ee : e1' = e1) by lia. clear E1. subst e1'. fold k in V1. fold m1 in V1.
  pose proof (round_nearest_even_ge (shr_m r1) (loc_of_shr_record r1)) as G.
  pose proof (round_nearest_even_le (shr_m r1) (loc_of_shr_record r1)) as L.
  assert (X2 : l = loc_Exact -> mx = m1 * 2 ^ k ->
               round_nearest_even (shr_m r1) (loc_of_shr_record r1) = m1).
  { intros H1 H2. rewrite (X1 H1 H2), V1. reflexivity. }
  set (r := round_nearest_even (shr_m r1) (loc_of_shr_record r1)) in *.
  rewrite V1 in G, L. clear X1.
  assert (Hr : 0 < r) by lia.
  pose proof (shr_fexp_value r e1 loc_Exact Hr ltac:(lia)) as [E2 V2].
  pose proof (shr_fexp_pos r e1 loc_Exact Hr ltac:(lia)) as [P2 _].
  destruct (shr_fexp prec emax r e1 loc_Exact) as [r2 e2]; cbn [fst snd] in *.
  rewrite fexp_eq in E2.
  assert (P53 : 2 ^ 53 = 2 * 2 ^ 52) by reflexivity.
  destruct (Z.eq_dec r (2 ^ 53)) as [R53 | R53].
  - (* the mantissa overflows into the next binade *)
    assert (Dr : Zdigits2 r = 54) by (rewrite R53; reflexivity).
    rewrite Dr in E2. assert (Ee : e2 = e1 + 1) by lia. clear E2. subst e2.
    replace (e1 + 1 - e1) with 1 in V2 by lia.
    rewrite R53 in V2. change (2 ^ 53 / 2 ^ 1) with (2 ^ 52) in V2.
    rewrite V2. change (2 ^ 52) with (Zpos 4503599627370496).
    assert (Hok : e1 + 1 <= 971).
    { destruct Hb as [H970 | (H971 & [Hlt | (Hl & Hx)])]; [lia | lia | ].
      specialize (X2 Hl Hx). lia. }
    replace (e1 + 1 <=? emax - prec) with true
      by (symmetry; apply Z.leb_le; unfold emax, prec; lia).
    exists 4503599627370496%positive, (e1 + 1), r.
    split; [reflexivity | ].
    split; [apply valid_finite_intro; [cbn [digits2_pos]; lia | lia] | ].
    split.
    { rewrite R53. replace (e1 + 1 + 1074) with (1 + (e1 + 1074)) by lia.
      rewrite (Z.pow_add_r 2 1) by lia. change (2 ^ 1) with 2.
      change (Zpos 4503599627370496) with (2 ^ 52). rewrite P53. ring. }
    split; [lia | ]. split; [exact X2 | ]. split; [exact M1pos | exact M1lo].
  - assert (Rhi : r < 2 ^ 53) by lia.
    pose proof (digits_le_of_lt r 53 (conj Hr Rhi)) as Dr.
    assert (Ee : e2 = e1) by lia. clear E2. subst e2.
    rewrite Z.sub_diag in V2. change (2 ^ 0) with 1 in V2.
    rewrite Z.div_1_r in V2. rewrite V2.
    destruct r as [ | q | q] eqn:Er; try lia.
    assert (Hok : e1 <= 971) by (destruct Hb as [H970 | (H971 & _)]; lia).
    replace (e1 <=? emax - prec) with true
      by (symmetry; apply Z.leb_le; unfold emax, prec; lia).
    exists q, e1, (Zpos q).
    split; [reflexivity | ].
    split.
    { apply valid_finite_intro; [ | lia].
      change (Zpos (digits2_pos q)) with (Zdigits2 (Zpos q)).
      destruct M1lo as [E | Lo]; [lia | ].
      assert (Zdigits2 (Zpos q) = 53); [ | lia].
      apply digits_unique; [ | lia]. change (53 - 1) with 52. lia. }
    split; [reflexivity | ].
    split; [lia | ]. split; [exact X2 | ]. split; [exact M1pos | exact M1lo].
Qed.

(** A number that can be represented lies on the grid of every binade
    below its own, and below the binades above. *)
Lemma grid_monotone (mf : positive) (ef m1 e1 X : Z) :
  valid (S754_finite false mf ef) = true ->
  -1074 <= e1 -> e1 = -1074 \/ 2 ^ 52 <= m1 -> 0 < m1 ->
  m1 * 2 ^ (e1 + 1074) <= X < (m1 + 1) * 2 ^ (e1 + 1074) ->
  (Zpos mf * 2 ^ (ef + 1074) <= X ->
   Zpos mf * 2 ^ (ef + 1074) <= m1 * 2 ^ (e1 + 1074))
  /\ (X < Zpos mf * 2 ^ (ef + 1074) ->
      (m1 + 1) * 2 ^ (e1 + 1074) <= Zpos mf * 2 ^ (ef + 1074)).
Proof.
  intros Hv He1 Hm1 Pm1 [Xlo Xhi].
  pose proof (scaled_finite_bounds false mf ef Hv) as (_ & F53 & _).
  apply valid_finite in Hv as (He & Hd & Hc).
  set (g := 2 ^ (e1 + 1074)) in *.
  assert (Pg : 0 < g) by (apply Z.pow_pos_nonneg; lia).
  destruct (Z.le_gt_cases e1 ef) as [Hle | Hgt].
  - replace (ef + 1074) with ((ef - e1) + (e1 + 1074)) by lia.
    rewrite Z.pow_add_r by lia. fold g.
    assert (Pc : 0 < 2 ^ (ef - e1)) by (apply Z.pow_pos_nonneg; lia).
    set (c := Zpos mf * 2 ^ (ef - e1)).
    rewrite Z.mul_assoc. fold c. clearbody c g. clear - Xlo Xhi Pg. split; intros H.
    + assert (c < m1 + 1) by (apply (Z.mul_lt_mono_pos_r g); lia).
      apply Z.mul_le_mono_nonneg_r; lia.
    + assert (m1 < c) by (apply (Z.mul_lt_mono_pos_r g); lia).
      apply Z.mul_le_mono_nonneg_r; lia.
  - destruct Hm1 as [E | Lo]; [lia | ].
    assert (Hs : Zpos mf * 2 ^ (ef + 1074) < 2 ^ 52 * g).
    { unfold g. replace (e1 + 1074) with ((e1 - ef - 1) + 1 + (ef + 1074)) by lia.
      rewrite (Z.pow_add_r 2 (e1 - ef - 1 + 1) (ef + 1074)),
        (Z.pow_add_r 2 (e1 - ef - 1) 1) by lia.
      change (2 ^ 1) with 2.
      assert (0 < 2 ^ (ef + 1074)) by (apply Z.pow_pos_nonneg; lia).
      assert (0 < 2 ^ (e1 - ef - 1)) by (apply Z.pow_pos_nonneg; lia).
      change (2 ^ 53) with (2 ^ 52 * 2) in F53.
      assert (0 < 2 ^ 52) by (apply Z.pow_pos_nonneg; lia).
      set (u := 2 ^ (ef + 1074)) in *. set (w := 2 ^ (e1 - ef - 1)) in *.
      set (t := 2 ^ 52) in *.
      assert (Zpos mf * u < t * 2 * u) by nia.
      assert (t * 2 * u <= t * (w * 2 * u)) by nia. lia. }
    split; intros H; nia.
Qed.

(** Rounding to nearest is monotone around every positive number that can
    be represented, and keeps such a number. *)
Lemma binary_round_aux_monotone_gen (s : bool) (mx ex : Z) (l : location) :
  0 < mx -> -1074 <= ex ->
  ex <= fexp prec emax (Zdigits2 mx + ex) ->
  (fexp prec emax (Zdigits2 mx + ex) <= 970
   \/ (fexp prec emax (Zdigits2 mx + ex) = 971
       /\ (mx / 2 ^ (fexp prec emax (Zdigits2 mx + ex) - ex) + 1 < 2 ^ 53
           \/ (l = loc_Exact
               /\ mx = mx / 2 ^ (fexp prec emax (Zdigits2 mx + ex) - ex)
                       * 2 ^ (fexp prec emax (Zdigits2 mx + ex) - ex))))) ->
  exists m e,
    binary_round_aux prec emax s mx ex l = S754_finite s m e
    /\ valid (S754_finite s m e) = true
    /\ forall mf ef,
         valid (S754_finite false mf ef) = true ->
         (Zpos mf * 2 ^ (ef + 1074) <= mx * 2 ^ (ex + 1074) ->
          Zpos mf * 2 ^ (ef + 1074) <= Zpos m * 2 ^ (e + 1074))
         /\ (mx * 2 ^ (ex + 1074) < Zpos mf * 2 ^ (ef + 1074) ->
             Zpos m * 2 ^ (e + 1074) <= Zpos mf * 2 ^ (ef + 1074))
         /\ (l = loc_Exact ->
             mx * 2 ^ (ex + 1074) = Zpos mf * 2 ^ (ef + 1074) ->
             Zpos m * 2 ^ (e + 1074) = Zpos mf * 2 ^ (ef + 1074)).
Proof.
  intros Hm He Hn Hb.
  destruct (binary_round_aux_grid s mx ex l Hm He Hn Hb)
    as (m & e & r & Er & Hv & Hval & Hr & Hex & Pm1 & Hm1).
  exists m, e. split; [exact Er | ]. split; [exact Hv | ].
  set (e1 := fexp prec emax (Zdigits2 mx + ex)) in *.
  assert (Ee1 : -1074 <= e1) by (unfold e1; rewrite fexp_eq; lia).
  set (k := e1 - ex) in *.
  assert (Hk : 0 <= k) by (unfold k; lia).
  assert (Pk : 0 < 2 ^ k) by (apply Z.pow_pos_nonneg; lia).
  set (m1 := mx / 2 ^ k) in *.
  set (u := 2 ^ (ex + 1074)).
  assert (Pu : 0 < u) by (apply Z.pow_pos_nonneg; lia).
  assert (Eg : 2 ^ (e1 + 1074) = 2 ^ k * u).
  { unfold u, k. rewrite <- Z.pow_add_r by lia. f_equal. lia. }
  pose proof (Z.div_mod mx (2 ^ k) ltac:(lia)) as Hdm. fold m1 in Hdm.
  pose proof (Z.mod_pos_bound mx (2 ^ k) Pk) as Hmod.
  assert (Xb : m1 * 2 ^ (e1 + 1074) <= mx * u < (m1 + 1) * 2 ^ (e1 + 1074)).
  { rewrite Eg. split; nia. }
  intros mf ef Hf.
  destruct (grid_monotone mf ef m1 e1 (mx * u) Hf Ee1 Hm1 Pm1 Xb) as [G1 G2].
  rewrite Hval. set (F := Zpos mf * 2 ^ (ef + 1074)) in *.
  assert (Pg : 0 < 2 ^ (e1 + 1074)) by (apply Z.pow_pos_nonneg; lia).
  split; [ | split].
  - intros H. specialize (G1 H). nia.
  - intros H. specialize (G2 H). nia.
  - intros Hl H.
    assert (Hon : mx * u = m1 * 2 ^ (e1 + 1074)) by (specialize (G1 ltac:(lia)); lia).
    assert (Hx : mx = m1 * 2 ^ k) by (rewrite Eg in Hon; nia).
    rewrite (Hex Hl Hx). lia.
Qed.

Lemma binary_round_aux_monotone (s : bool) (mx ex : Z) (l : location) :
  0 < mx -> -1074 <= ex ->
  ex <= fexp prec emax (Zdigits2 mx + ex) ->
  Zdigits2 mx + ex <= 1023 ->
  exists m e,
    binary_round_aux prec emax s mx ex l = S754_finite s m e
    /\ valid (S754_finite s m e) = true
    /\ forall mf ef,
         valid (S754_finite false mf ef) = true ->
         (Zpos mf * 2 ^ (ef + 1074) <= mx * 2 ^ (ex + 1074) ->
          Zpos mf * 2 ^ (ef + 1074) <= Zpos m * 2 ^ (e + 1074))
         /\ (mx * 2 ^ (ex + 1074) < Zpos mf * 2 ^ (ef + 1074) ->
             Zpos m * 2 ^ (e + 1074) <= Zpos mf * 2 ^ (ef + 1074))
         /\ (l = loc_Exact ->
             mx * 2 ^ (ex + 1074) = Zpos mf * 2 ^ (ef + 1074) ->
             Zpos m * 2 ^ (e + 1074) = Zpos mf * 2 ^ (ef + 1074)).
Proof.
  intros Hm He Hn Hb.
  apply binary_round_aux_monotone_gen; [exact Hm | exact He | exact Hn | ].
  left. rewrite fexp_eq. lia.
Qed.

Lemma binary_round_monotone (s : bool) (p : positive) (e : Z) :
  -1074 <= e -> Zpos (digits2_pos p) + e <= 1023 ->
  exists m' e',
    binary_round prec emax s p e = S754_finite s m' e'
    /\ valid (S754_finite s m' e') = true
    /\ forall mf ef,
         valid (S754_finite false mf ef) = true ->
         (Zpos mf * 2 ^ (ef + 1074) <= Zpos p * 2 ^ (e + 1074) ->
          Zpos mf * 2 ^ (ef + 1074) <= Zpos m' * 2 ^ (e' + 1074))
         /\ (Zpos p * 2 ^ (e + 1074) <= Zpos mf * 2 ^ (ef + 1074) ->
             Zpos m' * 2 ^ (e' + 1074) <= Zpos mf * 2 ^ (ef + 1074)).
Proof.
  intros He Hb. unfold binary_round.
  pose proof (shl_align_exp p e (fexp prec emax (Zpos (digits2_pos p) + e))) as E1.
  pose proof (shl_align_value p e (fexp prec emax (Zpos (digits2_pos p) + e))) as V1.
  destruct (shl_align p e (fexp prec emax (Zpos (digits2_pos p) + e)))
    as [mz ez]; cbn [fst snd] in *.
  rewrite <- E1 in V1.
  assert (Hf : -1074 <= fexp prec emax (Zpos (digits2_pos p) + e))
    by (rewrite fexp_eq; lia).
  assert (Hez : -1074 <= ez <= e) by lia.
  assert (Dz : Zdigits2 (Zpos mz) + ez = Zpos (digits2_pos p) + e).
  { rewrite V1, digits_shift by lia. cbn [Zdigits2]. lia. }
  destruct (binary_round_aux_monotone s (Zpos mz) ez loc_Exact)
    as (m' & e' & Er & Hv & Hmono); try lia.
  { rewrite Dz. lia. }
  exists m', e'. split; [exact Er | ]. split; [exact Hv | ].
  assert (EX : Zpos mz * 2 ^ (ez + 1074) = Zpos p * 2 ^ (e + 1074)).
  { rewrite V1, <- Z.mul_assoc, <- Z.pow_add_r by lia. do 2 f_equal. lia. }
  intros mf ef Hvf. destruct (Hmono mf ef Hvf) as (M1 & M2 & M3).
  rewrite EX in M1, M2, M3. split; [exact M1 | ].
  intros H. destruct (Z.eq_dec (Zpos p * 2 ^ (e + 1074)) (Zpos mf * 2 ^ (ef + 1074)))
    as [Heq | Hne].
  - rewrite (M3 eq_refl Heq). lia.
  - apply M2. lia.
Qed.

(** ** The quotient of a number by a larger one *)

Lemma scaled_one : scaled one = 2 ^ 1074.
Proof. reflexivity. Qed.

Lemma valid_one : valid one = true.
Proof. reflexivity. Qed.

Lemma round_zero_mantissa (s : bool) (l : location) :
  binary_round_aux prec emax s 0 (-1074) l = S754_zero s
  \/ binary_round_aux prec emax s 0 (-1074) l = S754_finite s 1 (-1074).
Proof. destruct l as [ | [ | | ]]; cbn; auto. Qed.

Lemma shift_match (m sh : Z) :
  0 <= sh ->
  match sh with
  | 0 => m
  | Zpos _ => Z.shiftl m sh
  | Zneg _ => 0
  end = m * 2 ^ sh.
Proof.
  intros H. destruct sh as [ | p | p]; try lia.
  apply Z.shiftl_mul_pow2. lia.
Qed.

Lemma div_below_one (ma ms : positive) (ea es : Z) :
  valid (S754_finite false ma ea) = true ->
  valid (S754_finite false ms es) = true ->
  es <= 0 ->
  Zpos ma * 2 ^ (ea + 1074) < Zpos ms * 2 ^ (es + 1074) ->
  valid (div (S754_finite false ma ea) (S754_finite false ms es)) = true
  /\ is_finite (div (S754_finite false ma ea) (S754_finite false ms es)) = true
  /\ leb zero (div (S754_finite false ma ea) (S754_finite false ms es)) = true
  /\ leb (div (S754_finite false ma ea) (S754_finite false ms es)) one = true.
Proof.
  intros Va Vs Hes Hlt.
  pose proof (valid_finite _ _ _ Va) as (Hea & _ & _).
  pose proof (valid_finite _ _ _ Vs) as (Hes' & _ & _).
  unfold div, SFdiv, SFdiv_core_binary. cbn [xorb].
  pose proof (digits_bounds (Zpos ma) ltac:(lia)) as [Alo Ahi].
  pose proof (digits_bounds (Zpos ms) ltac:(lia)) as [Slo Shi].
  pose proof (digits_pos (Zpos ma) ltac:(lia)) as Da.
  pose proof (digits_pos (Zpos ms) ltac:(lia)) as Ds.
  set (d1 := Zdigits2 (Zpos ma)) in *. set (d2 := Zdigits2 (Zpos ms)) in *.
  set (dl := d1 + ea - (d2 + es)).
  assert (Hdl : dl <= 0).
  { assert (H : 2 ^ (d1 - 1 + (ea + 1074)) < 2 ^ (d2 + (es + 1074))).
    { rewrite (Z.pow_add_r 2 (d1 - 1) (ea + 1074)),
        (Z.pow_add_r 2 d2 (es + 1074)) by lia.
      assert (Pa : 0 < 2 ^ (ea + 1074)) by (apply Z.pow_pos_nonneg; lia).
      assert (Ps : 0 < 2 ^ (es + 1074)) by (apply Z.pow_pos_nonneg; lia).
      eapply Z.le_lt_trans;
        [apply Z.mul_le_mono_nonneg_r; [lia | exact Alo] | ].
      eapply Z.lt_trans; [exact Hlt | ].
      apply Z.mul_lt_mono_pos_r; [exact Ps | exact Shi]. }
    apply Z.pow_lt_mono_r_iff in H; unfold dl; lia. }
  rewrite fexp_eq.
  set (e' := Z.min (Z.max (dl - 53) (-1074)) (ea - es)).
  assert (He' : -1074 <= e' <= -53) by (unfold e'; lia).
  set (sh := ea - es - e').
  assert (Hsh : 0 <= sh) by (unfold sh, e'; lia).
  assert (Em : match sh with
               | 0 => Zpos ma
               | Zpos _ => Z.shiftl (Zpos ma) sh
               | Zneg _ => 0
               end = Zpos ma * 2 ^ sh).
  { apply shift_match. exact Hsh. }
  rewrite Em.
  pose proof (Z_div_mod (Zpos ma * 2 ^ sh) (Zpos ms) ltac:(lia)) as Hqr.
  destruct (Z.div_eucl (Zpos ma * 2 ^ sh) (Zpos ms)) as [q r].
  destruct Hqr as [Eq Hr].
  assert (Psh : 0 < 2 ^ sh) by (apply Z.pow_pos_nonneg; lia).
  assert (Hq0 : 0 <= q) by nia.
  (* the quotient is below one *)
  assert (Hq1 : q < 2 ^ (- e')).
  { set (u := 2 ^ (es + 1074)).
    assert (Pu : 0 < u) by (apply Z.pow_pos_nonneg; lia).
    assert (E1 : 2 ^ sh * u = 2 ^ (ea + 1074) * 2 ^ (- e')).
    { unfold u, sh. rewrite <- !Z.pow_add_r by lia. f_equal. lia. }
    assert (P' : 0 < 2 ^ (- e')) by (apply Z.pow_pos_nonneg; lia).
    assert (H1 : q * (Zpos ms * u) <= Zpos ma * 2 ^ (ea + 1074) * 2 ^ (- e')).
    { rewrite <- Z.mul_assoc, <- E1. nia. }
    assert (H2 : q * (Zpos ms * u) < Zpos ms * u * 2 ^ (- e')).
    { eapply Z.le_lt_trans; [exact H1 | ].
      apply Z.mul_lt_mono_pos_r; [exact P' | exact Hlt]. }
    assert (0 < Zpos ms * u) by lia.
    set (S := Zpos ms * u) in *. clearbody S. clear - H2 H. nia. }
  destruct (Z.eq_dec q 0) as [-> | Hq].
  - (* a quotient below the smallest positive number *)
    assert (Ee : e' = -1074).
    { destruct (Z.eq_dec e' (-1074)) as [ | Hne]; [assumption | exfalso].
      assert (Hs : d2 - d1 + 53 <= sh) by (unfold sh, e', dl in *; lia).
      assert (H1 : 2 ^ (d1 - 1) * 2 ^ sh <= Zpos ma * 2 ^ sh)
        by (apply Z.mul_le_mono_nonneg_r; lia).
      rewrite <- Z.pow_add_r in H1 by lia.
      assert (2 ^ d2 <= 2 ^ (d1 - 1 + sh)) by (apply Z.pow_le_mono_r; lia).
      lia. }
    rewrite Ee.
    destruct (round_zero_mantissa false (new_location (Zpos ms) r)) as [-> | ->];
      repeat split; reflexivity.
  - assert (Pq : 0 < q) by lia.
    assert (Dq : Zdigits2 q + e' <= 0).
    { pose proof (digits_le_of_lt q (- e') (conj Pq Hq1)). lia. }
    assert (Hn : e' <= fexp prec emax (Zdigits2 q + e')).
    { rewrite fexp_eq.
      destruct (Z.eq_dec e' (-1074)) as [ | Hne]; [lia | ].
      assert (Hs : d2 - d1 + 53 <= sh) by (unfold sh, e', dl in *; lia).
      assert (He2 : e' <= dl - 53) by (unfold e' in *; lia).
      assert (Hq2 : 2 ^ (d1 + sh - d2 - 1) <= q).
      { assert (H1 : 2 ^ (d1 + sh - d2 - 1) * 2 ^ d2 <= Zpos ma * 2 ^ sh).
        { rewrite <- Z.pow_add_r by lia.
          replace (d1 + sh - d2 - 1 + d2) with (d1 - 1 + sh) by lia.
          rewrite Z.pow_add_r by lia.
          apply Z.mul_le_mono_nonneg_r; lia. }
        assert (P2 : 0 < 2 ^ (d1 + sh - d2 - 1)) by (apply Z.pow_pos_nonneg; lia).
        set (t := 2 ^ (d1 + sh - d2 - 1)) in *.
        destruct (Z.le_gt_cases t q) as [ | Hgt]; [assumption | exfalso].
        assert (q + 1 <= t) by lia.
        assert (Zpos ms * (q + 1) <= Zpos ms * t) by (apply Z.mul_le_mono_nonneg_l; lia).
        assert (t * Zpos ms < t * 2 ^ d2) by (apply Z.mul_lt_mono_pos_l; lia).
        lia. }
      pose proof (digits_bounds q Pq) as [_ Qhi].
      assert (d1 + sh - d2 - 1 < Zdigits2 q).
      { apply (pow2_lt_inv _ _ q); [ | split; [exact Hq2 | exact Qhi]].
        pose proof (digits_pos q Pq). lia. }
      unfold sh, dl in *. lia. }
    destruct (binary_round_aux_monotone false q e' (new_location (Zpos ms) r)
                Pq ltac:(lia) Hn ltac:(lia))
      as (m & e & -> & Vr & Hmono).
    pose proof valid_one as V1. rewrite one_eq in V1.
    destruct (Hmono _ _ V1) as (_ & M2 & _).
    split; [exact Vr | ]. split; [reflexivity | ]. split; [reflexivity | ].
    apply leb_scaled; [exact Vr | reflexivity | reflexivity | reflexivity | ].
    rewrite scaled_one. cbn [scaled cond_Zopp].
    change (Zpos 4503599627370496 * 2 ^ (-52 + 1074)) with (2 ^ 1074) in M2.
    apply M2.
    replace (2 ^ 1074) with (2 ^ (- e') * 2 ^ (e' + 1074))
      by (rewrite <- Z.pow_add_r by lia; f_equal; lia).
    apply Z.mul_lt_mono_pos_r; [apply Z.pow_pos_nonneg; lia | exact Hq1].
Qed.

(** ** The range of the index *)

Lemma scaled_align (m : positive) (e emin : Z) :
  -1074 <= emin <= e ->
  Zpos m * 2 ^ (e + 1074) = Zpos m * 2 ^ (e - emin) * 2 ^ (emin + 1074).
Proof.
  intros H. rewrite <- Z.mul_assoc, <- Z.pow_add_r by lia. do 2 f_equal. lia.
Qed.

Lemma scaled_inj (mx my : positive) (ex ey : Z) :
  valid (S754_finite false mx ex) = true ->
  valid (S754_finite false my ey) = true ->
  Zpos mx * 2 ^ (ex + 1074) = Zpos my * 2 ^ (ey + 1074) ->
  ex = ey /\ mx = my.
Proof.
  intros Vx Vy H.
  apply valid_finite in Vx as (Hex & _ & Cx).
  apply valid_finite in Vy as (Hey & _ & Cy).
  apply canonical_unique; [exact Cx | exact Cy | ].
  rewrite (scaled_align mx ex (Z.min ex ey)), (scaled_align my ey (Z.min ex ey)) in H
    by lia.
  apply Z.mul_reg_r in H; [exact H | ].
  assert (0 < 2 ^ (Z.min ex ey + 1074)) by (apply Z.pow_pos_nonneg; lia). lia.
Qed.

Lemma unit_sample_scaled (m : positive) (e : Z) :
  unit_sample (S754_finite false m e) = true ->
  valid (S754_finite false m e) = true
  /\ Zpos m * 2 ^ (e + 1074) <= 2 ^ 1074.
Proof.
  intros H. unfold unit_sample in H.
  apply andb_prop in H as [H Hle]. apply andb_prop in H as [H _].
  apply andb_prop in H as [Hv _]. split; [exact Hv | ].
  apply leb_scaled in Hle; [ | exact Hv | reflexivity | reflexivity | reflexivity].
  rewrite scaled_one in Hle. exact Hle.
Qed.

(** The index of two reflectances of which the first is the larger one. *)
Lemma ndvi_pixel_ordered (mn md : positive) (en ed : Z) :
  unit_sample (S754_finite false mn en) = true ->
  unit_sample (S754_finite false md ed) = true ->
  Zpos md * 2 ^ (ed + 1074) < Zpos mn * 2 ^ (en + 1074) ->
  is_zero (sub (S754_finite false mn en) (S754_finite false md ed)) = false
  /\ valid (ndvi_pixel (S754_finite false mn en) (S754_finite false md ed)) = true
  /\ is_finite (ndvi_pixel (S754_finite false mn en) (S754_finite false md ed)) = true
  /\ leb zero (ndvi_pixel (S754_finite false mn en) (S754_finite false md ed)) = true
  /\ leb (ndvi_pixel (S754_finite false mn en) (S754_finite false md ed)) one = true.
Proof.
  intros Un Ud Hlt.
  destruct (unit_sample_scaled _ _ Un) as [Vn Nle].
  destruct (unit_sample_scaled _ _ Ud) as [Vd Dle].
  apply unit_sample_finite in Un as (_ & Hen & Hmn & _).
  apply unit_sample_finite in Ud as (_ & Hed & Hmd & _).
  assert (en <= 1).
  { destruct (Z.le_gt_cases en 1); [assumption | ].
    rewrite Z.pow_neg_r in Hmn by lia. lia. }
  assert (ed <= 1).
  { destruct (Z.le_gt_cases ed 1); [assumption | ].
    rewrite Z.pow_neg_r in Hmd by lia. lia. }
  unfold ndvi_pixel. rewrite sub_finite_finite, add_finite_finite.
  set (emin := Z.min en ed) in *.
  pose proof (aligned_bound mn en emin Hmn ltac:(lia) ltac:(lia)) as Bn.
  pose proof (aligned_bound md ed emin Hmd ltac:(lia) ltac:(lia)) as Bd.
  pose proof (scaled_align mn en emin ltac:(lia)) as An.
  pose proof (scaled_align md ed emin ltac:(lia)) as Ad.
  set (u := 2 ^ (emin + 1074)) in *.
  assert (Pu : 0 < u) by (apply Z.pow_pos_nonneg; lia).
  set (N := Zpos mn * 2 ^ (en + 1074)) in *.
  set (D := Zpos md * 2 ^ (ed + 1074)) in *.
  set (an := Zpos mn * 2 ^ (en - emin)) in *.
  set (ad := Zpos md * 2 ^ (ed - emin)) in *.
  assert (Pd : 0 < ad)
    by (apply Z.mul_pos_pos; [lia | apply Z.pow_pos_nonneg; lia]).
  assert (Hgt : ad < an).
  { apply (Z.mul_lt_mono_pos_r u); [exact Pu | ]. rewrite <- An, <- Ad. exact Hlt. }
  assert (PD : 0 < D) by (rewrite Ad; apply Z.mul_pos_pos; assumption).
  assert (P2 : 2 ^ (2 - emin) = 2 * 2 ^ (1 - emin)).
  { replace (2 - emin) with (Z.succ (1 - emin)) by lia.
    apply Z.pow_succ_r. lia. }
  assert (V2 : valid (S754_finite false 4503599627370496 (-51)) = true) by reflexivity.
  assert (E2 : Zpos 4503599627370496 * 2 ^ (-51 + 1074) = 2 * 2 ^ 1074) by reflexivity.
  assert (E3 : 2 ^ 1075 = 2 * 2 ^ 1074) by reflexivity.
  assert (PT : 0 < 2 ^ 1074) by (apply Z.pow_pos_nonneg; lia).
  set (T := 2 ^ 1074) in *. clearbody T.
  (* the difference *)
  destruct (an - ad) as [ | p | p] eqn:Ep; try lia. cbn [binary_normalize].
  destruct (binary_round_monotone false p emin ltac:(lia)) as (ma & ea & -> & Va & Ma).
  { pose proof (digits_le_of_lt (Zpos p) (1 - emin) ltac:(lia)) as H1.
    cbn [Zdigits2] in H1. lia. }
  destruct (Ma mn en Vn) as [_ A2]. fold u in A2. fold N in A2.
  assert (EA : Zpos p * u = N - D)
    by (rewrite <- Ep, Z.mul_sub_distr_r, <- An, <- Ad; reflexivity).
  rewrite EA in A2.
  assert (HA : Zpos ma * 2 ^ (ea + 1074) <= N) by (apply A2; lia).
  (* the sum *)
  destruct (an + ad) as [ | p' | p'] eqn:Ep'; try lia. cbn [binary_normalize].
  destruct (binary_round_monotone false p' emin ltac:(lia)) as (ms & es & -> & Vs & Ms).
  { pose proof (digits_le_of_lt (Zpos p') (2 - emin) ltac:(lia)) as H1.
    cbn [Zdigits2] in H1. lia. }
  assert (ES : Zpos p' * u = N + D)
    by (rewrite <- Ep', Z.mul_add_distr_r, <- An, <- Ad; reflexivity).
  destruct (Ms mn en Vn) as [S1 _]. fold u in S1. fold N in S1. rewrite ES in S1.
  assert (HS : N <= Zpos ms * 2 ^ (es + 1074)) by (apply S1; lia).
  destruct (Ms _ _ V2) as [_ S2]. fold u in S2. rewrite ES, E2 in S2.
  assert (HS2 : Zpos ms * 2 ^ (es + 1074) <= 2 * T) by (apply S2; lia).
  assert (Hes : es <= 0).
  { pose proof (scaled_finite_bounds false ms es Vs) as (_ & _ & Hn).
    destruct (Z.le_gt_cases es 0) as [ | Hgt0]; [assumption | exfalso].
    specialize (Hn ltac:(lia)).
    assert (Hw : 2 ^ 1075 <= 2 ^ (es + 1074)) by (apply Z.pow_le_mono_r; lia).
    rewrite E3 in Hw.
    assert (H52 : 2 <= 2 ^ 52) by (change (2 ^ 52) with 4503599627370496; lia).
    set (w := 2 ^ (es + 1074)) in *. clearbody w.
    assert (2 * w <= Zpos ms * w) by (apply Z.mul_le_mono_nonneg_r; lia).
    lia. }
  split; [reflexivity | ].
  destruct (Z.eq_dec (Zpos ma * 2 ^ (ea + 1074)) (Zpos ms * 2 ^ (es + 1074)))
    as [Heq | Hne].
  - destruct (scaled_inj ma ms ea es Va Vs Heq) as [-> ->].
    rewrite div_self. repeat split; reflexivity.
  - apply div_below_one; [exact Va | exact Vs | exact Hes | lia].
Qed.

Lemma scaled_opp (x : f64) : scaled (SFopp x) = - scaled x.
Proof.
  destruct x as [ | [ | ] | | [ | ] m e]; cbn [SFopp scaled cond_Zopp negb]; lia.
Qed.

Lemma valid_opp (x : f64) : valid (SFopp x) = valid x.
Proof. destruct x; reflexivity. Qed.

Lemma unit_range_ndvi_sample (x : f64) :
  valid x = true -> is_finite x = true ->
  leb zero x = true -> leb x one = true ->
  ndvi_sample x = true /\ ndvi_sample (SFopp x) = true.
Proof.
  intros Hv Hf H0 H1.
  assert (Nx : is_nan x = false) by (destruct x; try discriminate; reflexivity).
  apply leb_scaled in H0; [ | reflexivity | exact Hv | reflexivity | exact Nx].
  apply leb_scaled in H1; [ | exact Hv | reflexivity | exact Nx | reflexivity].
  rewrite scaled_one in H1. change (scaled zero) with 0 in H0.
  assert (P : 0 < 2 ^ 1074) by (apply Z.pow_pos_nonneg; lia).
  assert (Em : scaled (of_Z (-1)) = - 2 ^ 1074) by reflexivity.
  unfold ndvi_sample. rewrite valid_opp, Hv, Nx.
  replace (is_nan (SFopp x)) with false by (destruct x; try discriminate; reflexivity).
  replace (is_finite (SFopp x)) with true by (destruct x; try discriminate; reflexivity).
  rewrite Hf. cbn [andb orb].
  assert (No : is_nan (SFopp x) = false)
    by (destruct x; try discriminate; reflexivity).
  split; apply andb_true_intro; split; apply leb_scaled;
    try reflexivity; try assumption; try (rewrite valid_opp; assumption);
    rewrite ?scaled_opp, ?Em, ?scaled_one; lia.
Qed.

Lemma ndvi_pixel_range (n d : f64) :
  unit_or_nodata n = true -> unit_or_nodata d = true ->
  ndvi_sample (ndvi_pixel n d) = true.
Proof.
  unfold unit_or_nodata. intros Hn Hd.
  apply orb_prop in Hn. apply orb_prop in Hd.
  destruct Hn as [Hn | Un].
  { destruct n; try discriminate. destruct d; reflexivity. }
  destruct Hd as [Hd | Ud].
  { destruct d; try discriminate. destruct n; reflexivity. }
  destruct n as [sn | sn | | sn mn en]; try discriminate;
    destruct d as [sd | sd | | sd md ed]; try discriminate.
  - destruct sn, sd; reflexivity.
  - apply unit_sample_finite in Ud as (-> & _).
    unfold ndvi_pixel.
    change (sub (S754_zero sn) (S754_finite false md ed))
      with (SFopp (S754_finite false md ed)).
    change (add (S754_zero sn) (S754_finite false md ed))
      with (S754_finite false md ed).
    rewrite div_opp_l, div_self. reflexivity.
  - apply unit_sample_finite in Un as (-> & _).
    unfold ndvi_pixel.
    change (sub (S754_finite false mn en) (S754_zero sd))
      with (S754_finite false mn en).
    change (add (S754_finite false mn en) (S754_zero sd))
      with (S754_finite false mn en).
    rewrite div_self. reflexivity.
  - pose proof (unit_sample_finite _ _ _ Un) as (-> & _).
    pose proof (unit_sample_finite _ _ _ Ud) as (-> & _).
    destruct (unit_sample_scaled _ _ Un) as [Vn _].
    destruct (unit_sample_scaled _ _ Ud) as [Vd _].
    destruct (Z.lt_trichotomy (Zpos md * 2 ^ (ed + 1074)) (Zpos mn * 2 ^ (en + 1074)))
      as [Hlt | [Heq | Hgt]].
    + destruct (ndvi_pixel_ordered mn md en ed Un Ud Hlt) as (_ & V & F & L0 & L1).
      apply (unit_range_ndvi_sample _ V F L0 L1).
    + destruct (scaled_inj md mn ed en Vd Vn Heq) as [-> ->].
      rewrite ndvi_pixel_same by (exact Vn || reflexivity). reflexivity.
    + destruct (ndvi_pixel_ordered md mn ed en Ud Un Hgt) as (Z0 & V & F & L0 & L1).
      rewrite (ndvi_pixel_swap _ _ Z0).
      apply (unit_range_ndvi_sample _ V F L0 L1).
Qed.

Lemma all2d_zip2d {T U V} (p : T -> bool) (q : U -> bool) (w : V -> bool)
    (f : T -> U -> V) (a : array2 T) (b : array2 U) :
  (forall x y, p x = true -> q y = true -> w (f x y) = true) ->
  all2d p a = true -> all2d q b = true -> all2d w (zip2d f a b) = true.
Proof.
  intros H. unfold all2d, zip2d. revert b.
  induction a as [ | ra a IH]; intros [ | rb b] Ha Hb; try reflexivity.
  cbn [forallb zip_with] in *.
  apply andb_prop in Ha as [Ha1 Ha2]. apply andb_prop in Hb as [Hb1 Hb2].
  apply andb_true_intro. split; [ | apply IH; assumption].
  clear - H Ha1 Hb1. revert rb Hb1.
  induction ra as [ | x ra IH]; intros [ | y rb] Hb1; try reflexivity.
  cbn [forallb zip_with] in *.
  apply andb_prop in Ha1 as [P1 P2]. apply andb_prop in Hb1 as [Q1 Q2].
  apply andb_true_intro. split; [apply H; assumption | apply IH; assumption].
Qed.

(** X17.  The index lies between -1 and 1.  For two bands of one shape
    whose samples are no-data or reflectances from 0 to 1, under an error
    setting that raises nothing, the NDVI is computed, has the shape of the
    bands, and each of its samples is no-data or a finite binary64 number
    [x] with [-1 <= x <= 1]: no rounding of the difference, the sum or the
    quotient leads out of the range. *)
Theorem X17_ndvi_between_minus_one_and_one
    (r c : nat) (nir red : array2 f64) (st : errstate) :
  is_shape r c nir = true -> is_shape r c red = true ->
  all2d unit_or_nodata nir = true -> all2d unit_or_nodata red = true ->
  no_raise st ->
  exists v,
    result (ndvi nir red st) = inr v
    /\ is_shape r c v = true
    /\ all2d ndvi_sample v = true.
Proof.
  intros Hn Hr Un Ur Hst.
  destruct (ndvi_same_shape r c nir red st Hn Hr Hst) as [E _].
  exists (zip2d ndvi_pixel nir red). split; [exact E | ]. split.
  - apply is_shape_zip2d; assumption.
  - apply (all2d_zip2d unit_or_nodata unit_or_nodata); [ | assumption | assumption].
    exact ndvi_pixel_range.
Qed.

Lemma X17_witness :
  exists v,
    result (ndvi [[half; zero]; [fifth; nan]] [[fifth; one]; [fifth; half]]
              default_errstate) = inr v
    /\ is_shape 2 2 v = true
    /\ all2d ndvi_sample v = true.
Proof.
  exact (X17_ndvi_between_minus_one_and_one 2 2
           [[half; zero]; [fifth; nan]] [[fifth; one]; [fifth; half]]
           default_errstate eq_refl eq_refl eq_refl eq_refl
           ltac:(intros [ | | | ]; discriminate)).
Defined.

(** ** The smallest index *)

Lemma is_shape_nonempty {T} (r c : nat) (a : array2 T) :
  is_shape r c a = true -> (0 < r)%nat -> (0 < c)%nat -> concat a <> [].
Proof.
  intros H Hr Hc. apply is_shape_spec in H as [Hl Hrows].
  destruct a as [ | row a]; [cbn in Hl; lia | ].
  apply Forall_cons in Hrows as [Hrow _].
  destruct row as [ | x row]; [cbn in Hrow; lia | ].
  discriminate.
Qed.

Lemma ndvi_sample_valid (x : f64) : ndvi_sample x = true -> valid x = true.
Proof. unfold ndvi_sample. intros H. apply andb_prop in H as [H _]. exact H. Qed.

(** X18.  The minimum that cell 52 shows.  For two bands of one shape with
    at least one pixel, whose samples are no-data or reflectances from 0 to
    1, under an error setting that raises nothing, the NDVI is computed and
    [np.nanmin] of it returns a value without raising; the value is no-data
    or a finite number from -1 to 1, the all-NaN warning is given exactly
    when every pixel of the index is no-data, and the value is less than or
    equal to every pixel of the index that has data. *)
Theorem X18_minimum_of_the_ndvi
    (r c : nat) (nir red : array2 f64) (st : errstate) :
  is_shape r c nir = true -> is_shape r c red = true ->
  (0 < r)%nat -> (0 < c)%nat ->
  all2d unit_or_nodata nir = true -> all2d unit_or_nodata red = true ->
  no_raise st ->
  exists v lo,
    result (ndvi nir red st) = inr v
    /\ np_nanmin v = inr lo
    /\ ndvi_sample (red_value lo) = true
    /\ (all_nan_warning lo = true
        <-> forall x, In x (concat v) -> is_nan x = true)
    /\ forall x, In x (concat v) -> is_nan x = false ->
         leb (red_value lo) x = true.
Proof.
  intros Hn Hr Pr Pc Un Ur Hst.
  destruct (ndvi_same_shape r c nir red st Hn Hr Hst) as [E _].
  set (v := zip2d ndvi_pixel nir red) in *.
  assert (Sv : is_shape r c v = true) by (apply is_shape_zip2d; assumption).
  assert (Rv : all2d ndvi_sample v = true).
  { apply (all2d_zip2d unit_or_nodata unit_or_nodata); [ | assumption | assumption].
    exact ndvi_pixel_range. }
  assert (Vv : all2d valid v = true)
    by (exact (all2d_impl _ _ _ ndvi_sample_valid Rv)).
  destruct (nanmin_nanmax_spec v Vv) as [_ A].
  destruct (A (is_shape_nonempty r c v Sv Pr Pc))
    as (lo & hi & Elo & _ & Wlo & _ & Ilo & _ & B).
  exists v, lo. split; [exact E | ]. split; [exact Elo | ].
  split; [ | split; [exact Wlo | ]].
  - rewrite all2d_concat, forallb_forall in Rv. apply Rv. exact Ilo.
  - intros x Hx Nx. apply (B x Hx Nx).
Qed.

Lemma X18_witness :
  exists v lo,
    result (ndvi [[half; zero]; [fifth; nan]] [[fifth; one]; [fifth; half]]
              default_errstate) = inr v
    /\ np_nanmin v = inr lo
    /\ ndvi_sample (red_value lo) = true
    /\ (all_nan_warning lo = true
        <-> forall x, In x (concat v) -> is_nan x = true)
    /\ forall x, In x (concat v) -> is_nan x = false ->
         leb (red_value lo) x = true.
Proof.
  exact (X18_minimum_of_the_ndvi 2 2
           [[half; zero]; [fifth; nan]] [[fifth; one]; [fifth; half]]
           default_errstate eq_refl eq_refl ltac:(lia) ltac:(lia)
           eq_refl eq_refl ltac:(intros [ | | | ]; discriminate)).
Defined.

(** ** Differences of reflectances of any size *)

(** Rounding an exact number that is at most a number that can be
    represented gives a finite number that is at most that number: the
    difference of two reflectances never overflows. *)
Lemma binary_round_bounded (s : bool) (p : positive) (e : Z)
    (mf : positive) (ef : Z) :
  -1074 <= e ->
  valid (S754_finite false mf ef) = true ->
  Zpos p * 2 ^ (e + 1074) <= Zpos mf * 2 ^ (ef + 1074) ->
  exists m' e',
    binary_round prec emax s p e = S754_finite s m' e'
    /\ valid (S754_finite s m' e') = true
    /\ Zpos m' * 2 ^ (e' + 1074) <= Zpos mf * 2 ^ (ef + 1074).
Proof.
  intros He Vf Hle. unfold binary_round.
  pose proof (shl_align_exp p e (fexp prec emax (Zpos (digits2_pos p) + e))) as E1.
  pose proof (shl_align_value p e (fexp prec emax (Zpos (digits2_pos p) + e))) as V1.
  destruct (shl_align p e (fexp prec emax (Zpos (digits2_pos p) + e)))
    as [mz ez]; cbn [fst snd] in *.
  rewrite <- E1 in V1.
  assert (Hf : -1074 <= fexp prec emax (Zpos (digits2_pos p) + e))
    by (rewrite fexp_eq; lia).
  assert (Hez : -1074 <= ez <= e) by lia.
  assert (Dz : Zdigits2 (Zpos mz) + ez = Zpos (digits2_pos p) + e).
  { rewrite V1, digits_shift by lia. cbn [Zdigits2]. lia. }
  assert (EX : Zpos mz * 2 ^ (ez + 1074) = Zpos p * 2 ^ (e + 1074)).
  { rewrite V1, <- Z.mul_assoc, <- Z.pow_add_r by lia. do 2 f_equal. lia. }
  rewrite <- EX in Hle.
  assert (Hn : ez <= fexp prec emax (Zdigits2 (Zpos mz) + ez))
    by (rewrite Dz; lia).
  (* the bound keeps the input out of the overflow *)
  pose proof (scaled_finite_bounds false mf ef Vf) as (_ & F53 & _).
  pose proof (valid_finite _ _ _ Vf) as (Hef & _ & _).
  pose proof (digits_bounds (Zpos mz) ltac:(lia)) as [Dlo Dhi].
  pose proof (digits_pos (Zpos mz) ltac:(lia)) as D1.
  set (dg := Zdigits2 (Zpos mz)) in *.
  set (e1 := fexp prec emax (dg + ez)) in *.
  assert (Ee1 : e1 = Z.max (dg + ez - 53) (-1074)) by (unfold e1; apply fexp_eq).
  set (k := e1 - ez) in *.
  assert (Hk : 0 <= k) by (unfold k; lia).
  assert (Pk : 0 < 2 ^ k) by (apply Z.pow_pos_nonneg; lia).
  set (u := 2 ^ (ez + 1074)) in *.
  assert (Pu : 0 < u) by (apply Z.pow_pos_nonneg; lia).
  set (gf := 2 ^ (ef + 1074)) in *.
  assert (Pgf : 0 < gf) by (apply Z.pow_pos_nonneg; lia).
  assert (Hdg : dg + ez <= 1024).
  { destruct (Z.le_gt_cases (dg + ez) 1024) as [ | Hgt]; [assumption | exfalso].
    assert (A1 : 2 ^ (dg - 1) * u <= Zpos mz * u)
      by (apply Z.mul_le_mono_nonneg_r; lia).
    unfold u in A1 at 1. rewrite <- Z.pow_add_r in A1 by lia.
    assert (A2 : Zpos mf * gf < 2 ^ 53 * gf)
      by (apply Z.mul_lt_mono_pos_r; lia).
    unfold gf in A2 at 2. rewrite <- Z.pow_add_r in A2 by lia.
    assert (A3 : 2 ^ (53 + (ef + 1074)) <= 2 ^ (dg - 1 + (ez + 1074)))
      by (apply Z.pow_le_mono_r; lia).
    lia. }
  assert (Hov : e1 <= 970
                \/ (e1 = 971
                    /\ (Zpos mz / 2 ^ k + 1 < 2 ^ 53
                        \/ (loc_Exact = loc_Exact
                            /\ Zpos mz = Zpos mz / 2 ^ k * 2 ^ k)))).
  { destruct (Z.le_gt_cases e1 970) as [ | Hgt]; [left; assumption | right].
    assert (E971 : e1 = 971) by lia. split; [exact E971 | ].
    set (m1 := Zpos mz / 2 ^ k).
    destruct (Z.lt_ge_cases (m1 + 1) (2 ^ 53)) as [ | Hbig]; [left; assumption | right].
    split; [reflexivity | ].
    pose proof (Z.div_mod (Zpos mz) (2 ^ k) ltac:(lia)) as Hdm. fold m1 in Hdm.
    pose proof (Z.mod_pos_bound (Zpos mz) (2 ^ k) Pk) as Hmod.
    (* the bound is at most the largest number, which is on the grid *)
    assert (Eg : 2 ^ k * u = 2 ^ (971 + 1074)).
    { unfold u, k. rewrite <- Z.pow_add_r by lia. f_equal. lia. }
    assert (Hgf : gf <= 2 ^ k * u).
    { rewrite Eg. unfold gf. apply Z.pow_le_mono_r; lia. }
    assert (B2 : m1 * (2 ^ k * u) <= Zpos mz * u).
    { rewrite Z.mul_assoc. apply Z.mul_le_mono_nonneg_r; [lia | ].
      rewrite (Z.mul_comm m1). lia. }
    assert (Pg : 0 < 2 ^ k * u) by (apply Z.mul_pos_pos; assumption).
    assert (B4 : Zpos mz * u = m1 * (2 ^ k * u)).
    { set (g := 2 ^ k * u) in *. clearbody g.
      assert (B1 : Zpos mf * gf <= (2 ^ 53 - 1) * g)
        by (apply Z.mul_le_mono_nonneg; lia).
      assert (B3 : (2 ^ 53 - 1) * g <= m1 * g)
        by (apply Z.mul_le_mono_nonneg_r; lia).
      lia. }
    rewrite Z.mul_assoc in B4. apply Z.mul_reg_r in B4; lia. }
  destruct (binary_round_aux_monotone_gen s (Zpos mz) ez loc_Exact
              ltac:(lia) ltac:(lia) Hn Hov)
    as (m' & e' & Er & Hv & Hmono).
  exists m', e'. split; [exact Er | ]. split; [exact Hv | ].
  destruct (Hmono mf ef Vf) as (_ & M2 & M3).
  fold u gf in M2, M3 |- *.
  destruct (Z.eq_dec (Zpos mz * u) (Zpos mf * gf)) as [Heq | Hne].
  - rewrite (M3 eq_refl Heq). lia.
  - apply M2. lia.
Qed.

Lemma data_sample_finite (s : bool) (m : positive) (e : Z) :
  data_sample (S754_finite s m e) = true ->
  s = false /\ valid (S754_finite false m e) = true.
Proof.
  unfold data_sample. intros H.
  apply andb_prop in H as [H Hn]. apply andb_prop in H as [Hv _].
  destruct s; [discriminate | ]. split; [reflexivity | exact Hv].
Qed.

Lemma data_sample_good (x : f64) :
  data_sample x = true -> valid x = true /\ is_nan x = false.
Proof.
  unfold data_sample. intros H.
  apply andb_prop in H as [H _]. apply andb_prop in H as [Hv Hf].
  split; [exact Hv | ]. destruct x; try discriminate; reflexivity.
Qed.

(** The difference of two reflectances is finite, whatever their size. *)
Lemma sub_data_finite (x y : f64) :
  data_sample x = true -> data_sample y = true -> is_finite (sub x y) = true.
Proof.
  intros Hx Hy.
  destruct x as [sx | sx | | sx mx ex]; try discriminate;
    destruct y as [sy | sy | | sy my ey]; try discriminate.
  - destruct sx, sy; reflexivity.
  - reflexivity.
  - reflexivity.
  - apply data_sample_finite in Hx as (-> & Vx).
    apply data_sample_finite in Hy as (-> & Vy).
    pose proof (valid_finite _ _ _ Vx) as (Hex & _ & _).
    pose proof (valid_finite _ _ _ Vy) as (Hey & _ & _).
    rewrite sub_finite_finite.
    set (emin := Z.min ex ey).
    pose proof (scaled_align mx ex emin ltac:(unfold emin; lia)) as Ax.
    pose proof (scaled_align my ey emin ltac:(unfold emin; lia)) as Ay.
    set (u := 2 ^ (emin + 1074)) in *.
    assert (Pu : 0 < u) by (apply Z.pow_pos_nonneg; unfold emin; lia).
    set (ax := Zpos mx * 2 ^ (ex - emin)) in *.
    set (ay := Zpos my * 2 ^ (ey - emin)) in *.
    assert (Px : 0 < ax)
      by (apply Z.mul_pos_pos; [lia | apply Z.pow_pos_nonneg; unfold emin; lia]).
    assert (Py : 0 < ay)
      by (apply Z.mul_pos_pos; [lia | apply Z.pow_pos_nonneg; unfold emin; lia]).
    destruct (ax - ay) as [ | p | p] eqn:E; cbn [binary_normalize].
    + reflexivity.
    + destruct (binary_round_bounded false p emin mx ex) as (m' & e' & -> & _);
        [unfold emin; lia | exact Vx | | reflexivity].
      fold u. rewrite Ax. apply Z.mul_le_mono_nonneg_r; lia.
    + destruct (binary_round_bounded true p emin my ey) as (m' & e' & -> & _);
        [unfold emin; lia | exact Vy | | reflexivity].
      fold u. rewrite Ay. apply Z.mul_le_mono_nonneg_r; lia.
Qed.

(** The difference of two distinct reflectances is not zero. *)
Lemma sub_data_distinct (x y : f64) :
  data_sample x = true -> data_sample y = true -> eqb x y = false ->
  is_zero (sub x y) = false.
Proof.
  intros Hx Hy Hne.
  destruct x as [sx | sx | | sx mx ex]; try discriminate;
    destruct y as [sy | sy | | sy my ey]; try discriminate;
    try reflexivity.
  apply data_sample_finite in Hx as (-> & Vx).
  apply data_sample_finite in Hy as (-> & Vy).
  apply valid_finite in Vx as (Hex & _ & Cx).
  apply valid_finite in Vy as (Hey & _ & Cy).
  rewrite sub_finite_finite.
  destruct (Zpos mx * 2 ^ (ex - Z.min ex ey) - Zpos my * 2 ^ (ey - Z.min ex ey))
    as [ | p | p] eqn:E; cbn [binary_normalize].
  - destruct (canonical_unique mx my ex ey Cx Cy ltac:(lia)) as [-> ->].
    rewrite eqb_refl_finite in Hne. discriminate.
  - apply (is_zero_nonzero false), binary_round_nonzero. lia.
  - apply (is_zero_nonzero true), binary_round_nonzero. lia.
Qed.

Lemma eqb_true_finite (mx my : positive) (ex ey : Z) :
  eqb (S754_finite false mx ex) (S754_finite false my ey) = true ->
  ex = ey /\ mx = my.
Proof.
  unfold eqb, SFeqb, SFcompare. intros He.
  destruct (ex ?= ey) eqn:E; try discriminate.
  apply Z.compare_eq in E.
  change (Pos.compare_cont Eq mx my) with (Pos.compare mx my) in He.
  destruct (mx ?= my)%positive eqn:M; try discriminate.
  apply Pos.compare_eq in M. split; assumption.
Qed.

Lemma eqb_true_sub_zero_data (x y : f64) :
  data_sample x = true -> data_sample y = true -> eqb x y = true ->
  is_zero (sub x y) = true.
Proof.
  intros Hx Hy He.
  destruct x as [sx | sx | | sx mx ex]; try discriminate;
    destruct y as [sy | sy | | sy my ey]; try discriminate.
  - destruct sx, sy; reflexivity.
  - destruct sy; discriminate.
  - destruct sx; discriminate.
  - apply data_sample_finite in Hx as (-> & _).
    apply data_sample_finite in Hy as (-> & _).
    apply eqb_true_finite in He as [-> ->].
    rewrite sub_finite_finite, Z.sub_diag. reflexivity.
Qed.

Lemma eqb_true_sub_eq_data (x hi lo : f64) :
  data_sample x = true -> data_sample hi = true ->
  eqb x hi = true -> eqb lo hi = false ->
  sub x lo = sub hi lo.
Proof.
  intros Hx Hh He Hl.
  destruct x as [sx | sx | | sx mx ex]; try discriminate;
    destruct hi as [sh | sh | | sh mh eh]; try discriminate.
  - destruct lo as [sl | sl | | sl ml el]; try reflexivity.
    cbn in Hl. discriminate.
  - destruct sh; discriminate.
  - destruct sx; discriminate.
  - apply data_sample_finite in Hx as (-> & _).
    apply data_sample_finite in Hh as (-> & _).
    apply eqb_true_finite in He as [-> ->]. reflexivity.
Qed.

Lemma eqb_refl_data (x : f64) : data_sample x = true -> eqb x x = true.
Proof.
  intros H. destruct x as [[ | ] | | | s m e]; try discriminate; try reflexivity.
  apply eqb_refl_finite.
Qed.

(** One sample through the stretch, for reflectances of any size. *)
Lemma stretch_data_sample (lo hi x : f64) :
  data_sample lo = true -> data_sample hi = true -> data_sample x = true ->
  eqb lo hi = false ->
  leb zero (stb.clamp_unit (stb.remap lo hi x)) = true
  /\ leb (stb.clamp_unit (stb.remap lo hi x)) one = true
  /\ (eqb x lo = true -> eqb (stb.clamp_unit (stb.remap lo hi x)) zero = true)
  /\ (eqb x hi = true -> stb.clamp_unit (stb.remap lo hi x) = one).
Proof.
  intros Hlo Hhi Hx Hne. unfold stb.remap.
  pose proof (sub_data_finite hi lo Hhi Hlo) as Fd.
  pose proof (sub_data_distinct hi lo Hhi Hlo ltac:(rewrite eqb_sym; exact Hne)) as Zd.
  pose proof (sub_data_finite x lo Hx Hlo) as Fa.
  pose proof (div_finite_not_nan _ _ Fa Fd Zd) as Nq.
  destruct (clamp_unit_range _ Nq) as [R0 R1].
  split; [exact R0 | ]. split; [exact R1 | ]. split.
  - intros He. apply clamp_unit_zero, div_zero_finite; auto.
    apply eqb_true_sub_zero_data; assumption.
  - intros He.
    rewrite (eqb_true_sub_eq_data x hi lo Hx Hhi He Hne).
    destruct (finite_nonzero_cases _ Fd Zd) as (s & m & e & ->).
    rewrite div_self. reflexivity.
Qed.

(** ** Merge sort under an order that is total on the data only *)

Section MergeExt.
Context {A : Type} (R1 R2 : relation A).
Context {dec1 : RelDecision R1} {dec2 : RelDecision R2}.
Variable P : A -> Prop.
Hypothesis agree : forall x y, P x -> P y -> (R1 x y <-> R2 x y).

Lemma list_merge_ext (l1 : list A) :
  forall l2, Forall P l1 -> Forall P l2 ->
    list_merge R1 l1 l2 = list_merge R2 l1 l2.
Proof.
  induction l1 as [ | x1 l1 IH1]; intros l2 H1 H2.
  - rewrite !list_merge_nil_l. reflexivity.
  - induction l2 as [ | x2 l2 IH2].
    + rewrite !list_merge_nil_r. reflexivity.
    + rewrite !list_merge_cons.
      apply Forall_cons in H1 as [Px1 H1']. apply Forall_cons in H2 as [Px2 H2'].
      pose proof (agree x1 x2 Px1 Px2) as Hag.
      destruct (decide (R1 x1 x2)) as [Y1 | N1],
               (decide (R2 x1 x2)) as [Y2 | N2]; try tauto.
      * f_equal. apply IH1; [exact H1' | ]. apply Forall_cons. split; assumption.
      * f_equal. apply IH2. exact H2'.
Qed.

Lemma list_merge_Forall (l1 l2 : list A) :
  Forall P l1 -> Forall P l2 -> Forall P (list_merge R2 l1 l2).
Proof.
  intros H1 H2. rewrite merge_Permutation. apply Forall_app. split; assumption.
Qed.

Lemma merge_list_to_stack_ext (st : list (option (list A))) :
  forall l, stack_good P st -> Forall P l ->
    merge_list_to_stack R1 st l = merge_list_to_stack R2 st l
    /\ stack_good P (merge_list_to_stack R2 st l).
Proof.
  induction st as [ | [l' | ] st IH]; intros l Hst Hl; cbn [merge_list_to_stack].
  - split; [reflexivity | ]. apply Forall_cons. split; [exact Hl | constructor].
  - apply Forall_cons in Hst as [Hl' Hst].
    rewrite (list_merge_ext l' l Hl' Hl).
    destruct (IH (list_merge R2 l' l) Hst (list_merge_Forall l' l Hl' Hl))
      as [E G].
    rewrite E. split; [reflexivity | ]. apply Forall_cons. split; [exact I | exact G].
  - apply Forall_cons in Hst as [_ Hst].
    split; [reflexivity | ]. apply Forall_cons. split; [exact Hl | exact Hst].
Qed.

Lemma merge_stack_ext (st : list (option (list A))) :
  stack_good P st ->
  merge_stack R1 st = merge_stack R2 st /\ Forall P (merge_stack R2 st).
Proof.
  induction st as [ | [l | ] st IH]; intros Hst; cbn [merge_stack].
  - split; [reflexivity | constructor].
  - apply Forall_cons in Hst as [Hl Hst]. destruct (IH Hst) as [E G].
    rewrite E. split; [apply list_merge_ext; assumption | ].
    apply list_merge_Forall; assumption.
  - apply Forall_cons in Hst as [_ Hst]. apply IH, Hst.
Qed.

Lemma merge_sort_aux_ext (l : list A) :
  forall st, stack_good P st -> Forall P l ->
    merge_sort_aux R1 st l = merge_sort_aux R2 st l.
Proof.
  induction l as [ | x l IH]; intros st Hst Hl; cbn [merge_sort_aux].
  - apply merge_stack_ext, Hst.
  - apply Forall_cons in Hl as [Px Hl].
    assert (Hx : Forall P [x]) by (apply Forall_cons; split; [exact Px | constructor]).
    destruct (merge_list_to_stack_ext st [x] Hst Hx) as [E G].
    rewrite E. apply IH; assumption.
Qed.

Lemma merge_sort_ext (l : list A) :
  Forall P l -> merge_sort R1 l = merge_sort R2 l.
Proof. intros Hl. apply merge_sort_aux_ext; [constructor | exact Hl]. Qed.

End MergeExt.

(** ** Order statistics of a sorted list *)

Section OrderStatistics.
Context {A : Type} (R : relation A).
Hypothesis R_refl : forall x, R x x.

Lemma filter_all (p : A -> bool) (l : list A) :
  Forall (fun x => p x = true) l -> List.filter p l = l.
Proof.
  induction 1 as [ | x l Hx _ IH]; cbn [List.filter]; [reflexivity | ].
  rewrite Hx, IH. reflexivity.
Qed.

Lemma filter_length_Permutation (p : A -> bool) (l l' : list A) :
  l ≡ₚ l' -> length (List.filter p l) = length (List.filter p l').
Proof.
  induction 1 as [ | x l l' _ IH | x y l | l l' l'' _ IH1 _ IH2];
    cbn [List.filter].
  - reflexivity.
  - destruct (p x); cbn [length]; lia.
  - destruct (p x), (p y); reflexivity.
  - lia.
Qed.

(** In a sorted list the element at position [k] has at least [k + 1]
    elements before or equal to it and at least [n - k] after or equal to
    it. *)
Lemma sorted_rank (l : list A) (k : nat) (x : A) :
  StronglySorted R l -> l !! k = Some x ->
  Forall (fun y => R y x) (take (S k) l)
  /\ Forall (fun y => R x y) (drop k l).
Proof.
  intros Hs Hk.
  pose proof (take_drop_middle l k x Hk) as E.
  rewrite <- E in Hs.
  apply StronglySorted_app in Hs as (Hcross & _ & Hs2).
  apply StronglySorted_cons in Hs2 as [Hafter _].
  split.
  - rewrite (take_S_r l k x Hk). apply Forall_app. split.
    + apply Forall_forall. intros y Hy. apply Hcross; [exact Hy | ].
      apply elem_of_cons. left. reflexivity.
    + apply Forall_cons. split; [apply R_refl | constructor].
  - rewrite (drop_S l x k Hk). apply Forall_cons. split; [apply R_refl | exact Hafter].
Qed.

End OrderStatistics.

(** ** Percentiles *)

Lemma scaled_le_total : Total scaled_le.
Proof. intros x y. unfold scaled_le. lia. Qed.

Lemma scaled_le_trans : Transitive scaled_le.
Proof. intros x y z. unfold scaled_le. lia. Qed.

Lemma f64_le_scaled_le (x y : f64) :
  data_sample x = true -> data_sample y = true ->
  stb.f64_le x y <-> scaled_le x y.
Proof.
  intros Hx Hy.
  destruct (data_sample_good x Hx) as [Vx Nx].
  destruct (data_sample_good y Hy) as [Vy Ny].
  apply leb_scaled; assumption.
Qed.

Lemma nearest_rank_lt (n : nat) (p : Q) : (0 < n)%nat -> (nearest_rank n p < n)%nat.
Proof. unfold nearest_rank. lia. Qed.

Lemma nearest_rank_mono (n : nat) (p q : Q) :
  (p <= q)%Q -> (nearest_rank n p <= nearest_rank n q)%nat.
Proof.
  intros Hpq. unfold nearest_rank.
  assert (H : (Qceiling (p * inject_Z (Z.of_nat n) / 100)
               <= Qceiling (q * inject_Z (Z.of_nat n) / 100))%Z).
  { apply Qceiling_resp_le. unfold Qdiv.
    apply Qmult_le_compat_r; [ | discriminate].
    apply Qmult_le_compat_r; [exact Hpq | ].
    change 0%Q with (inject_Z 0). rewrite <- Zle_Qle. lia. }
  lia.
Qed.

Section Percentile.
Variable samples : list f64.
Hypothesis Hdata : Forall (fun x => data_sample x = true) samples.
Hypothesis Hne : samples <> [].

Lemma sorted_samples :
  merge_sort stb.f64_le samples = merge_sort scaled_le samples
  /\ StronglySorted scaled_le (merge_sort scaled_le samples)
  /\ merge_sort scaled_le samples ≡ₚ samples.
Proof.
  split; [ | split].
  - apply (merge_sort_ext stb.f64_le scaled_le (fun x => data_sample x = true)).
    + intros x y. apply f64_le_scaled_le.
    + exact Hdata.
  - apply (@StronglySorted_merge_sort _ scaled_le _ scaled_le_trans scaled_le_total).
  - apply merge_sort_Permutation.
Qed.

Lemma percentile_lookup (p : Q) :
  merge_sort scaled_le samples !! nearest_rank (length samples) p
  = Some (stb.percentile samples p).
Proof.
  destruct sorted_samples as (E & _ & Hperm).
  unfold stb.percentile. rewrite E.
  rewrite (Permutation_length Hperm). fold (nearest_rank (length samples) p).
  assert (Hlt : (nearest_rank (length samples) p < length (merge_sort scaled_le samples))%nat).
  { rewrite (Permutation_length Hperm). apply nearest_rank_lt.
    destruct samples; [congruence | cbn; lia]. }
  destruct (lookup_lt_is_Some_2 _ _ Hlt) as [x Hx].
  rewrite Hx. f_equal. symmetry. apply nth_lookup_Some with (d := nan). exact Hx.
Qed.

Lemma percentile_data (p : Q) : data_sample (stb.percentile samples p) = true.
Proof.
  destruct sorted_samples as (_ & _ & Hperm).
  pose proof (percentile_lookup p) as Hk.
  apply list_elem_of_lookup_2 in Hk. rewrite Hperm in Hk.
  rewrite Forall_forall in Hdata. apply Hdata, Hk.
Qed.

(** The percentile is the order statistic of its rank: at least
    [rank + 1] samples are at most it, and at least [n - rank] samples are
    at least it. *)
Lemma percentile_rank (p : Q) :
  (nearest_rank (length samples) p
   < length (List.filter (fun x => leb x (stb.percentile samples p)) samples))%nat
  /\ (length samples - nearest_rank (length samples) p
      <= length (List.filter (fun x => leb (stb.percentile samples p) x) samples))%nat.
Proof.
  destruct sorted_samples as (_ & Hs & Hperm).
  pose proof (percentile_lookup p) as Hk.
  pose proof (percentile_data p) as Dp.
  set (v := stb.percentile samples p) in *.
  set (k := nearest_rank (length samples) p) in *.
  set (sorted := merge_sort scaled_le samples) in *.
  assert (Hlen : length sorted = length samples) by (apply Permutation_length, Hperm).
  assert (Hlt : (k < length sorted)%nat) by (apply lookup_lt_is_Some_1; eauto).
  assert (Dall : forall y, y ∈ sorted -> data_sample y = true).
  { intros y Hy. rewrite Hperm in Hy. rewrite Forall_forall in Hdata. auto. }
  destruct (sorted_rank scaled_le (fun x => Z.le_refl (scaled x)) sorted k v Hs Hk)
    as [Hbefore Hafter].
  rewrite <- !(filter_length_Permutation _ _ _ Hperm).
  split.
  - rewrite <- (take_drop (S k) sorted) at 1. rewrite List.filter_app, length_app.
    rewrite filter_all.
    + rewrite length_take. lia.
    + rewrite Forall_forall in Hbefore |- *. intros y Hy.
      apply (f64_le_scaled_le y v); [ | exact Dp | apply Hbefore, Hy].
      apply Dall. exact (subseteq_take _ _ _ Hy).
  - rewrite <- (take_drop k sorted) at 1. rewrite List.filter_app, length_app.
    rewrite (filter_all _ (drop k sorted)).
    + rewrite length_drop. lia.
    + rewrite Forall_forall in Hafter |- *. intros y Hy.
      apply (f64_le_scaled_le v y); [exact Dp | | apply Hafter, Hy].
      apply Dall. exact (subseteq_drop _ _ _ Hy).
Qed.

Lemma percentile_mono (p q : Q) :
  (p <= q)%Q -> leb (stb.percentile samples p) (stb.percentile samples q) = true.
Proof.
  intros Hpq.
  destruct sorted_samples as (_ & Hs & Hperm).
  pose proof (percentile_lookup p) as Hp.
  pose proof (percentile_lookup q) as Hq.
  pose proof (nearest_rank_mono (length samples) p q Hpq) as Hk.
  destruct (sorted_rank scaled_le (fun x => Z.le_refl (scaled x)) _ _ _ Hs Hq)
    as [Hbefore _].
  apply (f64_le_scaled_le _ _ (percentile_data p) (percentile_data q)).
  rewrite Forall_forall in Hbefore. apply Hbefore.
  apply elem_of_take. exists (nearest_rank (length samples) p).
  split; [exact Hp | lia].
Qed.

End Percentile.

(** ** The contrast stretch of a reflectance array *)

Example nearest_rank_examples :
  nearest_rank 4 2 = 0%nat /\ nearest_rank 4 98 = 3%nat
  /\ nearest_rank 100 2 = 1%nat /\ nearest_rank 100 98 = 97%nat
  /\ nearest_rank 1000 2 = 19%nat /\ nearest_rank 1000 98 = 979%nat.
Proof. repeat split; reflexivity. Qed.

Lemma reflectance_data_sample (x : f64) :
  reflectance_sample x = true -> negb (is_nan x) = true -> data_sample x = true.
Proof.
  unfold reflectance_sample, data_sample. intros H N.
  apply andb_prop in H as [Hv H]. rewrite Hv.
  destruct (is_nan x); [discriminate | ]. cbn [orb] in H.
  apply andb_prop in H as [Hf Hz]. rewrite Hf, Hz. reflexivity.
Qed.

Lemma valid_samples_all (band : array2 f64) :
  all2d (fun x => negb (is_nan x)) band = true ->
  stb.valid_samples band = concat band.
Proof.
  rewrite all2d_concat. unfold stb.valid_samples.
  induction (concat band) as [ | x l IH]; cbn [forallb List.filter]; [reflexivity | ].
  intros H. apply andb_prop in H as [Hx Hl].
  rewrite Hx, IH by assumption. reflexivity.
Qed.



Example stretch_example :
  stb.percentile (stb.valid_samples [[half; three_halves]; [one; fifth]]) 2 = fifth
  /\ stb.percentile (stb.valid_samples [[half; three_halves]; [one; fifth]]) 98
     = three_halves
  /\ stb.stretch [[half; three_halves]; [one; fifth]] 2 98
     = [[div (sub half fifth) (sub three_halves fifth); one];
        [div (sub one fifth) (sub three_halves fifth); zero]].
Proof. repeat split; reflexivity. Qed.
